(** * A shallow embedding of [bin/configure-tower-projects.py]

    The script reconciles a Nextflow Tower organization with the project
    configurations of the repository.  This development embeds the parts of
    it that the specification talks about:
    - [Projects.extract_tags] and [Projects.extract_emails] (pure string code);
    - the Tower client operations of [TowerOrganization] and [TowerWorkspace],
      written in a small state-and-error monad over a model of the remote
      Tower service and of the AWS secret store. *)

From Stdlib Require Import String Ascii List Bool ZArith Lia.
Import ListNotations.
Open Scope string_scope.
Open Scope list_scope.
Set Warnings "-register-all".

(* ================================================================== *)
(** ** Characters and Python string helpers *)

Module Py.

Definition code (c : ascii) : nat := nat_of_ascii c.

Definition in_range (lo hi : ascii) (c : ascii) : bool :=
  Nat.leb (code lo) (code c) && Nat.leb (code c) (code hi).

(** [str.isspace] on the Latin-1 range: \t \n \v \f \r, \x1c-\x1f,
    space, \x85 and \xa0. *)
Definition isspace (c : ascii) : bool :=
  let n := code c in
  (Nat.leb 9 n && Nat.leb n 13) || (Nat.leb 28 n && Nat.leb n 32)
  || Nat.eqb n 133 || Nat.eqb n 160.

Fixpoint lstrip (s : string) : string :=
  match s with
  | EmptyString => EmptyString
  | String c s' => if isspace c then lstrip s' else s
  end.

Fixpoint rev_string (s : string) : string :=
  match s with
  | EmptyString => EmptyString
  | String c s' => (rev_string s' ++ String c EmptyString)%string
  end.

(** [str.strip()] with no argument. *)
Definition strip (s : string) : string :=
  rev_string (lstrip (rev_string (lstrip s))).

Fixpoint contains_char (x : ascii) (s : string) : bool :=
  match s with
  | EmptyString => false
  | String c s' => Ascii.eqb c x || contains_char x s'
  end.

(** The third component of [s.rpartition(sep)] for a one-character
    separator: the text after the last [sep], or [s] itself when [sep]
    does not occur. *)
Fixpoint rpartition_tail (sep : ascii) (s : string) : string :=
  match s with
  | EmptyString => EmptyString
  | String c s' =>
      if contains_char sep s' then rpartition_tail sep s'
      else if Ascii.eqb c sep then s' else s
  end.

(** [a in b] for strings: substring test. *)
Fixpoint is_substring (a b : string) : bool :=
  String.prefix a b ||
  match b with
  | EmptyString => false
  | String _ b' => is_substring a b'
  end.

End Py.

(* ================================================================== *)
(** ** [Projects.extract_tags] *)

Module Tags.

(** A Python [dict] with string keys and values, in insertion order. *)
Definition dict := list (string * string).

Fixpoint dict_get (k : string) (d : dict) : option string :=
  match d with
  | [] => None
  | (k', v) :: d' => if String.eqb k k' then Some v else dict_get k d'
  end.

(** [d[k] = v]: update in place when [k] is present, append otherwise. *)
Fixpoint dict_set (k v : string) (d : dict) : dict :=
  match d with
  | [] => [(k, v)]
  | (k', v') :: d' =>
      if String.eqb k k' then (k', v) :: d' else (k', v') :: dict_set k v d'
  end.

(** [d.pop(k)]: the value and the dict without [k]; [None] is a [KeyError]. *)
Fixpoint dict_pop (k : string) (d : dict) : option (string * dict) :=
  match d with
  | [] => None
  | (k', v') :: d' =>
      if String.eqb k k' then Some (v', d')
      else match dict_pop k d' with
           | Some (v, d'') => Some (v, (k', v') :: d'')
           | None => None
           end
  end.

Definition dict_keys (d : dict) : list string := map fst d.

(** The character class of [re.compile(r"[^A-z0-9_-]+")]: a character is
    kept when it lies in the range [A-z] (65..122, which also contains
    [\[ \\ \] ^ _ `]), is a digit, or is [_] or [-]. *)
Definition kept (c : ascii) : bool :=
  Py.in_range "A" "z" c || Py.in_range "0" "9" c
  || Ascii.eqb c "_" || Ascii.eqb c "-".

(** [invalid_chars.sub("_", s)]: every maximal run of characters outside
    the class is replaced by one ["_"]; [in_run] records that the previous
    character already belonged to a replaced run. *)
Fixpoint sub_aux (in_run : bool) (s : string) : string :=
  match s with
  | EmptyString => EmptyString
  | String c s' =>
      if kept c then String c (sub_aux false s')
      else if in_run then sub_aux true s'
      else String "_" (sub_aux true s')
  end.

Definition invalid_chars_sub (s : string) : string := sub_aux false s.

(** The body of the loop of [extract_tags] for one configuration. *)
Definition extract_tags_for (stack_name : string) (stack_tags : dict) : dict :=
  let stack_tags := dict_set "TowerProject" stack_name stack_tags in
  let stack_tags :=
    match dict_get "CostCenter" stack_tags with
    | Some cc =>
        let program_code := Py.rpartition_tail "/" cc in
        dict_set "CostCenter" (Py.strip program_code) stack_tags
    | None => stack_tags
    end in
  let original_keys := dict_keys stack_tags in
  fold_left
    (fun d key =>
       match dict_pop key d with
       | Some (val, d') =>
           dict_set (invalid_chars_sub key) (invalid_chars_sub val) d'
       | None => d
       end)
    original_keys stack_tags.

End Tags.

(* ================================================================== *)
(** ** [Projects.extract_emails] *)

Module Arn.

(** The regular expression
    [.*/(?P<session_name>[A-Za-z0-9._%+-]+@[A-Za-z0-9.-]+\.[A-Z|a-z]{2,})]
    used with [fullmatch], written as nested searches over the ways of
    splitting the input, in the order Python's backtracking tries them. *)

Definition is_alnum (c : ascii) : bool :=
  Py.in_range "A" "Z" c || Py.in_range "a" "z" c || Py.in_range "0" "9" c.

(** [[A-Za-z0-9._%+-]] *)
Definition local_class (c : ascii) : bool :=
  is_alnum c || Ascii.eqb c "." || Ascii.eqb c "_" || Ascii.eqb c "%"
  || Ascii.eqb c "+" || Ascii.eqb c "-".

(** [[A-Za-z0-9.-]] *)
Definition domain_class (c : ascii) : bool :=
  is_alnum c || Ascii.eqb c "." || Ascii.eqb c "-".

(** [[A-Z|a-z]]: the two ranges and the character [|]. *)
Definition tld_class (c : ascii) : bool :=
  Py.in_range "A" "Z" c || Ascii.eqb c "|" || Py.in_range "a" "z" c.

(** [X+] matching a whole string. *)
Definition plus (cls : ascii -> bool) (s : list ascii) : bool :=
  match s with [] => false | _ => forallb cls s end.

(** [X{2,}] matching a whole string. *)
Definition at_least_two (cls : ascii -> bool) (s : list ascii) : bool :=
  Nat.leb 2 (length s) && forallb cls s.

(** [exists_split p pre s]: some split [s = l ++ r] with [p (pre ++ l) r]. *)
Fixpoint exists_split (p : list ascii -> list ascii -> bool)
    (pre : list ascii) (s : list ascii) : bool :=
  if p (rev pre) s then true
  else match s with
       | [] => false
       | c :: s' => exists_split p (c :: pre) s'
       end.

(** [[A-Za-z0-9.-]+\.[A-Z|a-z]{2,}] on the whole string. *)
Definition domain_match (s : list ascii) : bool :=
  exists_split
    (fun d r => match r with
                | c :: t => if Ascii.eqb c "." then
                              plus domain_class d && at_least_two tld_class t
                            else false
                | [] => false
                end) [] s.

(** The [session_name] group on the whole string. *)
Definition session_match (s : list ascii) : bool :=
  exists_split
    (fun l r => match r with
                | c :: r' => if Ascii.eqb c "@" then
                               if plus local_class l then domain_match r'
                               else false
                             else false
                | [] => false
                end) [] s.

(** The candidate groups of [.*/(...)]: for each [/] of the input whose
    remainder matches the group, that remainder, left to right. *)
Fixpoint candidates (s : list ascii) : list (list ascii) :=
  match s with
  | [] => []
  | c :: s' =>
      (if Ascii.eqb c "/" then (if session_match s' then [s'] else [])
       else [])
      ++ candidates s'
  end.

(** [role_arn_regex.fullmatch(arn)] and its group [session_name]: the
    greedy [.*] tries the longest prefix first, so the group comes from the
    last candidate. *)
Definition fullmatch_session (arn : string) : option string :=
  match rev (candidates (list_ascii_of_string arn)) with
  | [] => None
  | e :: _ => Some (string_of_list_ascii e)
  end.

(** [emails.add(email)] on a set kept in insertion order. *)
Definition set_add (x : string) (s : list string) : list string :=
  if existsb (String.eqb x) s then s else s ++ [x].

(** [extract_emails]: the set of extracted emails (returned as
    [list(emails)], whose order is the set's) and the warnings printed for
    the ARNs that do not match. *)
Fixpoint extract_emails_aux (arns : list string)
    (emails : list string) (printed : list string) : list string * list string :=
  match arns with
  | [] => (emails, printed)
  | arn :: arns' =>
      match fullmatch_session arn with
      | Some email => extract_emails_aux arns' (set_add email emails) printed
      | None =>
          extract_emails_aux arns' emails
            (printed ++ [("Listed ARN (" ++ arn ++ ") doesn't follow expected format: "
                          ++ "'arn:aws:sts::<account_id>:<role_name>:<email>'")%string])
      end
  end.

Definition extract_emails (arns : list string) : list string * list string :=
  extract_emails_aux arns [] [].

End Arn.

(* ================================================================== *)
(** ** The remote Tower service *)

(** The script talks to Tower through [TowerClient.request] and
    [TowerClient.paged_request], which return decoded JSON.  The remote is
    an external service; it is modelled here by its entities, one typed
    request per endpoint the script uses, and the answers it gives.  A paged
    listing is modelled as one response holding every element. *)
Module Remote.

Inductive json : Type :=
| JNull
| JBool (b : bool)
| JNum (z : Z)
| JStr (s : string)
| JArr (l : list json)
| JObj (fields : list (string * json)).

(** [obj[key]] on a JSON object. *)
Definition jget (key : string) (j : json) : option json :=
  match j with
  | JObj fields =>
      match find (fun kv => String.eqb (fst kv) key) fields with
      | Some (_, v) => Some v
      | None => None
      end
  | _ => None
  end.

Definition jget_str (key : string) (j : json) : string :=
  match jget key j with Some (JStr s) => s | _ => "" end.

Record Org := mkOrg { org_orgId : Z; org_name : string; org_fullName : string }.

Record Workspace := mkWorkspace {
  ws_orgId : Z; ws_id : Z; ws_name : string; ws_fullName : string }.

Record Member := mkMember { mem_orgId : Z; mem_memberId : Z; mem_email : string }.

Record Participant := mkParticipant {
  part_wsId : Z;
  part_participantId : Z;
  part_memberId : option Z;
  part_teamId : option Z;
  part_wspRole : string }.

Record Credential := mkCredential {
  cred_wsId : Z; cred_id : Z; cred_name : string;
  cred_provider : string; cred_deleted : option string }.

Record Label := mkLabel { lab_wsId : Z; lab_id : Z; lab_name : string; lab_value : string }.

Record ComputeEnv := mkComputeEnv {
  ce_wsId : Z; ce_id : Z; ce_name : string; ce_platform : string;
  ce_status : string; ce_active_jobs : bool }.

Record state := mkState {
  orgs : list Org;
  workspaces : list Workspace;
  members : list Member;
  participants : list Participant;
  credentials : list Credential;
  labels : list Label;
  compute_envs : list ComputeEnv;
  next_id : Z }.

Inductive request : Type :=
| GetOrgs
| PostOrg (name fullName : string)
| GetWorkspaces (org : Z)
| PostWorkspace (org : Z) (name fullName : string)
| SearchMembers (org : Z) (search : string)
| AddMember (org : Z) (user : string)
| GetParticipants (org ws : Z)
| AddParticipant (org ws : Z) (memberId teamId : option Z)
| SetParticipantRole (org ws part : Z) (role : string)
| DeleteParticipant (org ws part : Z)
| GetCredentials (ws : Z)
| PostCredentials (ws : Z) (data : json)
| GetLabels (ws : Z)
| PostLabel (ws : Z) (name value : string)
| GetComputeEnvs (ws : Z)
| DeleteComputeEnv (ws ce : Z)
| PostComputeEnv (ws : Z) (data : json)
| SetPrimaryComputeEnv (ws ce : Z).

Inductive response : Type :=
| ROrgs (l : list Org)
| ROrg (o : Org)
| RWorkspaces (l : list Workspace)
| RWorkspace (w : Workspace)
| RMembers (l : list Member)
| RMember (m : Member)
| RParticipants (l : list Participant)
| RParticipant (p : Participant)
| RCredentials (l : list Credential)
| RCredentialsId (id : Z)
| RLabels (l : list Label)
| RLabelId (id : Z)
| RComputeEnvs (l : list ComputeEnv)
| RComputeEnvId (id : Z)
| RMessage (message : string)
| REmpty.

Definition with_orgs s l := mkState l s.(workspaces) s.(members) s.(participants)
  s.(credentials) s.(labels) s.(compute_envs) s.(next_id).
Definition with_workspaces s l := mkState s.(orgs) l s.(members) s.(participants)
  s.(credentials) s.(labels) s.(compute_envs) s.(next_id).
Definition with_members s l := mkState s.(orgs) s.(workspaces) l s.(participants)
  s.(credentials) s.(labels) s.(compute_envs) s.(next_id).
Definition with_participants s l := mkState s.(orgs) s.(workspaces) s.(members) l
  s.(credentials) s.(labels) s.(compute_envs) s.(next_id).
Definition with_credentials s l := mkState s.(orgs) s.(workspaces) s.(members)
  s.(participants) l s.(labels) s.(compute_envs) s.(next_id).
Definition with_labels s l := mkState s.(orgs) s.(workspaces) s.(members)
  s.(participants) s.(credentials) l s.(compute_envs) s.(next_id).
Definition with_compute_envs s l := mkState s.(orgs) s.(workspaces) s.(members)
  s.(participants) s.(credentials) s.(labels) l s.(next_id).
Definition bump s := mkState s.(orgs) s.(workspaces) s.(members)
  s.(participants) s.(credentials) s.(labels) s.(compute_envs) (s.(next_id) + 1).

Definition opt_eqb (a : option Z) (b : Z) : bool :=
  match a with Some x => Z.eqb x b | None => false end.

(** The answer of the service to a request, and its new state.  Creations
    take the next free identifier.  Adding an existing member or
    participant, and deleting a compute environment with active jobs, are
    refused with a message, as the service does. *)
Definition serve (r : request) (s : state) : response * state :=
  let nid := s.(next_id) in
  match r with
  | GetOrgs => (ROrgs s.(orgs), s)
  | PostOrg name full =>
      let o := mkOrg nid name full in
      (ROrg o, bump (with_orgs s (s.(orgs) ++ [o])))
  | GetWorkspaces org =>
      (RWorkspaces (filter (fun w => Z.eqb w.(ws_orgId) org) s.(workspaces)), s)
  | PostWorkspace org name full =>
      let w := mkWorkspace org nid name full in
      (RWorkspace w, bump (with_workspaces s (s.(workspaces) ++ [w])))
  | SearchMembers org q =>
      (RMembers (filter (fun m => Z.eqb m.(mem_orgId) org
                                  && Py.is_substring q m.(mem_email)) s.(members)), s)
  | AddMember org user =>
      if existsb (fun m => Z.eqb m.(mem_orgId) org && String.eqb m.(mem_email) user)
                 s.(members)
      then (RMessage ("User '" ++ user ++ "' is already a member of this organization")%string, s)
      else let m := mkMember org nid user in
           (RMember m, bump (with_members s (s.(members) ++ [m])))
  | GetParticipants _ ws =>
      (RParticipants (filter (fun p => Z.eqb p.(part_wsId) ws) s.(participants)), s)
  | AddParticipant _ ws mid tid =>
      if existsb (fun p => Z.eqb p.(part_wsId) ws
                           && (match mid with Some m => opt_eqb p.(part_memberId) m | None => false end
                               || match tid with Some t => opt_eqb p.(part_teamId) t | None => false end))
                 s.(participants)
      then (RMessage "Participant is already a member of this workspace", s)
      else let p := mkParticipant ws nid mid tid "launch" in
           (RParticipant p, bump (with_participants s (s.(participants) ++ [p])))
  | SetParticipantRole _ ws part role =>
      (REmpty, with_participants s
                 (map (fun p => if Z.eqb p.(part_wsId) ws && Z.eqb p.(part_participantId) part
                                then mkParticipant p.(part_wsId) p.(part_participantId)
                                       p.(part_memberId) p.(part_teamId) role
                                else p) s.(participants)))
  | DeleteParticipant _ ws part =>
      (REmpty, with_participants s
                 (filter (fun p => negb (Z.eqb p.(part_wsId) ws
                                         && Z.eqb p.(part_participantId) part))
                         s.(participants)))
  | GetCredentials ws =>
      (RCredentials (filter (fun c => Z.eqb c.(cred_wsId) ws) s.(credentials)), s)
  | PostCredentials ws data =>
      let body := match jget "credentials" data with Some b => b | None => JNull end in
      let c := mkCredential ws nid (jget_str "name" body) (jget_str "provider" body) None in
      (RCredentialsId nid, bump (with_credentials s (s.(credentials) ++ [c])))
  | GetLabels ws =>
      (RLabels (filter (fun l => Z.eqb l.(lab_wsId) ws) s.(labels)), s)
  | PostLabel ws name value =>
      let l := mkLabel ws nid name value in
      (RLabelId nid, bump (with_labels s (s.(labels) ++ [l])))
  | GetComputeEnvs ws =>
      (RComputeEnvs (filter (fun c => Z.eqb c.(ce_wsId) ws) s.(compute_envs)), s)
  | DeleteComputeEnv ws ce =>
      let is_it c := Z.eqb c.(ce_wsId) ws && Z.eqb c.(ce_id) ce in
      match find is_it s.(compute_envs) with
      | Some c =>
          if c.(ce_active_jobs)
          then (RMessage ("Compute environment '" ++ c.(ce_name) ++ "' has active jobs")%string, s)
          else (REmpty, with_compute_envs s (filter (fun c => negb (is_it c)) s.(compute_envs)))
      | None => (RMessage "Compute environment not found", s)
      end
  | PostComputeEnv ws data =>
      let body := match jget "computeEnv" data with Some b => b | None => JNull end in
      let c := mkComputeEnv ws nid (jget_str "name" body) (jget_str "platform" body)
                 "CREATING" false in
      (RComputeEnvId nid, bump (with_compute_envs s (s.(compute_envs) ++ [c])))
  | SetPrimaryComputeEnv _ _ => (REmpty, s)
  end.

End Remote.

(* ================================================================== *)
(** ** The script's effects: a state and error monad *)

Module Eff.
Import Remote.

(** What the script does besides returning values: requests to Tower with
    their responses, reads from AWS Secrets Manager, and [print]s. *)
Inductive event : Type :=
| EvRequest (req : request) (resp : response)
| EvSecretRead (secret_arn : string)
| EvPrint (msg : string).

(** The Python exceptions the modelled code can raise. *)
Inductive exn : Type :=
| KeyError (key : string)
| AssertionError
| ValueError (msg : string)
| ClientError (msg : string).

Inductive result (A : Type) : Type :=
| Ok (a : A)
| Err (e : exn).
Arguments Ok {A} a.
Arguments Err {A} e.

(** The world: the remote Tower service, the secrets stored in Secrets
    Manager (secret ARN to decrypted key-value mapping), and the trace. *)
Record world := mkWorld {
  remote : Remote.state;
  secrets : list (string * list (string * string));
  log : list event }.

Definition M (A : Type) : Type := world -> result A * world.

Definition ret {A} (a : A) : M A := fun w => (Ok a, w).

Definition raise {A} (e : exn) : M A := fun w => (Err e, w).

Definition bind {A B} (m : M A) (k : A -> M B) : M B :=
  fun w => match m w with
           | (Ok a, w') => k a w'
           | (Err e, w') => (Err e, w')
           end.

Notation "'let*' x ':=' m 'in' k" := (bind m (fun x => k))
  (at level 200, x name, m at level 100, k at level 200, right associativity).

Definition emit (e : event) (w : world) : world :=
  mkWorld w.(remote) w.(secrets) (w.(log) ++ [e]).

(** [self.tower.request(...)] and [self.tower.paged_request(...)]. *)
Definition request (r : request) : M response :=
  fun w => let (resp, s') := serve r w.(remote) in
           (Ok resp, mkWorld s' w.(secrets) (w.(log) ++ [EvRequest r resp])).

(** [AwsClient.get_secret_value]. *)
Definition get_secret_value (secret_arn : string) : M (list (string * string)) :=
  fun w =>
    let w' := emit (EvSecretRead secret_arn) w in
    match find (fun kv => String.eqb (fst kv) secret_arn) w.(secrets) with
    | Some (_, v) => (Ok v, w')
    | None => (Err (ClientError "ResourceNotFoundException"), w')
    end.

Definition print (msg : string) : M unit := fun w => (Ok tt, emit (EvPrint msg) w).

(** [assert cond] *)
Definition assert (b : bool) : M unit :=
  if b then ret tt else raise AssertionError.

(** [d[key]] on a string-valued dict. *)
Definition dget (key : string) (d : list (string * string)) : M string :=
  match find (fun kv => String.eqb (fst kv) key) d with
  | Some (_, v) => ret v
  | None => raise (KeyError key)
  end.

(** [response[key]] when the response has the expected shape. *)
Definition need {A} (key : string) (o : option A) : M A :=
  match o with Some a => ret a | None => raise (KeyError key) end.

(** A [for] loop whose body is run for its effects. *)
Fixpoint forM_ {A} (l : list A) (body : A -> M unit) : M unit :=
  match l with
  | [] => ret tt
  | x :: l' => let* _ := body x in forM_ l' body
  end.

(** A [for] loop collecting one result per element. *)
Fixpoint mapM {A B} (f : A -> M B) (l : list A) : M (list B) :=
  match l with
  | [] => ret []
  | x :: l' => let* y := f x in let* ys := mapM f l' in ret (y :: ys)
  end.

(** A [for] loop threading an accumulator. *)
Fixpoint foldM {A B} (f : B -> A -> M B) (l : list A) (acc : B) : M B :=
  match l with
  | [] => ret acc
  | x :: l' => let* acc' := f acc x in foldM f l' acc'
  end.

End Eff.

(* ================================================================== *)
(** ** [Users] *)

Module Users.

Record t := mkUsers {
  owners : list string;
  admins : list string;
  maintainers : list string;
  launchers : list string;
  viewers : list string }.

(** [Users.list_users]: (email, user group, Tower role), group by group in
    the order of [role_mapping]. *)
Definition list_users (u : t) : list (string * string * string) :=
  map (fun x => (x, "owners", "owner")) u.(owners)
  ++ map (fun x => (x, "admins", "admin")) u.(admins)
  ++ map (fun x => (x, "maintainers", "maintain")) u.(maintainers)
  ++ map (fun x => (x, "launchers", "launch")) u.(launchers)
  ++ map (fun x => (x, "viewers", "view")) u.(viewers).

End Users.

(* ================================================================== *)
(** ** Shapes of the responses the client reads *)

Module Resp.
Import Remote.

Definition organizations r := match r with ROrgs l => Some l | _ => None end.
Definition organization r := match r with ROrg o => Some o | _ => None end.
Definition workspaces r := match r with RWorkspaces l => Some l | _ => None end.
Definition workspace r := match r with RWorkspace w => Some w | _ => None end.
Definition members r := match r with RMembers l => Some l | _ => None end.
Definition member r := match r with RMember m => Some m | _ => None end.
Definition participants r := match r with RParticipants l => Some l | _ => None end.
Definition participant r := match r with RParticipant p => Some p | _ => None end.
Definition credentials r := match r with RCredentials l => Some l | _ => None end.
Definition credentialsId r := match r with RCredentialsId i => Some i | _ => None end.
Definition labels r := match r with RLabels l => Some l | _ => None end.
Definition label_id r := match r with RLabelId i => Some i | _ => None end.
Definition computeEnvs r := match r with RComputeEnvs l => Some l | _ => None end.
Definition computeEnvId r := match r with RComputeEnvId i => Some i | _ => None end.

End Resp.

(* ================================================================== *)
(** ** [TowerOrganization] *)

Module TowerOrganization.
Import Remote Eff.

(** [TowerOrganization.create]: get or create the organization whose full
    name is [full_name]; [name] is [tower.get_valid_name(full_name)]. *)
Definition create (full_name name : string) : M Org :=
  let* response := request GetOrgs in
  let* orgs := need "organizations" (Resp.organizations response) in
  match find (fun o => String.eqb o.(org_fullName) full_name) orgs with
  | Some org => ret org
  | None =>
      let* response := request (PostOrg name full_name) in
      need "organization" (Resp.organization response)
  end.

(** [TowerOrganization.add_member] (the [print] calls are left out). *)
Definition add_member (org_id : Z) (user : string) : M Member :=
  let* response := request (SearchMembers org_id user) in
  let* matches := need "members" (Resp.members response) in
  match matches with
  | [m] =>
      if String.eqb m.(mem_email) user then ret m
      else let* response := request (AddMember org_id user) in
           need "member" (Resp.member response)
  | _ =>
      let* response := request (AddMember org_id user) in
      need "member" (Resp.member response)
  end.

End TowerOrganization.

(* ================================================================== *)
(** ** [TowerWorkspace] *)

Module TowerWorkspace.
Import Remote Eff.

Definition CE_VERSION : string := "v12".
Definition VPC_STACK_OUTPUT_VID : string := "VPCId".
Definition VPC_STACK_OUTPUT_SIDS : list string :=
  ["PrivateSubnet"; "PrivateSubnet1"; "PrivateSubnet2"; "PrivateSubnet3"].

Definition NONGPU_EC2_INSTANCE_TYPES : list string :=
  [ "c6a.large"; "c5a.large"; "c6i.large"; "m5a.large"; "m6a.large";
    "m6i.large"; "r5a.large"; "r6a.large"; "r6i.large";
    "c6a.xlarge"; "c5a.xlarge"; "c6i.xlarge"; "m5a.xlarge"; "m6a.xlarge";
    "m6i.xlarge"; "r5a.xlarge"; "r6a.xlarge"; "r6i.xlarge";
    "c6a.2xlarge"; "c5a.2xlarge"; "c6i.2xlarge"; "m5a.2xlarge"; "m6a.2xlarge";
    "m6i.2xlarge"; "r5a.2xlarge"; "r6a.2xlarge"; "r6i.2xlarge";
    "c6a.4xlarge"; "c5a.4xlarge"; "c6i.4xlarge"; "m5a.4xlarge"; "m6a.4xlarge";
    "m6i.4xlarge"; "r5a.4xlarge"; "r6a.4xlarge"; "r6i.4xlarge";
    "c6a.8xlarge"; "c5a.8xlarge"; "c6i.8xlarge"; "m5a.8xlarge"; "m6a.8xlarge";
    "m6i.8xlarge"; "r5a.8xlarge"; "r6a.8xlarge"; "r6i.8xlarge" ].

Definition nl : string := String (ascii_of_nat 10) EmptyString.

(** [ECS_CONFIG.strip()] *)
Definition ECS_CONFIG_stripped : string :=
  "ECS_CONTAINER_STOP_TIMEOUT=10m" ++ nl
  ++ "ECS_CONTAINER_START_TIMEOUT=10m" ++ nl
  ++ "ECS_CONTAINER_CREATE_TIMEOUT=10m".

(** [str.endswith] *)
Definition ends_with (suffix s : string) : bool :=
  let n := String.length s in
  let m := String.length suffix in
  Nat.leb m n && String.eqb (substring (n - m) m s) suffix.

(** The attributes of a [TowerWorkspace] instance that its methods read:
    [self.org.id], [self.org.members], [self.org.aws.region],
    [self.org.vpc], [self.stack_name], [self.stack], [self.name],
    [self.id], [self.users], [self.teams] and [self.tags].  An absent
    [teams] dict and an empty one behave alike and are both [[]]. *)
Record ctx := mkCtx {
  org_id : Z;
  org_members : list (string * Member);
  region : string;
  vpc : list (string * string);
  stack_name : string;
  stack : list (string * string);
  name : string;
  id : Z;
  users : option Users.t;
  teams : list (Z * string);
  tags : list (string * string) }.

Definition launcher_roles : list string := ["owner"; "admin"; "maintain"; "launch"].

Definition is_launcher_role (role : string) : bool :=
  existsb (String.eqb role) launcher_roles.

(** [TowerWorkspace.has_launchers] *)
Definition has_launchers (c : ctx) : bool :=
  let from_users :=
    match c.(users) with
    | Some u => existsb (fun '(_, _, role) => is_launcher_role role) (Users.list_users u)
    | None => false
    end in
  let from_teams := existsb (fun '(_, role) => is_launcher_role role) c.(teams) in
  from_users || from_teams.

(** [TowerWorkspace.create]: get or create the workspace [name] (the valid
    name of [full_name]) under the organization [org_id]. *)
Definition create (org_id : Z) (name full_name : string) : M Workspace :=
  let* response := request (GetWorkspaces org_id) in
  let* workspaces := need "workspaces" (Resp.workspaces response) in
  match find (fun w => String.eqb w.(ws_name) name) workspaces with
  | Some workspace => ret workspace
  | None =>
      let* response := request (PostWorkspace org_id name full_name) in
      need "workspace" (Resp.workspace response)
  end.

(** [TowerWorkspace.set_participant_role] *)
Definition set_participant_role (c : ctx) (part_id : Z) (role : string) : M unit :=
  let* _ := request (SetParticipantRole c.(org_id) c.(id) part_id role) in ret tt.

(** [TowerWorkspace.add_participant]; [user] and [team_id] are the optional
    arguments, tested for truthiness as Python does. *)
Definition add_participant (c : ctx) (role : string)
    (user : option string) (team_id : option Z) : M Participant :=
  let by_team :=
    match team_id with
    | Some t => if Z.eqb t 0 then None else Some t
    | None => None
    end in
  let* ids :=
    match user with
    | Some u =>
        if negb (String.eqb u "") then
          match find (fun kv => String.eqb (fst kv) u) c.(org_members) with
          | Some (_, m) => ret (m.(mem_memberId), Some m.(mem_memberId), None)
          | None => raise (KeyError u)
          end
        else match by_team with
             | Some t => ret (t, None, Some t)
             | None => raise (ValueError "Must provide value for exactly one of `user` or `team_id`.")
             end
    | None =>
        match by_team with
        | Some t => ret (t, None, Some t)
        | None => raise (ValueError "Must provide value for exactly one of `user` or `team_id`.")
        end
    end in
  let '(identifier, data_memberId, data_teamId) := ids in
  let* response := request (GetParticipants c.(org_id) c.(id)) in
  let* parts := need "participants" (Resp.participants response) in
  let matches := filter (fun p => opt_eqb p.(part_teamId) identifier
                                  || opt_eqb p.(part_memberId) identifier) parts in
  let* participant :=
    match matches with
    | [p] => ret p
    | _ =>
        let* response := request (AddParticipant c.(org_id) c.(id) data_memberId data_teamId) in
        need "participant" (Resp.participant response)
    end in
  let* _ := set_participant_role c participant.(part_participantId) role in
  ret participant.

(** [TowerWorkspace.remove_participant] *)
Definition remove_participant (c : ctx) (part_id : Z) : M response :=
  request (DeleteParticipant c.(org_id) c.(id) part_id).

(** [TowerWorkspace.list_participants] *)
Definition list_participants (c : ctx) : M (list Participant) :=
  let* response := request (GetParticipants c.(org_id) c.(id)) in
  need "participants" (Resp.participants response).

(** [TowerWorkspace.list_owner_participant_ids] *)
Definition list_owner_participant_ids (c : ctx) : M (list Z) :=
  let* parts := list_participants c in
  let owners := filter (fun p => String.eqb p.(part_wspRole) "owner") parts in
  ret (map part_participantId owners).

(** [TowerWorkspace.populate] *)
Definition populate (c : ctx) : M unit :=
  let* _ :=
    match c.(users) with
    | Some u =>
        let* owner_ids := list_owner_participant_ids c in
        let* verified_ids :=
          foldM (fun verified '(user, _, role) =>
                   let* part := add_participant c role (Some user) None in
                   ret (part.(part_participantId) :: verified))
                (Users.list_users u) owner_ids in
        let* parts := list_participants c in
        forM_ parts (fun part =>
          if existsb (Z.eqb part.(part_participantId)) verified_ids then ret tt
          else let* _ := remove_participant c part.(part_participantId) in ret tt)
    | None => ret tt
    end in
  forM_ c.(teams) (fun '(team_id, role) =>
    let* _ := add_participant c role None (Some team_id) in ret tt).

(** [TowerWorkspace.create_credentials] *)
Definition create_credentials (c : ctx) : M Z :=
  let* response := request (GetCredentials c.(id)) in
  let* creds := need "credentials" (Resp.credentials response) in
  match find (fun cred => String.eqb cred.(cred_name) c.(stack_name)) creds with
  | Some cred =>
      let* _ := assert (String.eqb cred.(cred_provider) "aws") in
      let* _ := assert (match cred.(cred_deleted) with None => true | Some _ => false end) in
      ret cred.(cred_id)
  | None =>
      let* secret_arn := dget "TowerForgeServiceUserAccessKeySecretArn" c.(stack) in
      let* credentials := get_secret_value secret_arn in
      let* accessKey := dget "aws_access_key_id" credentials in
      let* secretKey := dget "aws_secret_access_key" credentials in
      let* assumeRoleArn := dget "TowerForgeServiceRoleArn" c.(stack) in
      let data :=
        JObj [("credentials",
               JObj [("name", JStr c.(stack_name));
                     ("provider", JStr "aws");
                     ("keys", JObj [("accessKey", JStr accessKey);
                                    ("secretKey", JStr secretKey);
                                    ("assumeRoleArn", JStr assumeRoleArn)]);
                     ("description", JStr ("Credentials for " ++ c.(stack_name))%string)])] in
      let* response := request (PostCredentials c.(id) data) in
      need "credentialsId" (Resp.credentialsId response)
  end.

(** [TowerWorkspace.get_resource_label] (every element of the typed label
    listing is a dict, so its [isinstance] check never fires). *)
Definition get_resource_label (c : ctx) (lname value : string) : M (option Z) :=
  let* response := request (GetLabels c.(id)) in
  let* labels := need "labels" (Resp.labels response) in
  let matches := filter (fun l => String.eqb l.(lab_name) lname) labels in
  let matches := filter (fun l => String.eqb l.(lab_value) value) matches in
  match matches with
  | [l] => ret (Some l.(lab_id))
  | _ => ret None
  end.

(** [TowerWorkspace.create_resource_label] *)
Definition create_resource_label (c : ctx) (lname value : string) : M Z :=
  let* label_id := get_resource_label c lname value in
  match label_id with
  | Some i => ret i
  | None =>
      let* response := request (PostLabel c.(id) lname value) in
      need "id" (Resp.label_id response)
  end.

Definition skip_message (c : ctx) (comp_env_name : string) : string :=
  "Skipping the deletion of the '" ++ c.(name) ++ "/" ++ comp_env_name ++ "' "
  ++ "compute environment due to active jobs...".

(** [TowerWorkspace.cleanup_compute_environments] *)
Definition cleanup_compute_environments (c : ctx) : M unit :=
  let* response := request (GetComputeEnvs c.(id)) in
  let* comp_envs := need "computeEnvs" (Resp.computeEnvs response) in
  forM_ comp_envs (fun comp_env =>
    if ends_with CE_VERSION comp_env.(ce_name) && has_launchers c then ret tt
    else
      let* response := request (DeleteComputeEnv c.(id) comp_env.(ce_id)) in
      match response with
      | RMessage message =>
          if Py.is_substring "has active jobs" message
          then print (skip_message c comp_env.(ce_name))
          else ret tt
      | _ => ret tt
      end).

(** [TowerWorkspace.generate_compute_environment]; the subscripts of the
    request body are evaluated in the order Python evaluates the literal. *)
Definition generate_compute_environment (c : ctx) (ce_name model : string) : M json :=
  let* _ := assert (String.eqb model "SPOT" || String.eqb model "EC2") in
  let* credentials_id := create_credentials c in
  let* label_ids := mapM (fun kv => create_resource_label c (fst kv) (snd kv)) c.(tags) in
  let alloc_strategy :=
    if String.eqb model "SPOT" then "SPOT_CAPACITY_OPTIMIZED" else "BEST_FIT" in
  let instance_types := NONGPU_EC2_INSTANCE_TYPES in
  let* computeJobRole := dget "TowerForgeBatchWorkJobRoleArn" c.(stack) in
  let* executionRole := dget "TowerForgeBatchExecutionRoleArn" c.(stack) in
  let* headJobRole := dget "TowerForgeBatchHeadJobRoleArn" c.(stack) in
  let* scratch := dget "TowerScratch" c.(stack) in
  let* subnets := mapM (fun o => dget o c.(vpc)) VPC_STACK_OUTPUT_SIDS in
  let* vpcId := dget VPC_STACK_OUTPUT_VID c.(vpc) in
  let labels := JArr (map JNum label_ids) in
  ret (JObj
    [("labelIds", labels);
     ("computeEnv", JObj
       [("name", JStr ce_name);
        ("platform", JStr "aws-batch");
        ("credentialsId", JNum credentials_id);
        ("config", JObj
          [("cliPath", JStr "/home/ec2-user/miniconda/bin/aws");
           ("computeJobRole", JStr computeJobRole);
           ("configMode", JStr "Batch Forge");
           ("credentials", JNull);
           ("environment", JNull);
           ("executionRole", JStr executionRole);
           ("fusion2Enabled", JBool false);
           ("headJobCpus", JNum 8);
           ("headJobMemoryMb", JNum 15000);
           ("headJobRole", JStr headJobRole);
           ("logGroup", JNull);
           ("nvnmeStorageEnabled", JBool false);
           ("postRunScript", JNull);
           ("preRunScript", JStr "NXF_OPTS='-Xms7g -Xmx14g'");
           ("region", JStr c.(region));
           ("resourceLabelIds", labels);
           ("waveEnabled", JBool true);
           ("workDir", JStr ("s3://" ++ scratch ++ "/work")%string);
           ("forge", JObj
             [("allocStrategy", JStr alloc_strategy);
              ("allowBuckets", JArr []);
              ("containerRegIds", JNull);
              ("disposeOnDeletion", JBool true);
              ("dragenEnabled", JNull);
              ("ebsAutoScale", JBool true);
              ("ebsBlockSize", JNum 1000);
              ("ebsBootSize", JNum 1000);
              ("ec2KeyPair", JNull);
              ("ecsConfig", JStr ECS_CONFIG_stripped);
              ("efsCreate", JBool false);
              ("gpuEnabled", JBool false);
              ("imageId", JNull);
              ("instanceTypes", JArr (map JStr instance_types));
              ("maxCpus", JNum 1000);
              ("minCpus", JNum 0);
              ("securityGroups", JArr []);
              ("subnets", JArr (map JStr subnets));
              ("type", JStr model);
              ("vpcId", JStr vpcId)])])])]).

(** [TowerWorkspace.set_primary_compute_environment] *)
Definition set_primary_compute_environment (c : ctx) (compute_env_id : Z) : M unit :=
  let* _ := request (SetPrimaryComputeEnv c.(id) compute_env_id) in ret tt.

(** [TowerWorkspace.create_compute_environment]: the identifiers of the
    SPOT and the on-demand (EC2) environments. *)
Definition create_compute_environment (c : ctx) : M (option Z * option Z) :=
  let comp_env_spot := (c.(stack_name) ++ "-spot-" ++ CE_VERSION)%string in
  let comp_env_ec2 := (c.(stack_name) ++ "-ondemand-" ++ CE_VERSION)%string in
  let* response := request (GetComputeEnvs c.(id)) in
  let* comp_envs := need "computeEnvs" (Resp.computeEnvs response) in
  let ids :=
    fold_left (fun ids comp_env =>
      if String.eqb comp_env.(ce_platform) "aws-batch"
         && (String.eqb comp_env.(ce_status) "AVAILABLE"
             || String.eqb comp_env.(ce_status) "CREATING")
      then if String.eqb comp_env.(ce_name) comp_env_spot then (Some comp_env.(ce_id), snd ids)
           else if String.eqb comp_env.(ce_name) comp_env_ec2 then (fst ids, Some comp_env.(ce_id))
           else ids
      else ids) comp_envs (None, None) in
  let* spot :=
    match fst ids with
    | Some i => ret (Some i)
    | None =>
        let* data := generate_compute_environment c comp_env_spot "SPOT" in
        let* response := request (PostComputeEnv c.(id) data) in
        let* ce := need "computeEnvId" (Resp.computeEnvId response) in
        let* _ := set_primary_compute_environment c ce in
        ret (Some ce)
    end in
  let* ec2 :=
    match snd ids with
    | Some i => ret (Some i)
    | None =>
        let* data := generate_compute_environment c comp_env_ec2 "EC2" in
        let* response := request (PostComputeEnv c.(id) data) in
        let* ce := need "computeEnvId" (Resp.computeEnvId response) in
        ret (Some ce)
    end in
  ret (spot, ec2).

(** [TowerWorkspace.__init__] after the stack outputs have been read and
    the valid name computed: create the workspace, then populate it, clean
    up its compute environments and create the missing ones. *)
Definition init (c0 : ctx) : M ctx :=
  let* ws := create c0.(org_id) c0.(name) c0.(stack_name) in
  let c := mkCtx c0.(org_id) c0.(org_members) c0.(region) c0.(vpc) c0.(stack_name)
             c0.(stack) c0.(name) ws.(ws_id) c0.(users) c0.(teams) c0.(tags) in
  let* _ := populate c in
  let* _ := cleanup_compute_environments c in
  let* _ := if has_launchers c then let* _ := create_compute_environment c in ret tt
            else ret tt in
  ret c.

End TowerWorkspace.

(* ================================================================== *)
(** ** Definitions following the specification's words

    These definitions state what the specification describes, to be
    compared with the embedding of the code above. *)

Module TagSpec.

(** [[A-Za-z0-9_-]], the character set the specification allows. *)
Definition allowed (c : ascii) : bool :=
  Py.in_range "A" "Z" c || Py.in_range "a" "z" c || Py.in_range "0" "9" c
  || Ascii.eqb c "_" || Ascii.eqb c "-".

(** Every maximal run of characters outside [[A-Za-z0-9_-]] becomes one [_]. *)
Fixpoint sanitize_aux (in_run : bool) (s : string) : string :=
  match s with
  | EmptyString => EmptyString
  | String c s' =>
      if allowed c then String c (sanitize_aux false s')
      else if in_run then sanitize_aux true s'
      else String "_" (sanitize_aux true s')
  end.

Definition sanitize (s : string) : string := sanitize_aux false s.

(** The characters of the range [A-z] that are neither letters nor [_]. *)
Definition is_gap (c : ascii) : bool :=
  existsb (Ascii.eqb c) ["["; "\"; "]"; "^"; "`"]%char.

Fixpoint string_forall (p : ascii -> bool) (s : string) : bool :=
  match s with
  | EmptyString => true
  | String c s' => p c && string_forall p s'
  end.

Definition no_gap (s : string) : bool := string_forall (fun c => negb (is_gap c)) s.

(** The descriptor's tags with [TowerProject] set to the stack name and the
    [CostCenter] value cut to its last path segment (stripped). *)
Definition augmented (stack_name : string) (tags : Tags.dict) : Tags.dict :=
  let d := Tags.dict_set "TowerProject" stack_name tags in
  match Tags.dict_get "CostCenter" d with
  | Some cc => Tags.dict_set "CostCenter" (Py.strip (Py.rpartition_tail "/" cc)) d
  | None => d
  end.

(** The derived tag map as the amended claim describes it. *)
Definition derived (stack_name : string) (tags : Tags.dict) : Tags.dict :=
  map (fun kv => (sanitize (fst kv), sanitize (snd kv))) (augmented stack_name tags).

(** One round of the sanitizing loop of [extract_tags], and the pair it
    appends. *)
Definition step (d : Tags.dict) (key : string) : Tags.dict :=
  match Tags.dict_pop key d with
  | Some (val, d') => Tags.dict_set (Tags.invalid_chars_sub key) (Tags.invalid_chars_sub val) d'
  | None => d
  end.

Definition sanit (kv : string * string) : string * string :=
  (Tags.invalid_chars_sub (fst kv), Tags.invalid_chars_sub (snd kv)).

(** Keys and values free of the characters the code and the
    specification treat differently. *)
Definition dict_ok (d : Tags.dict) : bool :=
  forallb (fun kv => no_gap (fst kv) && no_gap (snd kv)) d.

End TagSpec.

Module CredSpec.
Import Remote Eff TowerWorkspace.

(** The credential [create_credentials] looks at: the first credential of
    the workspace named after the stack, in the listing order. *)
Definition ws_credentials (c : ctx) (s : Remote.state) : list Credential :=
  filter (fun cr => Z.eqb cr.(cred_wsId) c.(id)) s.(credentials).

Definition found_credential (c : ctx) (s : Remote.state) : option Credential :=
  find (fun cred => String.eqb cred.(cred_name) c.(stack_name)) (ws_credentials c s).

End CredSpec.

Module GenSpec.
Import Remote Eff TowerWorkspace.

(** A computation that neither reads nor changes the world. *)
Definition stateless {A} (m : M A) : Prop := exists r, forall w, m w = (r, w).

(** The two get-or-create steps of [generate_compute_environment]: the
    credentials identifier and the resource-label identifiers. *)
Definition cred_and_labels (c : ctx) : M (Z * list Z) :=
  let* credentials_id := create_credentials c in
  let* label_ids := mapM (fun kv => create_resource_label c (fst kv) (snd kv)) c.(tags) in
  ret (credentials_id, label_ids).

End GenSpec.

Module CleanupSpec.
Import Remote Eff TowerWorkspace.

Definition launch_roles : list string := ["owner"; "admin"; "maintain"; "launch"].

(** The workspace has a launch-capable participant among the configured
    users (or teams): one whose role is owner, admin, maintain or launch. *)
Definition launch_capable (c : ctx) : Prop :=
  (exists u email group role, c.(users) = Some u /\
     In (email, group, role) (Users.list_users u) /\ In role launch_roles)
  \/ (exists team role, In (team, role) c.(teams) /\ In role launch_roles).

(** The name carries the current policy version tag as its suffix. *)
Definition carries_version (ce_name : string) : Prop :=
  exists p, ce_name = (p ++ CE_VERSION)%string.

(** The delete response reports that the environment has active jobs. *)
Definition reports_active_jobs (resp : response) : Prop :=
  exists m x y, resp = RMessage m /\ m = (x ++ "has active jobs" ++ y)%string.

Definition to_delete (c : ctx) (ce : ComputeEnv) : Prop :=
  ~ carries_version ce.(ce_name) \/ ~ launch_capable c.

(** The events of a cleanup over the listed environments [ces]: each
    environment, in order, is either kept (it carries the version tag and
    the workspace is launch-capable), or receives exactly one delete
    request, followed by a report when the response mentions active
    jobs. *)
Inductive cleanup_trace (c : ctx) : list ComputeEnv -> list event -> Prop :=
| ct_nil : cleanup_trace c [] []
| ct_keep ce ces L :
    carries_version ce.(ce_name) -> launch_capable c ->
    cleanup_trace c ces L -> cleanup_trace c (ce :: ces) L
| ct_deleted ce ces resp L :
    to_delete c ce -> ~ reports_active_jobs resp ->
    cleanup_trace c ces L ->
    cleanup_trace c (ce :: ces) (EvRequest (DeleteComputeEnv c.(id) ce.(ce_id)) resp :: L)
| ct_skipped ce ces resp L :
    to_delete c ce -> reports_active_jobs resp ->
    cleanup_trace c ces L ->
    cleanup_trace c (ce :: ces)
      (EvRequest (DeleteComputeEnv c.(id) ce.(ce_id)) resp
       :: EvPrint (skip_message c ce.(ce_name)) :: L).

(** The events of one round of the cleanup loop. *)
Definition cleanup_round (c : ctx) (ce : ComputeEnv) (E : list event) : Prop :=
  (carries_version ce.(ce_name) /\ launch_capable c /\ E = [])
  \/ (to_delete c ce /\ exists resp, ~ reports_active_jobs resp /\
                         E = [EvRequest (DeleteComputeEnv c.(id) ce.(ce_id)) resp])
  \/ (to_delete c ce /\ exists resp, reports_active_jobs resp /\
                         E = [EvRequest (DeleteComputeEnv c.(id) ce.(ce_id)) resp;
                              EvPrint (skip_message c ce.(ce_name))]).

End CleanupSpec.

Module OrderSpec.
Import Remote Eff TowerWorkspace.

(** [data["computeEnv"]["credentialsId"]] of a compute environment
    creation body. *)
Definition ce_credentials_id (d : json) : option Z :=
  match jget "computeEnv" d with
  | Some ce => match jget "credentialsId" ce with Some (JNum z) => Some z | _ => None end
  | None => None
  end.

(** [data["credentials"]["name"]] of a credential creation body. *)
Definition cred_name_in (d : json) : string :=
  match jget "credentials" d with Some b => jget_str "name" b | None => "" end.

(** The credential named [n] that an event shows to exist, with its
    workspace: one listed by a credential listing of the workspace, or one
    just created in it. *)
Definition cred_of_event (n : string) (e : event) : option (Z * Z) :=
  match e with
  | EvRequest (GetCredentials x) (RCredentials l) =>
      match find (fun cr => String.eqb cr.(cred_name) n) l with
      | Some cr => Some (x, cr.(cred_id))
      | None => None
      end
  | EvRequest (PostCredentials x d) (RCredentialsId cid) =>
      if String.eqb (cred_name_in d) n then Some (x, cid) else None
  | _ => None
  end.

Definition posts_compute_env (r : Remote.request) : bool :=
  match r with PostComputeEnv _ _ => true | _ => false end.

Definition pair_eqb (p q : Z * Z) : bool := Z.eqb (fst p) (fst q) && Z.eqb (snd p) (snd q).

Definition add_seen (n : string) (e : event) (seen : list (Z * Z)) : list (Z * Z) :=
  match cred_of_event n e with Some p => p :: seen | None => seen end.

(** A compute environment creation for workspace [x] is acceptable when a
    credential of [x] has been seen and its identifier is the one in the
    body. *)
Definition ce_ok (seen : list (Z * Z)) (e : event) : bool :=
  match e with
  | EvRequest (PostComputeEnv x d) _ =>
      match ce_credentials_id d with
      | Some cid => existsb (pair_eqb (x, cid)) seen
      | None => false
      end
  | _ => true
  end.

(** Every compute environment creation of the trace comes after a
    credential named [n] of the same workspace, whose identifier it
    carries. *)
Fixpoint justified (n : string) (seen : list (Z * Z)) (L : list event) : bool :=
  match L with
  | [] => true
  | e :: L' => ce_ok seen e && justified n (add_seen n e seen) L'
  end.

Fixpoint seen_after (n : string) (seen : list (Z * Z)) (L : list event) : list (Z * Z) :=
  match L with
  | [] => seen
  | e :: L' => seen_after n (add_seen n e seen) L'
  end.

(** A computation whose appended events are justified from any set of
    seen credentials. *)
Definition just_m (n : string) {A} (m : M A) : Prop :=
  forall w, exists E, (snd (m w)).(log) = w.(log) ++ E /\
                      forall seen, justified n seen E = true.

(** Every value the computation returns satisfies [P]. *)
Definition returns_only {A} (P : A -> Prop) (m : M A) : Prop :=
  forall w a, fst (m w) = Ok a -> P a.

End OrderSpec.

Module PartSpec.
Import Remote Eff TowerWorkspace.

(** [self.org.members[user]["memberId"]] *)
Definition mid_of (c : ctx) (e : string) : option Z :=
  match find (fun kv => String.eqb (fst kv) e) c.(org_members) with
  | Some (_, m) => Some m.(mem_memberId)
  | None => None
  end.

(** The participants of the workspace. *)
Definition ws_participants (c : ctx) (s : Remote.state) : list Participant :=
  filter (fun p => Z.eqb p.(part_wsId) c.(id)) s.(participants).

Definition user_emails (u : Users.t) : list string :=
  map (fun '(e, _, _) => e) (Users.list_users u).

(** The role of the last bucket, in the order owners, admins, maintainers,
    launchers, viewers, that lists [e]. *)
Definition last_bucket_role (u : Users.t) (e : string) : option string :=
  if existsb (String.eqb e) u.(Users.viewers) then Some "view"
  else if existsb (String.eqb e) u.(Users.launchers) then Some "launch"
  else if existsb (String.eqb e) u.(Users.maintainers) then Some "maintain"
  else if existsb (String.eqb e) u.(Users.admins) then Some "admin"
  else if existsb (String.eqb e) u.(Users.owners) then Some "owner"
  else None.

(** A participant that stands for one of the configured users. *)
Definition desired (c : ctx) (u : Users.t) (p : Participant) : Prop :=
  exists e, In e (user_emails u) /\ p.(part_memberId) = mid_of c e.

Definition opt_eqb2 (a b : option Z) : bool :=
  match a, b with
  | Some x, Some y => Z.eqb x y
  | None, None => true
  | _, _ => false
  end.

Fixpoint nodupb (l : list Z) : bool :=
  match l with
  | [] => true
  | x :: l' => negb (existsb (Z.eqb x) l') && nodupb l'
  end.

(** The conditions under which the reconciliation is studied: the
    workspace is configured with users and no teams (as [main] does); every
    user is a non-empty email of a distinct member of the organization;
    the participant identifiers of the workspace are distinct and below
    the next identifier the service hands out; no team participant has a
    configured user's member identifier; and each configured user has at
    most one participant. *)
Definition populate_ok (c : ctx) (s : Remote.state) : bool :=
  match c.(users) with
  | None => false
  | Some u =>
      let es := user_emails u in
      let V0 := ws_participants c s in
      match c.(teams) with [] => true | _ => false end
      && forallb (fun e => negb (String.eqb e "")
                           && match mid_of c e with Some _ => true | None => false end) es
      && forallb (fun e1 => forallb (fun e2 => implb (opt_eqb2 (mid_of c e1) (mid_of c e2))
                                                     (String.eqb e1 e2)) es) es
      && nodupb (map part_participantId V0)
      && forallb (fun p => Z.ltb p.(part_participantId) s.(next_id)) V0
      && forallb (fun p => forallb (fun e => negb (opt_eqb2 p.(part_teamId) (mid_of c e))) es) V0
      && forallb (fun e => match mid_of c e with
                           | Some m => Nat.leb (length (filter (fun p => opt_eqb p.(part_memberId) m) V0)) 1
                           | None => false
                           end) es
  end.

(** The role the loop of [populate] last gives to [e]. *)
Definition last_role (e : string) (D : list (string * string * string)) : option string :=
  fold_left (fun acc '(e', _, r) => if String.eqb e' e then Some r else acc) D None.

(** The participants after [set_participant_role] of participant [i]. *)
Definition set_role (i : Z) (r : string) (V : list Participant) : list Participant :=
  map (fun p => if Z.eqb p.(part_participantId) i
                then mkParticipant p.(part_wsId) p.(part_participantId)
                       p.(part_memberId) p.(part_teamId) r
                else p) V.

(** The member identifiers of the users the loop of [populate] has
    processed. *)
Definition processed (c : ctx) (D1 : list (string * string * string)) (om : option Z) : Prop :=
  exists e g r, In (e, g, r) D1 /\ om = mid_of c e.

(** What holds of the workspace after the loop of [populate] has processed
    the users [D1], starting from the participants [V0]; [vs] is the list of
    verified participant identifiers. *)
Record loop_inv (c : ctx) (es : list string) (V0 : list Participant)
    (D1 : list (string * string * string)) (s : Remote.state) (vs : list Z) : Prop := {
  inv_nodup : NoDup (map part_participantId (ws_participants c s));
  inv_lt : forall p, In p (ws_participants c s) -> (part_participantId p < next_id s)%Z;
  inv_team : forall p e m, In p (ws_participants c s) -> In e es -> mid_of c e = Some m ->
             part_teamId p <> Some m;
  inv_one : forall e m, In e es -> mid_of c e = Some m ->
            length (filter (fun p => opt_eqb p.(part_memberId) m) (ws_participants c s)) <= 1;
  inv_role : forall e r, last_role e D1 = Some r ->
             exists p, In p (ws_participants c s) /\ part_memberId p = mid_of c e /\
                       part_wspRole p = r /\ In (part_participantId p) vs;
  inv_old : forall p, In p (ws_participants c s) -> ~ processed c D1 (part_memberId p) -> In p V0;
  inv_vs : forall i, In i vs ->
           (exists o, In o V0 /\ part_wspRole o = "owner" /\ part_participantId o = i) \/
           (exists p, In p (ws_participants c s) /\ processed c D1 (part_memberId p) /\
                      part_participantId p = i);
  inv_keep : forall o, In o V0 ->
             exists p, In p (ws_participants c s) /\ part_participantId p = part_participantId o /\
                       part_memberId p = part_memberId o /\
                       (~ processed c D1 (part_memberId o) -> p = o);
  inv_owner : forall o, In o V0 -> part_wspRole o = "owner" -> In (part_participantId o) vs }.

End PartSpec.

(** Concrete inputs used by the examples. *)
Module Fixtures.
Import Remote Eff TowerWorkspace.

Definition w_member0 : world :=
  mkWorld (mkState [mkOrg 1 "Sage-Bionetworks" "Sage Bionetworks"] []
                   [mkMember 1 5 "xa@b.org"] [] [] [] [] 100) [] [].

Definition ctx_cred : ctx :=
  mkCtx 1 [] "us-east-1" [] "foo-project" [] "foo-project" 7 None [] [].

Definition world_cred : world :=
  mkWorld (mkState [] [] [] [] [mkCredential 7 3 "foo-project" "aws" None] [] [] 10)
          [("arn:secret", [("aws_access_key_id", "AK"); ("aws_secret_access_key", "SK")])] [].

Definition ctx_gen : ctx :=
  mkCtx 1 [] "us-east-1"
    [("VPCId", "vpc-1"); ("PrivateSubnet", "s0"); ("PrivateSubnet1", "s1");
     ("PrivateSubnet2", "s2"); ("PrivateSubnet3", "s3")]
    "foo-project"
    [("TowerForgeServiceUserAccessKeySecretArn", "arn:secret");
     ("TowerForgeServiceRoleArn", "arn:role");
     ("TowerForgeBatchWorkJobRoleArn", "arn:work");
     ("TowerForgeBatchExecutionRoleArn", "arn:exec");
     ("TowerForgeBatchHeadJobRoleArn", "arn:head");
     ("TowerScratch", "foo-project-scratch")]
    "foo-project" 7 None [] [("CostCenter", "program-42")].

Definition world_gen : world :=
  mkWorld (mkState [] [] [] [] [] [] [] 10)
          [("arn:secret", [("aws_access_key_id", "AK"); ("aws_secret_access_key", "SK")])] [].

Definition ctx_init : ctx :=
  mkCtx 1 [("a@b.org", mkMember 1 5 "a@b.org")] "us-east-1"
    ctx_gen.(vpc) "foo-project" ctx_gen.(stack) "foo-project" 0
    (Some (Users.mkUsers ["a@b.org"] [] [] [] [])) [] [("CostCenter", "program-42")].

(** The members A, B, C and D of organization 1, with member ids 1 to 4. *)
Definition members_pop : list (string * Member) :=
  [("a@x.org", mkMember 1 1 "a@x.org"); ("b@x.org", mkMember 1 2 "b@x.org");
   ("c@x.org", mkMember 1 3 "c@x.org"); ("d@x.org", mkMember 1 4 "d@x.org")].

(** Desired: A maintains, D views. *)
Definition users_pop : Users.t := Users.mkUsers [] [] ["a@x.org"] [] ["d@x.org"].

Definition ctx_pop : ctx :=
  mkCtx 1 members_pop "us-east-1" [] "foo-project" [] "foo-project" 7 (Some users_pop) [] [].

(** Workspace 7 has A as viewer, B as maintainer and C as owner. *)
Definition world_pop : world :=
  mkWorld (mkState [] [] []
             [mkParticipant 7 11 (Some 1%Z) None "view";
              mkParticipant 7 12 (Some 2%Z) None "maintain";
              mkParticipant 7 13 (Some 3%Z) None "owner"] [] [] [] 20) [] [].

(** A is listed both as maintainer and as viewer. *)
Definition users_dup : Users.t := Users.mkUsers [] [] ["a@x.org"] [] ["a@x.org"].

Definition ctx_dup : ctx :=
  mkCtx 1 members_pop "us-east-1" [] "foo-project" [] "foo-project" 7 (Some users_dup) [] [].

Definition world_dup : world :=
  mkWorld (mkState [] [] [] [mkParticipant 7 11 (Some 1%Z) None "launch"] [] [] [] 20) [] [].

End Fixtures.

(* ================================================================== *)
(** ** [Users.list_teams] *)

Module UsersTeams.
Import Users.

(** [teams[key].append(user)] on a [defaultdict(list)]: a missing key is
    added at the end with an empty list, and keys keep their insertion
    order. *)
Fixpoint dd_append (key : string * string) (user : string)
    (teams : list ((string * string) * list string)) : list ((string * string) * list string) :=
  match teams with
  | [] => [(key, [user])]
  | (k', l) :: teams' =>
      if String.eqb (fst key) (fst k') && String.eqb (snd key) (snd k')
      then (k', l ++ [user]) :: teams'
      else (k', l) :: dd_append key user teams'
  end.

(** [Users.list_teams]: the users grouped by (user group, role), with the
    groups in the order of [teams.items()]. *)
Definition list_teams (u : t) : list (list string * string * string) :=
  let teams :=
    fold_left (fun teams '(user, user_group, role) => dd_append (user_group, role) user teams)
              (list_users u) [] in
  map (fun '((ugrp, role), users) => (users, ugrp, role)) teams.

End UsersTeams.

(* ================================================================== *)
(** ** [AwsClient.get_cfn_stack_outputs] *)

Module AwsClient.

(** The body of [get_cfn_stack_outputs] after [describe_stacks]:
    [outputs_raw] is the stack's [Outputs] list, one (OutputKey,
    OutputValue) pair per element; the dict comprehension keeps the last
    value of a repeated key at the place of its first occurrence. *)
Definition get_cfn_stack_outputs (stack_name : string)
    (outputs_raw : list (string * string)) : Tags.dict :=
  let outputs := fold_left (fun d '(k, v) => Tags.dict_set k v d) outputs_raw [] in
  Tags.dict_set "stack_name" stack_name outputs.

End AwsClient.

(* ================================================================== *)
(** ** [extract_emails_from_arns] of [bin/configure-tower-project.py] *)

(** The older, single-project script extracts emails with the regular
    expression
    [arn:aws:sts::(?P<account_id>[0-9]+):assumed-role/(?P<role_name>[^/]+)/(?P<session_name>...)]
    with the same [session_name] group as [Projects.extract_emails]. *)
Module OldScript.
Import Arn.

Fixpoint strip_prefix (p s : list ascii) : option (list ascii) :=
  match p, s with
  | [], _ => Some s
  | c :: p', d :: s' => if Ascii.eqb c d then strip_prefix p' s' else None
  | _ :: _, [] => None
  end.

(** The ways of splitting a string in two, the shortest prefix first. *)
Fixpoint splits (s : list ascii) : list (list ascii * list ascii) :=
  ([], s) :: match s with
             | [] => []
             | c :: s' => map (fun lr => (c :: fst lr, snd lr)) (splits s')
             end.

Fixpoint first_some {A} (l : list (option A)) : option A :=
  match l with
  | [] => None
  | Some a :: _ => Some a
  | None :: l' => first_some l'
  end.

(** A greedy [X+] followed by the rest of the pattern: the longest prefix
    is tried first. *)
Definition greedy_split {A} (p : list ascii -> list ascii -> option A) (s : list ascii) : option A :=
  first_some (map (fun lr => p (fst lr) (snd lr)) (rev (splits s))).

(** [[0-9]] *)
Definition is_digit (c : ascii) : bool := Py.in_range "0" "9" c.

(** [[^/]] *)
Definition not_slash (c : ascii) : bool := negb (Ascii.eqb c "/").

(** [role_arn_regex.fullmatch(arn)] and its group [session_name]. *)
Definition role_arn_session (arn : string) : option string :=
  match strip_prefix (list_ascii_of_string "arn:aws:sts::") (list_ascii_of_string arn) with
  | None => None
  | Some r1 =>
      greedy_split (fun account_id r2 =>
        if plus is_digit account_id then
          match strip_prefix (list_ascii_of_string ":assumed-role/") r2 with
          | Some r3 =>
              greedy_split (fun role_name r4 =>
                if plus not_slash role_name then
                  match r4 with
                  | c :: s =>
                      if Ascii.eqb c "/" && session_match s
                      then Some (string_of_list_ascii s) else None
                  | [] => None
                  end
                else None) r3
          | None => None
          end
        else None) r1
  end.

(** [extract_emails_from_arns]: one email per matching ARN, duplicates
    kept; the ARNs that do not match are skipped silently. *)
Fixpoint extract_emails_from_arns (arns : list string) : list string :=
  match arns with
  | [] => []
  | arn :: arns' =>
      match role_arn_session arn with
      | Some email => email :: extract_emails_from_arns arns'
      | None => extract_emails_from_arns arns'
      end
  end.

End OldScript.

(* ================================================================== *)
(** ** [Projects.validate_config] *)

(** The configuration is the YAML document as loaded, a JSON-like value.
    Python's [in] and [[]] are written out on each kind of value: [in]
    tests the keys of a dict, the elements of a list and the substrings of
    a string, and raises [TypeError] on the other values; [[key]] looks the
    key up in a dict ([KeyError] when it is missing) and raises [TypeError]
    on the other values. *)
Module Projects.
Import Remote.

Inductive error : Type :=
| InvalidTowerProject (msg : string)
| KeyError (key : string)
| TypeError.

Definition outcome (A : Type) : Type := (error + A)%type.

Definition bindv {A B} (m : outcome A) (k : A -> outcome B) : outcome B :=
  match m with inl e => inl e | inr a => k a end.

(** [key in value] *)
Definition py_in (key : string) (j : json) : outcome bool :=
  match j with
  | JObj fields => inr (existsb (fun kv => String.eqb (fst kv) key) fields)
  | JArr l => inr (existsb (fun x => match x with JStr s => String.eqb s key | _ => false end) l)
  | JStr s => inr (Py.is_substring key s)
  | _ => inl TypeError
  end.

(** [value[key]] *)
Definition py_getitem (key : string) (j : json) : outcome json :=
  match j with
  | JObj _ => match jget key j with Some v => inr v | None => inl (KeyError key) end
  | _ => inl TypeError
  end.

(** [value == s] for a string [s]. *)
Definition py_eq_str (j : json) (s : string) : bool :=
  match j with JStr s' => String.eqb s' s | _ => false end.

Section Validate.

(** [str(value)] for the values that are not strings (Python's dict, list
    and number formatting), used by the f-strings. *)
Variable py_str : json -> string.

Definition fmt (j : json) : string :=
  match j with JStr s => s | _ => py_str j end.

(** [Projects.validate_config]; [inr tt] is a normal return. The [and]
    and [or] chains are evaluated left to right and stop at the first
    operand that decides them. *)
Definition validate_config (config : json) : outcome unit :=
  bindv (py_in "stack_name" config) (fun has_stack_name =>
  bindv (if has_stack_name then
           bindv (py_in "template" config) (fun has_template =>
           if has_template then
             bindv (py_getitem "template" config) (fun template =>
             bindv (py_getitem "path" template) (fun path =>
             if py_eq_str path "tower-project.j2" then
               bindv (py_in "parameters" config) (fun has_parameters =>
               if has_parameters then
                 bindv (py_getitem "parameters" config) (fun parameters =>
                 bindv (py_in "S3ReadWriteAccessArns" parameters) (fun has_rw =>
                 if has_rw then inr true
                 else bindv (py_getitem "parameters" config) (fun parameters =>
                      py_in "S3ReadOnlyAccessArns" parameters)))
               else inr false)
             else inr false))
           else inr false)
         else inr false) (fun is_valid =>
  if is_valid then inr tt
  else if has_stack_name then
         bindv (py_getitem "stack_name" config) (fun stack_name =>
           inl (InvalidTowerProject (fmt stack_name ++ ".yaml is invalid")))
       else inl (InvalidTowerProject ("This config is invalid:" ++ TowerWorkspace.nl
                                      ++ fmt config)))).

End Validate.

End Projects.

(* ================================================================== *)
(** ** [TowerOrganization.populate] *)

Module OrgPopulate.
Import Remote Eff.

(** [d[k] = v] on a dict with string keys. *)
Fixpoint assoc_set {V} (k : string) (v : V) (d : list (string * V)) : list (string * V) :=
  match d with
  | [] => [(k, v)]
  | (k', v') :: d' => if String.eqb k k' then (k', v) :: d' else (k', v') :: assoc_set k v d'
  end.

(** [TowerOrganization.add_member] followed by its update
    [self.members[user] = member] of the organization's member dict. *)
Definition add_member (org_id : Z) (members : list (string * Member)) (user : string)
    : M (list (string * Member)) :=
  let* member := TowerOrganization.add_member org_id user in
  ret (assoc_set user member members).

(** [TowerOrganization.populate] as [main] runs it ([use_teams] is
    [False]): every user of every project, group by group, is added to the
    organization; the result is [self.members]. *)
Definition populate (org_id : Z) (users_per_project : list (string * Users.t))
    (members : list (string * Member)) : M (list (string * Member)) :=
  foldM (fun members '(project_name, project_users) =>
           foldM (fun members '(users, user_group, role) =>
                    foldM (add_member org_id) users members)
                 (UsersTeams.list_teams project_users) members)
        users_per_project members.

End OrgPopulate.

(* ================================================================== *)
(** ** Reference functions for the properties of the remaining code *)

Module ExtraSpec.

(** Equality of the (user group, role) keys of [list_teams]. *)
Definition key_eqb (k k' : string * string) : bool :=
  String.eqb (fst k) (fst k') && String.eqb (snd k) (snd k').

(** The group a non-empty user list contributes to the [teams] dict. *)
Definition grp (teams : list ((string * string) * list string)) (k : string * string)
    (l : list string) : list ((string * string) * list string) :=
  match l with [] => teams | _ => teams ++ [(k, l)] end.

(** The last value given to key [k] in a list of stack outputs. *)
Definition last_output (k : string) (raw : list (string * string)) : option string :=
  fold_left (fun acc kv => if String.eqb (fst kv) k then Some (snd kv) else acc) raw None.



End ExtraSpec.

(* ================================================================== *)
(** ** Observations on runs of the client operations *)

Module RunSpec.
Import Remote Eff TowerWorkspace.

(** [members[user]] in the dict built by [TowerOrganization.populate]. *)
Definition lookup_member (user : string) (members : list (string * Member)) : option Member :=
  match find (fun kv => String.eqb (fst kv) user) members with
  | Some (_, m) => Some m
  | None => None
  end.

(** The dict of [populate] maps [user] to a member of organization [org]
    with that email, which exists on the service. *)
Definition known (org : Z) (user : string) (s : list (string * Member) * world) : Prop :=
  exists m, lookup_member user (fst s) = Some m /\ mem_email m = user /\
            mem_orgId m = org /\ In m (members (remote (snd s))).

(** From [s] to [s']: no member of the service is lost and every user
    already known stays known. *)
Definition grows (org : Z) (s s' : list (string * Member) * world) : Prop :=
  incl (members (remote (snd s))) (members (remote (snd s'))) /\
  forall user, known org user s -> known org user s'.

(** The world after one more read-only request [r]: the remote state and
    the secrets are unchanged and the exchange is logged. *)
Definition after_get (w : world) (r : Remote.request) : world :=
  mkWorld (remote w) (secrets w) (log w ++ [EvRequest r (fst (serve r (remote w)))]).

(** The labels of the workspace with the given name and value, in the order
    [get_resource_label] sees them. *)
Definition label_matches (c : ctx) (s : Remote.state) (lname value : string) : list Label :=
  filter (fun l => String.eqb (lab_value l) value)
    (filter (fun l => String.eqb (lab_name l) lname)
       (filter (fun l => Z.eqb (lab_wsId l) (id c)) (labels s))).

(** An operation that leaves the compute environments of the service as
    they are. *)
Definition keeps_ces {A} (m : M A) : Prop :=
  forall w, compute_envs (remote (snd (m w))) = compute_envs (remote w).

Definition touches_ces (r : Remote.request) : bool :=
  match r with PostComputeEnv _ _ | DeleteComputeEnv _ _ => true | _ => false end.

(** One step of the loop of [create_compute_environment] over the
    compute environments of the workspace. *)
Definition ce_step (c : ctx) (ids : option Z * option Z) (comp_env : ComputeEnv) : option Z * option Z :=
  if String.eqb comp_env.(ce_platform) "aws-batch"
     && (String.eqb comp_env.(ce_status) "AVAILABLE"
         || String.eqb comp_env.(ce_status) "CREATING")
  then if String.eqb comp_env.(ce_name) (c.(stack_name) ++ "-spot-" ++ CE_VERSION)
       then (Some comp_env.(ce_id), snd ids)
       else if String.eqb comp_env.(ce_name) (c.(stack_name) ++ "-ondemand-" ++ CE_VERSION)
       then (fst ids, Some comp_env.(ce_id))
       else ids
  else ids.

Definition ce_ids (c : ctx) (comp_envs : list ComputeEnv) : option Z * option Z :=
  fold_left (ce_step c) comp_envs (None, None).

(** The compute environments of the workspace on the service. *)
Definition ws_ces (c : ctx) (s : Remote.state) : list ComputeEnv :=
  filter (fun ce => Z.eqb ce.(ce_wsId) c.(id)) s.(compute_envs).

(** The [computeEnv] object of a request body. *)
Definition ce_body (data : json) : json :=
  match jget "computeEnv" data with Some b => b | None => JNull end.

End RunSpec.

(* ================================================================== *)
(** * Theorems *)

(* ------------------------------------------------------------------ *)
(** ** Tag derivation *)

Module TagProofs.
Import Tags TagSpec.

Lemma kept_allowed (c : ascii) : negb (is_gap c) = true -> kept c = allowed c.
Proof.
  destruct c as [[] [] [] [] [] [] [] []]; vm_compute; congruence.
Qed.

Lemma kept_underscore : kept "_" = true.
Proof. reflexivity. Qed.

Lemma sub_aux_refines (s : string) (b : bool) :
  no_gap s = true -> sub_aux b s = sanitize_aux b s.
Proof.
  revert b; induction s as [|c s IH]; intros b H; [reflexivity|].
  simpl in H |- *; apply andb_prop in H as [Hc Hs].
  rewrite (kept_allowed c Hc).
  destruct (allowed c), b; rewrite ?IH; auto.
Qed.

Lemma sub_aux_kept (s : string) (b : bool) : string_forall kept (sub_aux b s) = true.
Proof.
  revert b; induction s as [|c s IH]; intros b; [reflexivity|].
  simpl. destruct (kept c) eqn:Hk; [simpl; rewrite Hk; apply IH|].
  destruct b; [apply IH|simpl; rewrite IH; reflexivity].
Qed.

Lemma sub_aux_id (s : string) (b : bool) : string_forall kept s = true -> sub_aux b s = s.
Proof.
  revert b; induction s as [|c s IH]; intros b H; [reflexivity|].
  simpl in H |- *; apply andb_prop in H as [Hc Hs]. rewrite Hc, IH; auto.
Qed.

Lemma invalid_chars_sub_idem (s : string) :
  invalid_chars_sub (invalid_chars_sub s) = invalid_chars_sub s.
Proof. unfold invalid_chars_sub. apply sub_aux_id, sub_aux_kept. Qed.

Lemma dict_set_absent (k v : string) (d : dict) :
  ~ In k (map fst d) -> dict_set k v d = d ++ [(k, v)].
Proof.
  induction d as [|[k' v'] d IH]; intros H; [reflexivity|].
  simpl in *. destruct (String.eqb_spec k k') as [->|Hne]; [tauto|].
  rewrite IH; tauto.
Qed.

(** The loop pops each original key from the front and appends its
    sanitized pair, as long as the sanitized keys are pairwise distinct. *)
Lemma loop_sanitizes (rest pre : dict) :
  NoDup (map (fun kv => invalid_chars_sub (fst kv)) (pre ++ rest)) ->
  fold_left step (map fst rest) (rest ++ map sanit pre) = map sanit (pre ++ rest).
Proof.
  revert pre; induction rest as [|[k v] rest IH]; intros pre Hnd.
  - rewrite !app_nil_r. reflexivity.
  - simpl. unfold step at 2. simpl. rewrite String.eqb_refl.
    rewrite dict_set_absent.
    + rewrite <- app_assoc.
      replace (map sanit pre ++ [(invalid_chars_sub k, invalid_chars_sub v)])
        with (map sanit (pre ++ [(k, v)])) by (rewrite map_app; reflexivity).
      rewrite IH; [rewrite <- app_assoc; reflexivity|].
      rewrite <- app_assoc. exact Hnd.
    + rewrite map_app, in_app_iff. intros [Hin|Hin].
      * (* the sanitized key equals a later original key *)
        apply in_map_iff in Hin as [[k' v'] [Hk' Hin]]. simpl in Hk'.
        rewrite map_app in Hnd. simpl in Hnd.
        apply NoDup_remove_2 in Hnd. apply Hnd.
        rewrite in_app_iff. right.
        apply in_map_iff. exists (k', v'). split; [|exact Hin].
        simpl. rewrite Hk'. apply invalid_chars_sub_idem.
      * apply in_map_iff in Hin as [[k' v'] [Hk' Hin]]. simpl in Hk'.
        apply in_map_iff in Hin as [[k0 v0] [Hs Hin]].
        unfold sanit in Hs; simpl in Hs. injection Hs as Hk0 _.
        rewrite map_app in Hnd. simpl in Hnd.
        apply NoDup_remove_2 in Hnd. apply Hnd.
        rewrite in_app_iff. left.
        apply in_map_iff. exists (k0, v0). split; [simpl; congruence|exact Hin].
Qed.

Lemma extract_tags_for_map (stack_name : string) (tags : dict) :
  NoDup (map (fun kv => invalid_chars_sub (fst kv)) (augmented stack_name tags)) ->
  extract_tags_for stack_name tags = map sanit (augmented stack_name tags).
Proof.
  intros Hnd.
  pose proof (loop_sanitizes (augmented stack_name tags) [] Hnd) as L.
  simpl in L. rewrite app_nil_r in L.
  unfold extract_tags_for. fold step. unfold augmented in L. exact L.
Qed.

Lemma string_forall_app (p : ascii -> bool) (a b : string) :
  string_forall p (a ++ b) = string_forall p a && string_forall p b.
Proof.
  induction a as [|c a IH]; [reflexivity|]. simpl. rewrite IH, andb_assoc. reflexivity.
Qed.

Lemma string_forall_rev (p : ascii -> bool) (s : string) :
  string_forall p (Py.rev_string s) = string_forall p s.
Proof.
  induction s as [|c s IH]; [reflexivity|]. simpl.
  rewrite string_forall_app, IH. simpl. rewrite andb_true_r, andb_comm. reflexivity.
Qed.

Lemma string_forall_lstrip (p : ascii -> bool) (s : string) :
  string_forall p s = true -> string_forall p (Py.lstrip s) = true.
Proof.
  induction s as [|c s IH]; intros H; [reflexivity|]. simpl in *.
  destruct (Py.isspace c); [apply IH; apply andb_prop in H; tauto|exact H].
Qed.

Lemma string_forall_strip (p : ascii -> bool) (s : string) :
  string_forall p s = true -> string_forall p (Py.strip s) = true.
Proof.
  intros H. unfold Py.strip. rewrite string_forall_rev.
  apply string_forall_lstrip. rewrite string_forall_rev. apply string_forall_lstrip, H.
Qed.

Lemma string_forall_rpartition (p : ascii -> bool) (sep : ascii) (s : string) :
  string_forall p s = true -> string_forall p (Py.rpartition_tail sep s) = true.
Proof.
  induction s as [|c s IH]; intros H; [reflexivity|]. simpl in *.
  apply andb_prop in H as [Hc Hs].
  destruct (Py.contains_char sep s); [auto|].
  destruct (Ascii.eqb c sep); [exact Hs|simpl; rewrite Hc, Hs; reflexivity].
Qed.

Lemma dict_ok_set (k v : string) (d : dict) :
  dict_ok d = true -> no_gap k = true -> no_gap v = true -> dict_ok (dict_set k v d) = true.
Proof.
  induction d as [|[k' v'] d IH]; intros Hd Hk Hv; simpl in *.
  - rewrite Hk, Hv. reflexivity.
  - apply andb_prop in Hd as [Hkv Hd]. apply andb_prop in Hkv as [Hk' Hv'].
    destruct (String.eqb k k'); simpl; rewrite ?Hk', ?Hv, ?Hd, ?Hv'; simpl; auto.
Qed.

Lemma dict_ok_get (k v : string) (d : dict) :
  dict_ok d = true -> dict_get k d = Some v -> no_gap v = true.
Proof.
  induction d as [|[k' v'] d IH]; intros Hd Hg; simpl in *; [discriminate|].
  apply andb_prop in Hd as [Hkv Hd]. apply andb_prop in Hkv as [_ Hv'].
  destruct (String.eqb k k'); [injection Hg as <-; exact Hv'|auto].
Qed.

Lemma dict_ok_augmented (stack_name : string) (tags : dict) :
  no_gap stack_name = true -> dict_ok tags = true ->
  dict_ok (augmented stack_name tags) = true.
Proof.
  intros Hs Ht. unfold augmented.
  assert (H1 : dict_ok (dict_set "TowerProject" stack_name tags) = true)
    by (apply dict_ok_set; auto).
  destruct (dict_get "CostCenter" _) as [cc|] eqn:Hg; [|exact H1].
  apply dict_ok_set; auto.
  apply string_forall_strip, string_forall_rpartition. eapply dict_ok_get; eauto.
Qed.

Lemma sanit_refines (d : dict) :
  dict_ok d = true ->
  map sanit d = map (fun kv => (sanitize (fst kv), sanitize (snd kv))) d.
Proof.
  intros Hd. apply map_ext_in. intros [k v] Hin.
  unfold dict_ok in Hd. rewrite forallb_forall in Hd.
  apply Hd, andb_prop in Hin as [Hk Hv]. simpl in *.
  unfold sanit, invalid_chars_sub, sanitize; simpl.
  rewrite !sub_aux_refines by assumption. reflexivity.
Qed.

(** C3 (amended): for a stack name and tags without the characters
    [\[ \\ \] ^ `] (which the class [A-z] of the source keeps), and whose
    sanitized keys are pairwise distinct, the derived tags are the
    descriptor's tags with [TowerProject] (not [Project]) set to the stack
    name, the [CostCenter] value cut to its stripped last path segment, and
    every maximal run of characters outside [[A-Za-z0-9_-]] in every key
    and value replaced by a single [_]. *)
Theorem C3_derived_tags (stack_name : string) (tags : dict) :
  no_gap stack_name = true ->
  dict_ok tags = true ->
  NoDup (map (fun kv => sanitize (fst kv)) (augmented stack_name tags)) ->
  extract_tags_for stack_name tags = derived stack_name tags.
Proof.
  intros Hs Ht Hnd.
  pose proof (dict_ok_augmented stack_name tags Hs Ht) as Hok.
  rewrite extract_tags_for_map.
  - unfold derived. apply sanit_refines, Hok.
  - replace (map (fun kv => invalid_chars_sub (fst kv)) (augmented stack_name tags))
      with (map (fun kv => sanitize (fst kv)) (augmented stack_name tags)); [exact Hnd|].
    apply map_ext_in. intros [k v] Hin.
    unfold dict_ok in Hok. rewrite forallb_forall in Hok.
    apply Hok, andb_prop in Hin as [Hk _]. simpl in *.
    unfold invalid_chars_sub, sanitize. rewrite sub_aux_refines; auto.
Qed.

Lemma C3_derived_tags_witness :
  no_gap "foo-project" = true /\
  dict_ok [("Cost Center", "a  b"); ("CostCenter", "dept/program-42")] = true /\
  NoDup (map (fun kv => sanitize (fst kv))
           (augmented "foo-project" [("Cost Center", "a  b"); ("CostCenter", "dept/program-42")])) /\
  extract_tags_for "foo-project" [("Cost Center", "a  b"); ("CostCenter", "dept/program-42")]
  = [("Cost_Center", "a_b"); ("CostCenter", "program-42"); ("TowerProject", "foo-project")].
Proof.
  assert (Hnd : NoDup (map (fun kv => sanitize (fst kv))
           (augmented "foo-project" [("Cost Center", "a  b"); ("CostCenter", "dept/program-42")]))).
  { vm_compute.
    repeat (apply NoDup_cons; [simpl; intuition discriminate|]).
    apply NoDup_nil. }
  split; [reflexivity|]. split; [reflexivity|]. split; [exact Hnd|].
  rewrite (C3_derived_tags "foo-project"
             [("Cost Center", "a  b"); ("CostCenter", "dept/program-42")]
             eq_refl eq_refl Hnd).
  vm_compute. reflexivity.
Defined.

(** C3 counterexample: the derived tags of stack [foo-project] carry no
    [Project] tag (the code sets [TowerProject]), and the key [Cost  Center]
    (two spaces) becomes [Cost_Center], one [_] for the whole run, not
    [Cost__Center]. *)
Lemma C3_counterexample :
  dict_get "Project" (extract_tags_for "foo-project" []) = None /\
  extract_tags_for "foo-project" [("Cost  Center", "x")]
  = [("Cost_Center", "x"); ("TowerProject", "foo-project")].
Proof. split; vm_compute; reflexivity. Qed.

(** The class [A-z] of the source keeps [^]: [a^b] is left unchanged. *)
Lemma caret_kept : invalid_chars_sub "a^b" = "a^b".
Proof. reflexivity. Qed.

End TagProofs.

(* ------------------------------------------------------------------ *)
(** ** Identity extraction *)

Module ArnProofs.
Import Arn.

(** The ARNs of the repository's tests yield their session names. *)
Example extract_emails_test_arns :
  fst (extract_emails
         ["arn:aws:sts::563295687221:assumed-role/AWSReservedSSO_Viewer_19d3ce703c9acf2e/bruno.grande@sagebase.org";
          "arn:aws:sts::563295687221:assumed-role/AWSReservedSSO_Developer_baa6fed639faf5e7/tess.thyer@sagebase.org"])
  = ["bruno.grande@sagebase.org"; "tess.thyer@sagebase.org"].
Proof. vm_compute. reflexivity. Qed.

(** An ARN without an email session name is skipped with a warning. *)
Example extract_emails_skips_plain_session :
  fst (extract_emails
         ["arn:aws:sts::035458030717:assumed-role/AWSReservedSSO_Viewer_fd80909e6a51c6e7/thomas.yu"])
  = [].
Proof. vm_compute. reflexivity. Qed.

(** C4 (failing input): the ARN
    [arn:aws:sts::123456789012:assumed-role/Developer/jane.doe@example.c|]
    has no email-shaped session name ([c|] is not a top-level domain), yet
    [extract_emails] returns [jane.doe@example.c|]: the class [[A-Z|a-z]]
    of the pattern admits the character [|]. *)
Theorem C4_pipe_in_tld_extracted :
  extract_emails ["arn:aws:sts::123456789012:assumed-role/Developer/jane.doe@example.c|"]
  = (["jane.doe@example.c|"], []).
Proof. vm_compute. reflexivity. Qed.

End ArnProofs.

(* ------------------------------------------------------------------ *)
(** ** Organization members *)

Module MemberProofs.
Import Remote Eff Fixtures.

(** C1 (failing input): in an organization whose only member is
    [xa@b.org], [add_member] for [a@b.org] creates the member (id 100).  A
    second call against the resulting state finds two members in the search
    for [a@b.org] ([xa@b.org] and [a@b.org]), sends the [PUT .../add]
    request again, and fails on the refusal instead of returning id 100. *)
Theorem C1_add_member_second_call_adds_again :
  let (r1, w1) := TowerOrganization.add_member 1 "a@b.org" w_member0 in
  let (r2, w2) := TowerOrganization.add_member 1 "a@b.org" (mkWorld w1.(remote) w1.(secrets) []) in
  r1 = Ok (mkMember 1 100 "a@b.org") /\
  r2 = Err (KeyError "member") /\
  map (fun e => match e with EvRequest q _ => Some q | _ => None end) w2.(log)
  = [Some (SearchMembers 1 "a@b.org"); Some (AddMember 1 "a@b.org")].
Proof. vm_compute. repeat split; reflexivity. Qed.

End MemberProofs.

(* ------------------------------------------------------------------ *)
(** ** Credentials *)

Module CredProofs.
Import Remote Eff TowerWorkspace CredSpec Fixtures.

(** [create_credentials] when the credential is found: the listing, then
    the two assertions. *)
Lemma create_credentials_found (c : ctx) (w : world) (cred : Credential) :
  found_credential c w.(remote) = Some cred ->
  create_credentials c w =
  (if String.eqb cred.(cred_provider) "aws" then
     match cred.(cred_deleted) with
     | None => Ok cred.(cred_id)
     | Some _ => Err AssertionError
     end
   else Err AssertionError,
   mkWorld w.(remote) w.(secrets)
     (w.(log) ++ [EvRequest (GetCredentials c.(id)) (RCredentials (ws_credentials c w.(remote)))])).
Proof.
  unfold found_credential, ws_credentials. intro Hf.
  unfold create_credentials, bind, request, need, ret. simpl.
  rewrite Hf. unfold assert, ret, raise.
  destruct (String.eqb (cred_provider cred) "aws"); [|reflexivity].
  destruct (cred_deleted cred); reflexivity.
Qed.

(** [create_credentials] when no credential is found never raises an
    [AssertionError]. *)
Lemma create_credentials_not_found_no_assert (c : ctx) (w : world) :
  found_credential c w.(remote) = None ->
  fst (create_credentials c w) <> Err AssertionError.
Proof.
  unfold found_credential, ws_credentials. intro Hf.
  unfold create_credentials, bind, request, need, ret. simpl.
  rewrite Hf. unfold dget, get_secret_value, bind, ret, raise.
  repeat (simpl; match goal with
                 | |- context [find ?f ?l] => destruct (find f l) as [[? ?]|]
                 end); simpl; discriminate.
Qed.

(** C7: on the path where a credential named after the stack exists in
    the workspace, [create_credentials] sends only the credential listing:
    it reads no secret, sends no creation request and leaves the remote
    state and the secrets untouched. *)
Theorem C7_found_credential_reads_no_secret (c : ctx) (w : world) (cred : Credential) :
  found_credential c w.(remote) = Some cred ->
  let w' := snd (create_credentials c w) in
  w'.(remote) = w.(remote) /\ w'.(secrets) = w.(secrets) /\
  w'.(log) = w.(log) ++ [EvRequest (GetCredentials c.(id))
                                   (RCredentials (ws_credentials c w.(remote)))].
Proof.
  intro Hf. rewrite (create_credentials_found c w cred Hf). simpl. auto.
Qed.

Lemma C7_found_credential_reads_no_secret_witness :
  found_credential ctx_cred world_cred.(remote) = Some (mkCredential 7 3 "foo-project" "aws" None) /\
  (snd (create_credentials ctx_cred world_cred)).(log)
  = [EvRequest (GetCredentials 7) (RCredentials [mkCredential 7 3 "foo-project" "aws" None])].
Proof.
  split; [reflexivity|].
  apply (C7_found_credential_reads_no_secret ctx_cred world_cred
           (mkCredential 7 3 "foo-project" "aws" None)).
  reflexivity.
Defined.

(** C8: [create_credentials] fails with an [AssertionError] exactly when
    the credential found under the stack name has a provider other than
    [aws] or is soft-deleted; a found [aws] credential that is not deleted
    has its identifier returned. *)
Theorem C8_credential_assertions (c : ctx) (w : world) :
  (fst (create_credentials c w) = Err AssertionError <->
   exists cred, found_credential c w.(remote) = Some cred /\
                (cred.(cred_provider) <> "aws" \/ cred.(cred_deleted) <> None)) /\
  (forall cred, found_credential c w.(remote) = Some cred ->
                cred.(cred_provider) = "aws" -> cred.(cred_deleted) = None ->
                fst (create_credentials c w) = Ok cred.(cred_id)).
Proof.
  split.
  - destruct (found_credential c (remote w)) as [cred|] eqn:Hf.
    + rewrite (create_credentials_found c w cred Hf). simpl.
      split.
      * intro H. exists cred. split; [reflexivity|].
        destruct (String.eqb_spec (cred_provider cred) "aws") as [Hp|Hp]; [|auto].
        right. destruct (cred_deleted cred); [discriminate|discriminate].
      * intros [cred' [Heq Hbad]]. injection Heq as <-.
        destruct (String.eqb_spec (cred_provider cred) "aws") as [Hp|Hp]; [|reflexivity].
        destruct Hbad as [Hbad|Hbad]; [contradiction|].
        destruct (cred_deleted cred); [reflexivity|contradiction].
    + split.
      * intro H. exfalso. exact (create_credentials_not_found_no_assert c w Hf H).
      * intros [cred [Heq _]]. discriminate.
  - intros cred Hf Hp Hd. rewrite (create_credentials_found c w cred Hf). simpl.
    rewrite Hp, Hd. reflexivity.
Qed.

End CredProofs.

(* ------------------------------------------------------------------ *)
(** ** Compute environment specifications *)

Module GenProofs.
Import Remote Eff TowerWorkspace GenSpec Fixtures.

Lemma stateless_ret {A} (a : A) : stateless (ret a).
Proof. exists (Ok a). reflexivity. Qed.

Lemma stateless_raise {A} (e : exn) : stateless (A := A) (raise e).
Proof. exists (Err e). reflexivity. Qed.

Lemma stateless_bind {A B} (m : M A) (k : A -> M B) :
  stateless m -> (forall a, stateless (k a)) -> stateless (bind m k).
Proof.
  intros [r Hm] Hk. destruct r as [a|e].
  - destruct (Hk a) as [r' Hk']. exists r'. intro w. unfold bind. rewrite Hm. apply Hk'.
  - exists (Err e). intro w. unfold bind. rewrite Hm. reflexivity.
Qed.

Lemma stateless_dget (key : string) (d : list (string * string)) : stateless (dget key d).
Proof.
  unfold dget. destruct (find _ d) as [[? ?]|]; [apply stateless_ret|apply stateless_raise].
Qed.

Lemma stateless_mapM {A B} (f : A -> M B) (l : list A) :
  (forall a, stateless (f a)) -> stateless (mapM f l).
Proof.
  intro Hf. induction l as [|a l IH]; simpl.
  - apply stateless_ret.
  - apply stateless_bind; [apply Hf|intro b].
    apply stateless_bind; [exact IH|intro; apply stateless_ret].
Qed.

Create HintDb stateless.
#[local] Hint Resolve stateless_ret stateless_raise stateless_dget : stateless.

Ltac solve_stateless :=
  cbv zeta;
  repeat first
    [ apply stateless_bind; [|intro]
    | apply stateless_mapM; intro
    | solve [eauto with stateless] ].

(** A computation made of two steps followed by a stateless tail: its
    result is determined by the results of the two steps. *)
Lemma two_steps_then_stateless {A B C} (m : M A) (m2 : A -> M B)
    (T : A -> B -> M C) (w1 w2 : world) :
  (forall a b, stateless (T a b)) ->
  fst ((let* a := m in let* b := m2 a in ret (a, b)) w1)
  = fst ((let* a := m in let* b := m2 a in ret (a, b)) w2) ->
  fst ((let* a := m in let* b := m2 a in T a b) w1)
  = fst ((let* a := m in let* b := m2 a in T a b) w2).
Proof.
  intros HT. unfold bind, ret.
  destruct (m w1) as [[a1|e1] w1'];
    [destruct (m2 a1 w1') as [[b1|f1] w1'']|];
    destruct (m w2) as [[a2|e2] w2'];
    try destruct (m2 a2 w2') as [[b2|f2] w2''];
    simpl; intro H; try discriminate H;
    first
      [ injection H as <- <-; destruct (HT a1 b1) as [r Hr]; rewrite !Hr; reflexivity
      | injection H as ->; reflexivity ].
Qed.

(** C5 (counterexample): [generate_compute_environment] is not free of
    remote calls.  On a workspace without credentials or labels it reads
    the secret, creates the credential and creates a resource label for
    the [CostCenter] tag. *)
Lemma C5_counterexample :
  let w' := snd (generate_compute_environment ctx_gen "foo-project-spot-v12" "SPOT" world_gen) in
  length w'.(log) = 5 /\
  In (EvSecretRead "arn:secret") w'.(log) /\
  w'.(remote).(credentials) = [mkCredential 7 10 "foo-project" "aws" None] /\
  w'.(remote).(labels) = [mkLabel 7 11 "CostCenter" "program-42"].
Proof. vm_compute. repeat split; auto. Qed.

(** C5 (amended): [generate_compute_environment] sends requests only in
    its two get-or-create steps (the credential and one resource label per
    tag); the specification it returns is a function of its arguments and
    of the identifiers those steps yield: two runs, against any two remote
    states, whose steps yield the same identifiers (or the same error)
    return the same result. *)
Theorem C5_spec_determined_by_ids (c : ctx) (ce_name model : string) (w1 w2 : world) :
  fst (cred_and_labels c w1) = fst (cred_and_labels c w2) ->
  fst (generate_compute_environment c ce_name model w1)
  = fst (generate_compute_environment c ce_name model w2).
Proof.
  intro H. unfold generate_compute_environment, assert.
  destruct (String.eqb model "SPOT" || String.eqb model "EC2"); [|reflexivity].
  unfold bind at 1, ret at 1.
  apply (two_steps_then_stateless (create_credentials c)
           (fun _ => mapM (fun kv => create_resource_label c (fst kv) (snd kv)) c.(tags))).
  - intros a b. solve_stateless.
  - exact H.
Qed.

Lemma C5_spec_determined_by_ids_witness :
  let w1 := snd (generate_compute_environment ctx_gen "foo-project-spot-v12" "SPOT" world_gen) in
  fst (cred_and_labels ctx_gen w1) = fst (cred_and_labels ctx_gen world_gen) /\
  fst (generate_compute_environment ctx_gen "foo-project-spot-v12" "SPOT" w1)
  = fst (generate_compute_environment ctx_gen "foo-project-spot-v12" "SPOT" world_gen).
Proof.
  cbv zeta. split; [vm_compute; reflexivity|].
  apply C5_spec_determined_by_ids. vm_compute. reflexivity.
Defined.

End GenProofs.

(* ------------------------------------------------------------------ *)
(** ** Cleanup of compute environments *)

Module CleanupProofs.
Import Remote Eff TowerWorkspace CleanupSpec.

Lemma substring_all (s : string) : substring 0 (String.length s) s = s.
Proof. induction s as [|a s IH]; simpl; [reflexivity|now rewrite IH]. Qed.

Lemma substring_after (p q : string) (m : nat) :
  substring (String.length p) m (p ++ q) = substring 0 m q.
Proof. induction p as [|a p IH]; simpl; [reflexivity|exact IH]. Qed.

Lemma substring_split (s : string) (k : nat) :
  k <= String.length s ->
  s = (substring 0 k s ++ substring k (String.length s - k) s)%string.
Proof.
  revert k; induction s as [|a s IH]; intros k Hk.
  - destruct k; reflexivity.
  - destruct k as [|k].
    + simpl. now rewrite substring_all.
    + simpl in Hk |- *. f_equal. apply IH. lia.
Qed.

Lemma length_app (p q : string) :
  String.length (p ++ q) = String.length p + String.length q.
Proof. induction p as [|a p IH]; simpl; [reflexivity|now rewrite IH]. Qed.

(** [str.endswith] is the suffix relation. *)
Lemma ends_with_spec (suffix s : string) :
  ends_with suffix s = true <-> exists p, s = (p ++ suffix)%string.
Proof.
  unfold ends_with. split.
  - intro H. apply andb_prop in H as [Hle Heq].
    apply Nat.leb_le in Hle. apply String.eqb_eq in Heq.
    exists (substring 0 (String.length s - String.length suffix) s).
    rewrite (substring_split s (String.length s - String.length suffix)) at 1 by lia.
    f_equal.
    replace (String.length s - (String.length s - String.length suffix))
      with (String.length suffix) by lia.
    exact Heq.
  - intros [p ->]. rewrite length_app.
    replace (String.length p + String.length suffix - String.length suffix)
      with (String.length p) by lia.
    rewrite substring_after, substring_all, String.eqb_refl, andb_true_r.
    apply Nat.leb_le. lia.
Qed.

Lemma prefix_spec (a b : string) :
  String.prefix a b = true <-> exists y, b = (a ++ y)%string.
Proof.
  revert b; induction a as [|c a IH]; intros b.
  - split; [intros _; now exists b|intros _; destruct b; reflexivity].
  - destruct b as [|d b]; simpl.
    + split; [discriminate|intros [y Hy]; discriminate].
    + destruct (ascii_dec c d) as [<-|Hne].
      * rewrite IH. split; intros [y Hy]; exists y; [now subst|now injection Hy].
      * split; [discriminate|intros [y Hy]; injection Hy; intros; congruence].
Qed.

(** [a in b] for strings is the substring relation. *)
Lemma is_substring_spec (a b : string) :
  Py.is_substring a b = true <-> exists x y, b = (x ++ a ++ y)%string.
Proof.
  induction b as [|d b IH].
  - change (Py.is_substring a "") with (String.prefix a "" || false).
    rewrite orb_false_r, prefix_spec. split.
    + intros [y Hy]. exists EmptyString, y. exact Hy.
    + intros [x [y Hxy]]. destruct x; [now exists y|discriminate].
  - change (Py.is_substring a (String d b))
      with (String.prefix a (String d b) || Py.is_substring a b).
    rewrite orb_true_iff, prefix_spec, IH. split.
    + intros [[y Hy]|[x [y Hxy]]].
      * exists EmptyString, y. exact Hy.
      * exists (String d x), y. now rewrite Hxy.
    + intros [x [y Hxy]]. destruct x as [|e x].
      * left. exists y. exact Hxy.
      * right. injection Hxy as _ Hxy. now exists x, y.
Qed.

Lemma is_launcher_role_spec (role : string) :
  is_launcher_role role = true <-> In role launch_roles.
Proof.
  unfold is_launcher_role, launch_roles, launcher_roles.
  rewrite existsb_exists. split.
  - intros [r [Hin Heq]]. apply String.eqb_eq in Heq. now subst.
  - intro H. exists role. split; [exact H|apply String.eqb_refl].
Qed.

(** [has_launchers] decides [launch_capable]. *)
Lemma has_launchers_spec (c : ctx) : has_launchers c = true <-> launch_capable c.
Proof.
  unfold has_launchers, launch_capable. cbv zeta. rewrite orb_true_iff. split.
  - intros [H|H]; [left|right].
    + destruct (users c) as [u|]; [|discriminate].
      apply existsb_exists in H as [[[e g] r] [Hin Hr]].
      exists u, e, g, r. split; [reflexivity|split; [exact Hin|]].
      now apply is_launcher_role_spec.
    + apply existsb_exists in H as [[t r] [Hin Hr]].
      exists t, r. split; [exact Hin|]. now apply is_launcher_role_spec.
  - intros [[u [e [g [r [Hu [Hin Hr]]]]]]|[t [r [Hin Hr]]]]; [left|right].
    + rewrite Hu. apply existsb_exists. exists (e, g, r).
      split; [exact Hin|]. now apply is_launcher_role_spec.
    + apply existsb_exists. exists (t, r).
      split; [exact Hin|]. now apply is_launcher_role_spec.
Qed.

(** A [for] loop whose body always succeeds and appends events related to
    its element produces the concatenation of these events. *)
Lemma forM_ok_trace {A} (body : A -> M unit) (R : A -> list event -> Prop)
    (T : list A -> list event -> Prop) :
  T [] [] ->
  (forall x xs E L, R x E -> T xs L -> T (x :: xs) (E ++ L)) ->
  (forall x w, fst (body x w) = Ok tt /\
               exists E, (snd (body x w)).(log) = w.(log) ++ E /\ R x E) ->
  forall xs w, fst (forM_ xs body w) = Ok tt /\
               exists L, (snd (forM_ xs body w)).(log) = w.(log) ++ L /\ T xs L.
Proof.
  intros Hnil Hcons Hbody xs. induction xs as [|x xs IH]; intro w.
  - split; [reflexivity|]. exists []. split; [now rewrite app_nil_r|exact Hnil].
  - simpl. unfold bind. destruct (Hbody x w) as [Hok [E [HE HR]]].
    destruct (body x w) as [r w'] eqn:Hb. simpl in Hok, HE. subst r.
    destruct (IH w') as [Hok' [L [HL HT]]].
    split; [exact Hok'|]. exists (E ++ L).
    split; [now rewrite HL, HE, app_assoc|]. now apply Hcons.
Qed.

Lemma cleanup_trace_cons (c : ctx) (x : ComputeEnv) (xs : list ComputeEnv)
    (E L : list event) :
  cleanup_round c x E -> cleanup_trace c xs L -> cleanup_trace c (x :: xs) (E ++ L).
Proof.
  intros [[Hv [Hl ->]]|[[Hd [resp [Hn ->]]]|[Hd [resp [Hr ->]]]]] HT; simpl.
  - now apply ct_keep.
  - now apply ct_deleted.
  - now apply ct_skipped.
Qed.

(** C6: the cleanup lists the workspace's compute environments and goes
    through all of them in order without failing: an environment is left
    alone exactly when its name carries the current version tag and the
    workspace has a launch-capable participant; every other environment
    receives one delete request, and when the response reports active jobs
    the deletion is reported as skipped and the loop goes on. *)
Theorem C6_cleanup_trace (c : ctx) (w : world) :
  let ces := filter (fun ce => Z.eqb ce.(ce_wsId) c.(id)) w.(remote).(compute_envs) in
  fst (cleanup_compute_environments c w) = Ok tt /\
  exists L, (snd (cleanup_compute_environments c w)).(log)
            = w.(log) ++ EvRequest (GetComputeEnvs c.(id)) (RComputeEnvs ces) :: L
            /\ cleanup_trace c ces L.
Proof.
  intro ces.
  remember (cleanup_compute_environments c w) as r eqn:Hr.
  unfold cleanup_compute_environments, bind at 1 2, request at 1 in Hr.
  simpl in Hr. subst r.
  match goal with
  | |- fst (forM_ ?xs ?body ?w1) = _ /\ _ =>
      assert (Hround : forall x w0, fst (body x w0) = Ok tt /\
                exists E, (snd (body x w0)).(log) = w0.(log) ++ E /\ cleanup_round c x E);
      [| destruct (forM_ok_trace body (cleanup_round c) (cleanup_trace c) (ct_nil c)
                     (cleanup_trace_cons c) Hround xs w1) as [Hok [L [HL HT]]] ]
  end.
  - intros x w0. cbv beta.
    destruct (ends_with CE_VERSION (ce_name x) && has_launchers c) eqn:Hk.
    + split; [reflexivity|]. exists []. split; [now rewrite app_nil_r|].
      left. apply andb_prop in Hk as [He Hl].
      split; [now apply ends_with_spec|split; [now apply has_launchers_spec|reflexivity]].
    + assert (Hd : to_delete c x).
      { unfold to_delete. destruct (ends_with CE_VERSION (ce_name x)) eqn:He.
        - right. rewrite <- has_launchers_spec. simpl in Hk. rewrite Hk. discriminate.
        - left. unfold carries_version. rewrite <- ends_with_spec, He. discriminate. }
      unfold bind, request.
      destruct (serve (DeleteComputeEnv (id c) (ce_id x)) (remote w0)) as [resp s'].
      simpl.
      assert (Hquiet : forall resp0, ~ reports_active_jobs resp0 ->
                cleanup_round c x [EvRequest (DeleteComputeEnv (id c) (ce_id x)) resp0]).
      { intros resp0 Hn. right. left. split; [exact Hd|]. exists resp0. now split. }
      destruct resp;
        try (split; [reflexivity|]; eexists; split; [reflexivity|];
             apply Hquiet; intros [? [? [? [Heq _]]]]; discriminate Heq).
      destruct (Py.is_substring "has active jobs" message) eqn:Hm.
      * split; [reflexivity|]. eexists. split.
        { unfold print, emit. simpl. rewrite <- app_assoc. reflexivity. }
        right. right. split; [exact Hd|]. eexists. split; [|reflexivity].
        apply is_substring_spec in Hm as [a [b Hab]]. exists message, a, b. now split.
      * split; [reflexivity|]. eexists. split; [reflexivity|].
        apply Hquiet. intros [m [a [b [Heq Hab]]]]. injection Heq as <-.
        assert (Py.is_substring "has active jobs" message = true)
          by (apply is_substring_spec; eauto).
        congruence.
  - split; [exact Hok|]. exists L. split; [|exact HT].
    rewrite HL. simpl. rewrite <- app_assoc. reflexivity.
Qed.

End CleanupProofs.

(* ------------------------------------------------------------------ *)
(** ** Credentials before compute environments *)

Module OrderProofs.
Import Remote Eff TowerWorkspace OrderSpec CredSpec GenSpec Fixtures.

Lemma justified_app (n : string) (E1 E2 : list event) (seen : list (Z * Z)) :
  justified n seen (E1 ++ E2) = justified n seen E1 && justified n (seen_after n seen E1) E2.
Proof.
  revert seen; induction E1 as [|e E1 IH]; intro seen; [reflexivity|].
  simpl. rewrite IH, andb_assoc. reflexivity.
Qed.

Lemma seen_after_incl (n : string) (E : list event) (seen : list (Z * Z)) (p : Z * Z) :
  In p seen -> In p (seen_after n seen E).
Proof.
  revert seen; induction E as [|e E IH]; intros seen H; [exact H|].
  simpl. apply IH. unfold add_seen. destruct (cred_of_event n e); [now right|exact H].
Qed.

Lemma seen_after_app (n : string) (E1 E2 : list event) (seen : list (Z * Z)) :
  seen_after n seen (E1 ++ E2) = seen_after n (seen_after n seen E1) E2.
Proof. revert seen; induction E1 as [|e E1 IH]; intro seen; [reflexivity|apply IH]. Qed.

Lemma just_ret (n : string) {A} (a : A) : just_m n (ret a).
Proof. intro w. exists []. split; [now rewrite app_nil_r|reflexivity]. Qed.

Lemma just_raise (n : string) {A} (e : exn) : just_m n (A := A) (raise e).
Proof. intro w. exists []. split; [now rewrite app_nil_r|reflexivity]. Qed.

Lemma just_bind (n : string) {A B} (m : M A) (k : A -> M B) :
  just_m n m -> (forall a, just_m n (k a)) -> just_m n (bind m k).
Proof.
  intros Hm Hk w. destruct (Hm w) as [E1 [HE1 HJ1]]. unfold bind.
  destruct (m w) as [[a|e] w1]; simpl in *.
  - destruct (Hk a w1) as [E2 [HE2 HJ2]]. exists (E1 ++ E2). split.
    + now rewrite HE2, HE1, app_assoc.
    + intro seen. now rewrite justified_app, HJ1, HJ2.
  - exists E1. now split.
Qed.

Lemma just_request (n : string) (r : Remote.request) :
  posts_compute_env r = false -> just_m n (request r).
Proof.
  intros Hr w. unfold request. destruct (serve r (remote w)) as [resp s']. simpl.
  exists [EvRequest r resp]. split; [reflexivity|].
  intro seen. destruct r; try discriminate Hr; reflexivity.
Qed.

Lemma just_get_secret (n : string) (arn : string) : just_m n (get_secret_value arn).
Proof.
  intro w. unfold get_secret_value.
  exists [EvSecretRead arn]. split; [|reflexivity].
  destruct (find _ (secrets w)) as [[? ?]|]; reflexivity.
Qed.

Lemma just_print (n : string) (msg : string) : just_m n (print msg).
Proof. intro w. exists [EvPrint msg]. split; reflexivity. Qed.

Lemma just_forM_ (n : string) {A} (l : list A) (body : A -> M unit) :
  (forall x, just_m n (body x)) -> just_m n (forM_ l body).
Proof.
  intro Hb. induction l as [|x l IH]; simpl; [apply just_ret|].
  apply just_bind; [apply Hb|intros _; exact IH].
Qed.

Lemma just_mapM (n : string) {A B} (f : A -> M B) (l : list A) :
  (forall x, just_m n (f x)) -> just_m n (mapM f l).
Proof.
  intro Hf. induction l as [|x l IH]; simpl; [apply just_ret|].
  apply just_bind; [apply Hf|intro y]. apply just_bind; [exact IH|intro; apply just_ret].
Qed.

Lemma just_foldM (n : string) {A B} (f : B -> A -> M B) (l : list A) (acc : B) :
  (forall b x, just_m n (f b x)) -> just_m n (foldM f l acc).
Proof.
  intro Hf. revert acc; induction l as [|x l IH]; intro acc; simpl; [apply just_ret|].
  apply just_bind; [apply Hf|intro b; apply IH].
Qed.

Create HintDb just.

Ltac just_tac :=
  repeat (cbv beta zeta;
          first
            [ solve [eauto with just]
            | apply just_bind; [|intro]
            | apply just_forM_; intro
            | apply just_mapM; intro
            | apply just_foldM; intros
            | apply just_request; reflexivity
            | apply just_ret
            | apply just_raise
            | apply just_print
            | apply just_get_secret
            | progress unfold need, dget, assert
            | match goal with
              | |- just_m _ (match ?x with _ => _ end) => destruct x
              end ]).

Lemma just_create_workspace (n : string) (org : Z) (nm full : string) :
  just_m n (create org nm full).
Proof. unfold create. just_tac. Qed.

Lemma just_add_participant (n : string) (c : ctx) (role : string)
    (user : option string) (team_id : option Z) :
  just_m n (add_participant c role user team_id).
Proof. unfold add_participant, set_participant_role. just_tac. Qed.

#[local] Hint Resolve just_create_workspace just_add_participant : just.

Lemma just_populate (n : string) (c : ctx) : just_m n (populate c).
Proof.
  unfold populate, list_owner_participant_ids, list_participants, remove_participant.
  just_tac.
Qed.

Lemma just_cleanup (n : string) (c : ctx) : just_m n (cleanup_compute_environments c).
Proof. unfold cleanup_compute_environments. just_tac. Qed.

Lemma just_create_resource_label (n : string) (c : ctx) (lname value : string) :
  just_m n (create_resource_label c lname value).
Proof. unfold create_resource_label, get_resource_label. just_tac. Qed.

Lemma just_set_primary (n : string) (c : ctx) (ce : Z) :
  just_m n (set_primary_compute_environment c ce).
Proof. unfold set_primary_compute_environment. just_tac. Qed.

#[local] Hint Resolve just_populate just_cleanup just_create_resource_label
  just_set_primary : just.

(** [create_credentials] sends no compute environment creation, and the
    identifier it returns is that of a credential named after the stack
    that its events show in the workspace. *)
Lemma create_credentials_cred (c : ctx) (w : world) :
  exists E, (snd (create_credentials c w)).(log) = w.(log) ++ E /\
    (forall seen, justified (stack_name c) seen E = true) /\
    (forall cid, fst (create_credentials c w) = Ok cid ->
                 forall seen, In (id c, cid) (seen_after (stack_name c) seen E)).
Proof.
  destruct (found_credential c (remote w)) as [cred|] eqn:Hf.
  - rewrite (CredProofs.create_credentials_found c w cred Hf). simpl.
    exists [EvRequest (GetCredentials (id c)) (RCredentials (ws_credentials c (remote w)))].
    split; [reflexivity|]. split; [reflexivity|].
    intros cid Hok seen. simpl. unfold add_seen, cred_of_event.
    unfold found_credential in Hf. rewrite Hf. left.
    destruct (String.eqb (cred_provider cred) "aws"); [|discriminate Hok].
    destruct (cred_deleted cred); [discriminate Hok|]. now injection Hok as ->.
  - unfold found_credential, ws_credentials in Hf.
    unfold create_credentials, bind, request, need, ret, dget, get_secret_value, raise.
    simpl. rewrite Hf.
    repeat (simpl; match goal with
                   | |- context [find ?f ?l] => destruct (find f l) as [[? ?]|]
                   end);
      simpl; (eexists; split; [rewrite <- ?app_assoc; reflexivity|]);
      (split; [reflexivity|]); intros cid Hok seen; try discriminate Hok.
    injection Hok as <-. simpl. unfold add_seen, cred_of_event, cred_name_in. simpl.
    rewrite String.eqb_refl. left. reflexivity.
Qed.

Lemma returns_ret {A} (P : A -> Prop) (a : A) : P a -> returns_only P (ret a).
Proof. intros Ha w a' H. injection H as <-. exact Ha. Qed.

Lemma returns_raise {A} (P : A -> Prop) (e : exn) : returns_only P (raise e).
Proof. intros w a' H. discriminate H. Qed.

Lemma returns_bind {A B} (P : B -> Prop) (m : M A) (k : A -> M B) :
  (forall a, returns_only P (k a)) -> returns_only P (bind m k).
Proof.
  intros Hk w b. unfold bind. destruct (m w) as [[a|e] w1]; [apply Hk|discriminate].
Qed.

Lemma bind_ret_l {A B} (a : A) (k : A -> M B) : bind (ret a) k = k a.
Proof. reflexivity. Qed.

(** A credential step, a step that sends no compute environment creation
    and a stateless tail that puts the credential identifier in its
    result. *)
Lemma cred_then_stateless {B} (c : ctx) (m2 : Z -> M B) (T : Z -> B -> M json)
    (w : world) :
  (forall a, just_m (stack_name c) (m2 a)) ->
  (forall a b, stateless (T a b)) ->
  (forall a b, returns_only (fun d => ce_credentials_id d = Some a) (T a b)) ->
  let m := (let* a := create_credentials c in let* b := m2 a in T a b) in
  exists E, (snd (m w)).(log) = w.(log) ++ E /\
    (forall seen, justified (stack_name c) seen E = true) /\
    (forall d, fst (m w) = Ok d ->
               exists cid, ce_credentials_id d = Some cid /\
                           forall seen, In (id c, cid) (seen_after (stack_name c) seen E)).
Proof.
  intros H2 HT HR m. subst m. cbv zeta.
  destruct (create_credentials_cred c w) as [E1 [HE1 [HJ1 HC1]]].
  unfold bind. destruct (create_credentials c w) as [[a|e] w1]; simpl in *.
  - destruct (H2 a w1) as [E2 [HE2 HJ2]].
    destruct (m2 a w1) as [[b|e] w2]; simpl in *.
    + destruct (HT a b) as [r Hr]. pose proof (HR a b w2) as HRa. rewrite Hr in HRa |- *.
      simpl in *. exists (E1 ++ E2). split; [now rewrite HE2, HE1, app_assoc|]. split.
      * intro seen. now rewrite justified_app, HJ1, HJ2.
      * intros d Hd. exists a. split; [now apply HRa|].
        intro seen. rewrite seen_after_app. apply seen_after_incl. now apply HC1.
    + exists (E1 ++ E2). split; [now rewrite HE2, HE1, app_assoc|]. split.
      * intro seen. now rewrite justified_app, HJ1, HJ2.
      * intros d Hd. discriminate Hd.
  - exists E1. split; [exact HE1|]. split; [exact HJ1|]. intros d Hd. discriminate Hd.
Qed.

(** [generate_compute_environment] sends no compute environment creation
    and the body it returns carries the identifier of a credential named
    after the stack that its events show in the workspace. *)
Lemma generate_cred (c : ctx) (nm model : string) (w : world) :
  exists E, (snd (generate_compute_environment c nm model w)).(log) = w.(log) ++ E /\
    (forall seen, justified (stack_name c) seen E = true) /\
    (forall d, fst (generate_compute_environment c nm model w) = Ok d ->
               exists cid, ce_credentials_id d = Some cid /\
                           forall seen, In (id c, cid) (seen_after (stack_name c) seen E)).
Proof.
  unfold generate_compute_environment, assert.
  destruct (String.eqb model "SPOT" || String.eqb model "EC2"); cbv iota.
  - rewrite bind_ret_l. cbv beta.
    apply (cred_then_stateless c
             (fun _ => mapM (fun kv => create_resource_label c (fst kv) (snd kv)) (tags c))).
    + intro a. apply just_mapM. intro kv. apply just_create_resource_label.
    + intros a b. cbv zeta.
      repeat first
        [ apply GenProofs.stateless_bind; [|intro]
        | apply GenProofs.stateless_mapM; intro
        | apply GenProofs.stateless_ret
        | apply GenProofs.stateless_raise
        | apply GenProofs.stateless_dget ].
    + intros a b. cbv zeta. repeat (apply returns_bind; intro).
      apply returns_ret. reflexivity.
  - exists []. simpl. split; [now rewrite app_nil_r|]. split; [reflexivity|].
    intros d Hd. discriminate Hd.
Qed.

(** A compute environment creation sent with the body just generated is
    justified. *)
Lemma just_generate_post (n : string) {B} (c : ctx) (nm model : string)
    (K : response -> M B) :
  n = stack_name c -> (forall r, just_m n (K r)) ->
  just_m n (let* data := generate_compute_environment c nm model in
            bind (request (PostComputeEnv (id c) data)) K).
Proof.
  intros Hn HK w. subst n.
  destruct (generate_cred c nm model w) as [E1 [HE1 [HJ1 HC1]]].
  unfold bind at 1.
  destruct (generate_compute_environment c nm model w) as [[d|e] w1]; simpl in *.
  - destruct (HC1 d eq_refl) as [cid [Hcid Hin]].
    unfold bind, request.
    destruct (serve (PostComputeEnv (id c) d) (remote w1)) as [resp s'].
    destruct (HK resp (mkWorld s' (secrets w1) (log w1 ++ [EvRequest (PostComputeEnv (id c) d) resp])))
      as [E3 [HE3 HJ3]].
    exists (E1 ++ EvRequest (PostComputeEnv (id c) d) resp :: E3). split.
    + rewrite HE3. simpl. rewrite HE1, <- !app_assoc. reflexivity.
    + intro seen. rewrite justified_app, HJ1. simpl. rewrite Hcid, HJ3.
      replace (existsb (pair_eqb (id c, cid)) (seen_after (stack_name c) seen E1)) with true;
        [reflexivity|].
      symmetry. apply existsb_exists. exists (id c, cid). split; [apply Hin|].
      unfold pair_eqb. simpl. now rewrite !Z.eqb_refl.
  - exists E1. now split.
Qed.

Ltac just_tac_ce :=
  repeat (cbv beta zeta;
          first
            [ solve [eauto with just]
            | apply just_generate_post; [reflexivity|intro]
            | apply just_bind; [|intro]
            | apply just_request; reflexivity
            | apply just_ret
            | apply just_raise
            | progress unfold need
            | match goal with
              | |- just_m _ (match ?x with _ => _ end) => destruct x
              end ]).

Lemma just_create_compute_environment (n : string) (c : ctx) :
  n = stack_name c -> just_m n (create_compute_environment c).
Proof. intro Hn. subst n. unfold create_compute_environment. just_tac_ce. Qed.

#[local] Hint Extern 1 (just_m _ (create_compute_environment _)) =>
  apply just_create_compute_environment; reflexivity : just.

Lemma just_init (c0 : ctx) : just_m (stack_name c0) (init c0).
Proof. unfold init. just_tac. Qed.

(** The workspace set-up of [ctx_init] on an empty Tower creates both
    compute environments, so the ordering property below is not vacuous. *)
Example init_creates_compute_envs :
  let L := (snd (init ctx_init world_gen)).(log) in
  length (filter (fun e => match e with
                           | EvRequest r _ => posts_compute_env r
                           | _ => false
                           end) L) = 2 /\
  justified "foo-project" [] L = true.
Proof. vm_compute. split; reflexivity. Qed.

(** C9: in the set-up of a workspace ([TowerWorkspace.__init__] after the
    stack outputs are read), every compute environment creation request
    for a workspace comes after an event showing a credential named after
    the stack in that same workspace (its listing or its creation), and
    the body of the request carries that credential's identifier. *)
Theorem C9_compute_env_after_credential (c0 : ctx) (w : world) :
  exists L, (snd (init c0 w)).(log) = w.(log) ++ L /\
            justified (stack_name c0) [] L = true.
Proof.
  destruct (just_init c0 w) as [L [HL HJ]]. exists L. split; [exact HL|apply HJ].
Qed.

End OrderProofs.

(* ------------------------------------------------------------------ *)
(** ** Participant reconciliation *)

Module PartProofs.
Import Remote Eff TowerWorkspace PartSpec Fixtures.

Lemma nodupb_spec (l : list Z) : nodupb l = true -> NoDup l.
Proof.
  induction l as [|x l IH]; simpl; intro H; [constructor|].
  apply andb_prop in H as [Hx Hl]. constructor; [|now apply IH].
  intro Hin. apply negb_true_iff in Hx.
  assert (existsb (Z.eqb x) l = true) by (apply existsb_exists; exists x; split; [exact Hin|apply Z.eqb_refl]).
  congruence.
Qed.

Lemma opt_eqb2_eq (a b : option Z) : opt_eqb2 a b = true <-> a = b.
Proof.
  destruct a as [x|], b as [y|]; simpl; split; intro H; try discriminate; try reflexivity.
  - apply Z.eqb_eq in H. now subst.
  - injection H as ->. apply Z.eqb_refl.
Qed.

(** What [populate_ok] guarantees. *)
Lemma populate_ok_spec (c : ctx) (s : Remote.state) (u : Users.t) :
  c.(users) = Some u -> populate_ok c s = true ->
  let es := user_emails u in
  let V0 := ws_participants c s in
  c.(teams) = [] /\
  (forall e, In e es -> e <> "" /\ exists m, mid_of c e = Some m) /\
  (forall e1 e2 m, In e1 es -> In e2 es -> mid_of c e1 = Some m -> mid_of c e2 = Some m -> e1 = e2) /\
  NoDup (map part_participantId V0) /\
  (forall p, In p V0 -> (part_participantId p < next_id s)%Z) /\
  (forall p e m, In p V0 -> In e es -> mid_of c e = Some m -> part_teamId p <> Some m) /\
  (forall e m, In e es -> mid_of c e = Some m ->
               length (filter (fun p => opt_eqb p.(part_memberId) m) V0) <= 1).
Proof.
  intros Hu H. unfold populate_ok in H. rewrite Hu in H. cbv zeta in *.
  repeat match goal with H : _ && _ = true |- _ => apply andb_prop in H as [? ?] end.
  rename H0 into Hlen, H1 into Hteam, H2 into Hlt, H3 into Hnd, H4 into Hinj,
         H5 into Hne.
  split; [destruct (teams c); [reflexivity|discriminate]|].
  rewrite forallb_forall in Hlen, Hteam, Hlt, Hinj, Hne.
  split; [|split; [|split; [|split; [|split]]]].
  - intros e He. specialize (Hne e He). apply andb_prop in Hne as [H1 H2].
    split.
    + intro Heq. subst e. discriminate H1.
    + destruct (mid_of c e) as [m|]; [now exists m|discriminate].
  - intros e1 e2 m H1 H2 Hm1 Hm2. specialize (Hinj e1 H1).
    rewrite forallb_forall in Hinj. specialize (Hinj e2 H2).
    rewrite Hm1, Hm2 in Hinj. simpl in Hinj. rewrite Z.eqb_refl in Hinj.
    now apply String.eqb_eq.
  - now apply nodupb_spec.
  - intros p Hp. apply Z.ltb_lt. now apply Hlt.
  - intros p e m Hp He Hm Ht. specialize (Hteam p Hp).
    rewrite forallb_forall in Hteam. specialize (Hteam e He).
    rewrite Ht, Hm in Hteam. simpl in Hteam. now rewrite Z.eqb_refl in Hteam.
  - intros e m He Hm. specialize (Hlen e He). rewrite Hm in Hlen.
    now apply Nat.leb_le.
Qed.

Lemma existsb_filter {A} (f g : A -> bool) (l : list A) :
  existsb (fun x => f x && g x) l = existsb g (filter f l).
Proof.
  induction l as [|x l IH]; simpl; [reflexivity|].
  destruct (f x); simpl; rewrite IH; reflexivity.
Qed.

Lemma filter_map_comm {A} (f : A -> bool) (g : A -> A) (l : list A) :
  (forall x, f (g x) = f x) -> filter f (map g l) = map g (filter f l).
Proof.
  intro Hfg. induction l as [|x l IH]; simpl; [reflexivity|].
  rewrite Hfg. destruct (f x); simpl; rewrite IH; reflexivity.
Qed.

Lemma filter_filter {A} (f g : A -> bool) (l : list A) :
  filter f (filter g l) = filter (fun x => g x && f x) l.
Proof.
  induction l as [|x l IH]; simpl; [reflexivity|].
  destruct (g x); simpl; [destruct (f x); simpl; rewrite IH|rewrite IH]; reflexivity.
Qed.

(** The workspace view of the participant requests. *)
Lemma ws_set_role (c : ctx) (s : Remote.state) (i : Z) (r : string) :
  ws_participants c (snd (serve (SetParticipantRole (org_id c) (id c) i r) s))
  = set_role i r (ws_participants c s).
Proof.
  unfold ws_participants, set_role. simpl.
  rewrite filter_map_comm.
  - apply map_ext_in. intros p Hp.
    apply filter_In in Hp as [_ Hp]. rewrite Hp. reflexivity.
  - intro p. destruct (_ && _); reflexivity.
Qed.

Lemma ws_delete (c : ctx) (s : Remote.state) (i : Z) :
  ws_participants c (snd (serve (DeleteParticipant (org_id c) (id c) i) s))
  = filter (fun p => negb (Z.eqb p.(part_participantId) i)) (ws_participants c s).
Proof.
  unfold ws_participants. simpl. rewrite !filter_filter.
  apply filter_ext. intro p.
  destruct (Z.eqb (part_wsId p) (id c)), (Z.eqb (part_participantId p) i); reflexivity.
Qed.

Lemma add_participant_step (c : ctx) (role e : string) (m : Z) (w : world) :
  e <> "" -> mid_of c e = Some m ->
  let V := ws_participants c w.(remote) in
  (forall p, In p V -> part_teamId p <> Some m) ->
  length (filter (fun p => opt_eqb p.(part_memberId) m) V) <= 1 ->
  (forall p, In p V -> (part_participantId p < next_id w.(remote))%Z) ->
  exists p' w', add_participant c role (Some e) None w = (Ok p', w') /\
    ((exists q, filter (fun p => opt_eqb p.(part_memberId) m) V = [q] /\
       ws_participants c w'.(remote) = set_role q.(part_participantId) role V /\
       next_id w'.(remote) = next_id w.(remote) /\
       p'.(part_participantId) = q.(part_participantId))
     \/
     (filter (fun p => opt_eqb p.(part_memberId) m) V = [] /\
      ws_participants c w'.(remote)
      = V ++ [mkParticipant (id c) (next_id w.(remote)) (Some m) None role] /\
      next_id w'.(remote) = (next_id w.(remote) + 1)%Z /\
      p'.(part_participantId) = next_id w.(remote))).
Proof.
  intros He Hm V Hteam Hlen Hlt.
  unfold mid_of in Hm.
  destruct (find (fun kv => String.eqb (fst kv) e) (org_members c)) as [[k mem]|] eqn:Hf;
    [|discriminate]. injection Hm as Hm.
  unfold add_participant. cbv zeta.
  replace (String.eqb e "") with false by (symmetry; now apply String.eqb_neq).
  simpl negb. cbv iota. rewrite Hf. subst m.
  cbn [bind ret request need set_participant_role serve Resp.participants remote].
  fold (ws_participants c (remote w)). fold V.
  rewrite (filter_ext_in _ (fun p => opt_eqb p.(part_memberId) (mem_memberId mem))).
  2:{ intros p Hp. specialize (Hteam p Hp). destruct (part_teamId p) as [t|]; simpl; [|reflexivity].
      destruct (Z.eqb_spec t (mem_memberId mem)); [subst; congruence|reflexivity]. }
  destruct (filter _ V) as [|q [|q2 r]] eqn:HF.
  - assert (Hex : existsb (fun p => Z.eqb (part_wsId p) (id c)
                     && (opt_eqb (part_memberId p) (mem_memberId mem) || false))
                     (participants (remote w)) = false).
    { apply Bool.not_true_iff_false. intro Hx. apply existsb_exists in Hx as [p [Hp Hb]].
      apply andb_prop in Hb as [Hw Hb]. rewrite Bool.orb_false_r in Hb.
      assert (In p (filter (fun p => opt_eqb (part_memberId p) (mem_memberId mem)) V)) as Hin.
      { apply filter_In. split; [|exact Hb]. unfold V, ws_participants. apply filter_In. auto. }
      rewrite HF in Hin. destruct Hin. }
    cbv beta iota delta [bind ret request need set_participant_role serve Resp.participant].
    cbn [remote secrets log]. rewrite Hex. cbv beta iota zeta.
    do 2 eexists; split; [reflexivity|]. right. split; [reflexivity|].
    cbn [remote participants with_participants bump next_id part_participantId].
    split; [|split; reflexivity].
    unfold ws_participants at 1, with_participants, bump. cbn [participants]. rewrite filter_map_comm.
    2:{ intro p. destruct (_ && _); reflexivity. }
    rewrite filter_app, map_app. simpl filter at 2. rewrite Z.eqb_refl.
    cbn [map part_wsId part_participantId]. rewrite Z.eqb_refl, Z.eqb_refl. simpl andb.
    cbv iota. f_equal.
    erewrite map_ext_in; [apply map_id|]. intros p Hp.
    fold (ws_participants c (remote w)) in Hp. fold V in Hp.
    specialize (Hlt p Hp). unfold V, ws_participants in Hp.
    apply filter_In in Hp as [_ Hp]. rewrite Hp.
    replace (Z.eqb (part_participantId p) (next_id (remote w))) with false
      by (symmetry; apply Z.eqb_neq; lia). reflexivity.
  - do 2 eexists; split; [cbn; reflexivity|]. left. exists q.
    split; [reflexivity|]. split; [|split; reflexivity]. cbn [remote].
    exact (ws_set_role c (remote w) (part_participantId q) role).
  - exfalso. simpl in Hlen. lia.
Qed.

Lemma map_pid_set_role (i : Z) (r : string) (V : list Participant) :
  map part_participantId (set_role i r V) = map part_participantId V.
Proof.
  unfold set_role. rewrite map_map. apply map_ext. intro p.
  destruct (Z.eqb _ _); reflexivity.
Qed.

Lemma set_role_in (i : Z) (r : string) (V : list Participant) (p' : Participant) :
  In p' (set_role i r V) ->
  exists p, In p V /\ part_participantId p' = part_participantId p /\
            part_memberId p' = part_memberId p /\ part_teamId p' = part_teamId p /\
            (part_participantId p <> i -> p' = p).
Proof.
  unfold set_role. intro H. apply in_map_iff in H as [p [<- Hp]].
  exists p. split; [exact Hp|].
  destruct (Z.eqb_spec (part_participantId p) i); simpl; repeat split; auto; congruence.
Qed.

Lemma set_role_mem (i : Z) (r : string) (V : list Participant) (p : Participant) :
  In p V ->
  exists p', In p' (set_role i r V) /\ part_participantId p' = part_participantId p /\
             part_memberId p' = part_memberId p /\
             (part_participantId p <> i -> p' = p) /\
             (part_participantId p = i -> part_wspRole p' = r).
Proof.
  intro Hp. unfold set_role.
  eexists. split; [apply in_map_iff; exists p; split; [reflexivity|exact Hp]|].
  destruct (Z.eqb_spec (part_participantId p) i); simpl; repeat split; auto; congruence.
Qed.

Lemma filter_set_role_len (i : Z) (r : string) (V : list Participant) (m : Z) :
  length (filter (fun p => opt_eqb p.(part_memberId) m) (set_role i r V))
  = length (filter (fun p => opt_eqb p.(part_memberId) m) V).
Proof.
  unfold set_role. rewrite filter_map_comm, length_map; [reflexivity|].
  intro p. destruct (Z.eqb _ _); reflexivity.
Qed.

Lemma nodup_pid_eq (V : list Participant) (a b : Participant) :
  NoDup (map part_participantId V) -> In a V -> In b V ->
  part_participantId a = part_participantId b -> a = b.
Proof.
  induction V as [|x V IH]; simpl; [tauto|].
  intros Hnd Ha Hb Hab. inversion Hnd as [|? ? Hx Hnd']; subst.
  destruct Ha as [<-|Ha], Hb as [<-|Hb]; auto.
  - exfalso. apply Hx. rewrite Hab. now apply in_map.
  - exfalso. apply Hx. rewrite <- Hab. now apply in_map.
Qed.

Lemma filter_le1_eq {A} (f : A -> bool) (l : list A) (a b : A) :
  length (filter f l) <= 1 -> In a l -> In b l -> f a = true -> f b = true -> a = b.
Proof.
  intros Hlen Ha Hb Hfa Hfb.
  assert (Ha' : In a (filter f l)) by (apply filter_In; auto).
  assert (Hb' : In b (filter f l)) by (apply filter_In; auto).
  destruct (filter f l) as [|x [|y t]]; simpl in *; [tauto| |lia].
  destruct Ha' as [<-|[]], Hb' as [<-|[]]. reflexivity.
Qed.

Lemma NoDup_snoc {A} (l : list A) (x : A) : NoDup l -> ~ In x l -> NoDup (l ++ [x]).
Proof.
  induction l as [|y l IH]; simpl; intros Hnd Hx.
  - constructor; [tauto|constructor].
  - inversion Hnd as [|? ? Hy Hnd']; subst. constructor.
    + rewrite in_app_iff. simpl. intros [H|[H|[]]]; [tauto|]. subst. tauto.
    + apply IH; tauto.
Qed.

Lemma last_role_snoc (e' e g r : string) (D1 : list (string * string * string)) :
  last_role e' (D1 ++ [(e, g, r)]) = if String.eqb e e' then Some r else last_role e' D1.
Proof. unfold last_role. rewrite fold_left_app. reflexivity. Qed.

Lemma last_role_in_aux (e r : string) (D : list (string * string * string)) (acc : option string) :
  fold_left (fun acc '(e', _, r) => if String.eqb e' e then Some r else acc) D acc = Some r ->
  acc = Some r \/ exists g, In (e, g, r) D.
Proof.
  revert acc. induction D as [|[[e0 g0] r0] D IH]; simpl; intros acc H; [now left|].
  destruct (IH _ H) as [Hacc|[g Hg]].
  - destruct (String.eqb_spec e0 e); [|now left].
    injection Hacc as <-. subst. right. exists g0. now left.
  - right. exists g. now right.
Qed.

Lemma last_role_in (e r : string) (D : list (string * string * string)) :
  last_role e D = Some r -> exists g, In (e, g, r) D.
Proof. intro H. destruct (last_role_in_aux e r D None H) as [H'|H']; [discriminate|exact H']. Qed.

Lemma processed_snoc (c : ctx) (D1 : list (string * string * string)) (e g r : string)
    (m : Z) (om : option Z) :
  mid_of c e = Some m ->
  processed c (D1 ++ [(e, g, r)]) om <-> processed c D1 om \/ om = Some m.
Proof.
  intro Hm. unfold processed. split.
  - intros (e0 & g0 & r0 & Hin & Hom). apply in_app_or in Hin as [Hin|[Heq|[]]].
    + left. eauto.
    + injection Heq as -> -> ->. right. congruence.
  - intros [(e0 & g0 & r0 & Hin & Hom)|Hom].
    + exists e0, g0, r0. split; [apply in_or_app; now left|exact Hom].
    + exists e, g, r. split; [apply in_or_app; right; now left|congruence].
Qed.

(** One round of the loop of [populate] keeps the invariant. *)
Lemma loop_step (c : ctx) (es : list string) (V0 : list Participant)
    (D1 : list (string * string * string)) (e g r : string) (w : world) (vs : list Z) :
  (forall e, In e es -> e <> "" /\ exists m, mid_of c e = Some m) ->
  (forall e1 e2 m, In e1 es -> In e2 es -> mid_of c e1 = Some m -> mid_of c e2 = Some m -> e1 = e2) ->
  (forall e' g' r', In (e', g', r') D1 -> In e' es) ->
  In e es ->
  loop_inv c es V0 D1 (remote w) vs ->
  exists p' w', add_participant c r (Some e) None w = (Ok p', w') /\
    loop_inv c es V0 (D1 ++ [(e, g, r)]) (remote w') (part_participantId p' :: vs).
Proof.
  intros Hes Hinj HD1 He Hinv.
  destruct (Hes e He) as [Hne [m Hm]].
  destruct Hinv as [J1 Jlt J2 J3 J4 J5 J6 J7 J8].
  destruct (add_participant_step c r e m w Hne Hm) as (p' & w' & Hrun & Hcase).
  { intros p Hp. exact (J2 p e m Hp He Hm). }
  { exact (J3 e m He Hm). }
  { exact Jlt. }
  exists p', w'. split; [exact Hrun|].
  pose proof (fun om => processed_snoc c D1 e g r m om Hm) as Hproc.
  set (V := ws_participants c (remote w)) in *.
  destruct Hcase as [(q & Hq & HV' & HN' & Hpid) | (Hq & HV' & HN' & Hpid)].
  - (* the participant [q] of [e] is reused *)
    assert (HqV : In q V /\ part_memberId q = Some m).
    { assert (Hin : In q (filter (fun p => opt_eqb p.(part_memberId) m) V)) by (rewrite Hq; now left).
      apply filter_In in Hin as [Hin Hb]. split; [exact Hin|].
      destruct (part_memberId q) as [x|]; simpl in Hb; [|discriminate].
      apply Z.eqb_eq in Hb. congruence. }
    destruct HqV as [HqV Hqm].
    rewrite Hpid. constructor; rewrite ?HV', ?HN'.
    + rewrite map_pid_set_role. exact J1.
    + intros p2 Hp2. apply set_role_in in Hp2 as (p & Hp & Hpid2 & _).
      rewrite Hpid2. now apply Jlt.
    + intros p2 e2 m2 Hp2. apply set_role_in in Hp2 as (p & Hp & _ & _ & Ht & _).
      rewrite Ht. now apply J2.
    + intros e2 m2 He2 Hm2. rewrite filter_set_role_len. now apply J3 with e2.
    + intros e2 r2 Hr2. rewrite last_role_snoc in Hr2.
      destruct (String.eqb_spec e e2) as [<-|Hne2].
      * injection Hr2 as <-.
        destruct (set_role_mem (part_participantId q) r V q HqV) as (p2 & Hp2 & Hpid2 & Hm2 & _ & Hr).
        exists p2. repeat split; auto.
        -- congruence.
        -- rewrite Hpid2. now left.
      * destruct (J4 e2 r2 Hr2) as (p & Hp & Hpm & Hpr & Hpv).
        destruct (set_role_mem (part_participantId q) r V p Hp) as (p2 & Hp2 & Hpid2 & Hm2 & Hsame & _).
        destruct (Z.eq_dec (part_participantId p) (part_participantId q)) as [Heq|Hneq].
        -- exfalso. assert (p = q) as -> by (now apply nodup_pid_eq with V).
           destruct (last_role_in e2 r2 D1 Hr2) as [g2 Hg2].
           apply Hne2. apply (Hinj e e2 m He (HD1 _ _ _ Hg2) Hm). congruence.
        -- specialize (Hsame Hneq). subst p2. exists p. repeat split; auto. now right.
    + intros p2 Hp2 Hnp. apply set_role_in in Hp2 as (p & Hp & Hpid2 & Hm2 & _ & Hsame).
      destruct (Z.eq_dec (part_participantId p) (part_participantId q)) as [Heq|Hneq].
      * exfalso. assert (p = q) as -> by (now apply nodup_pid_eq with V).
        apply Hnp. apply Hproc. right. congruence.
      * rewrite (Hsame Hneq). apply J5; [exact Hp|].
        intro Hpr. apply Hnp. apply Hproc. left. rewrite Hm2. exact Hpr.
    + intros i [<-|Hi].
      * right. destruct (set_role_mem (part_participantId q) r V q HqV) as (p2 & Hp2 & Hpid2 & Hm2 & _).
        exists p2. repeat split; auto. apply Hproc. right. congruence.
      * destruct (J6 i Hi) as [Ho|(p & Hp & Hpr & Hpi)]; [now left|right].
        destruct (set_role_mem (part_participantId q) r V p Hp) as (p2 & Hp2 & Hpid2 & Hm2 & _).
        exists p2. repeat split; auto; [|congruence]. apply Hproc. left. congruence.
    + intros o Ho. destruct (J7 o Ho) as (p & Hp & Hpid2 & Hm2 & Hsame).
      destruct (set_role_mem (part_participantId q) r V p Hp) as (p2 & Hp2 & Hpid3 & Hm3 & Hs & _).
      exists p2. repeat split; [exact Hp2|congruence|congruence|].
      intro Hnp. assert (Hnp0 : ~ processed c D1 (part_memberId o)) by (intro H0; apply Hnp, Hproc; now left).
      specialize (Hsame Hnp0). subst p.
      destruct (Z.eq_dec (part_participantId o) (part_participantId q)) as [Heq|Hneq].
      * exfalso. assert (o = q) as -> by (now apply nodup_pid_eq with V).
        apply Hnp, Hproc. right. exact Hqm.
      * exact (Hs Hneq).
    + intros o Ho Hown. right. now apply J8.
  - (* a new participant is added for [e] *)
    rewrite Hpid. constructor; rewrite ?HV', ?HN'.
    + rewrite map_app. apply NoDup_snoc; [exact J1|].
      intro Hin. apply in_map_iff in Hin as [p [Hpe Hp]]. specialize (Jlt p Hp). simpl in Hpe. lia.
    + intros p2 Hp2. apply in_app_or in Hp2 as [Hp2|[<-|[]]].
      * specialize (Jlt p2 Hp2). lia.
      * simpl. lia.
    + intros p2 e2 m2 Hp2 He2 Hm2. apply in_app_or in Hp2 as [Hp2|[<-|[]]].
      * now apply J2 with e2.
      * simpl. discriminate.
    + intros e2 m2 He2 Hm2. rewrite filter_app, length_app. simpl.
      destruct (Z.eqb_spec m m2) as [<-|Hneq]; simpl.
      * rewrite Hq. simpl. lia.
      * specialize (J3 e2 m2 He2 Hm2). lia.
    + intros e2 r2 Hr2. rewrite last_role_snoc in Hr2.
      destruct (String.eqb_spec e e2) as [<-|Hne2].
      * injection Hr2 as <-. exists (mkParticipant (id c) (next_id (remote w)) (Some m) None r). repeat split.
        -- apply in_or_app. right. now left.
        -- simpl. congruence.
        -- now left.
      * destruct (J4 e2 r2 Hr2) as (p & Hp & Hpm & Hpr & Hpv).
        exists p. repeat split; auto; [apply in_or_app; now left|now right].
    + intros p2 Hp2 Hnp. apply in_app_or in Hp2 as [Hp2|[<-|[]]].
      * apply J5; [exact Hp2|]. intro H0. apply Hnp, Hproc. now left.
      * exfalso. apply Hnp, Hproc. now right.
    + intros i [<-|Hi].
      * right. exists (mkParticipant (id c) (next_id (remote w)) (Some m) None r). repeat split.
        -- apply in_or_app. right. now left.
        -- apply Hproc. now right.
      * destruct (J6 i Hi) as [Ho|(p & Hp & Hpr & Hpi)]; [now left|right].
        exists p. repeat split; auto; [apply in_or_app; now left|]. apply Hproc. now left.
    + intros o Ho. destruct (J7 o Ho) as (p & Hp & Hpid2 & Hm2 & Hsame).
      exists p. repeat split; auto; [apply in_or_app; now left|].
      intro Hnp. apply Hsame. intro H0. apply Hnp, Hproc. now left.
    + intros o Ho Hown. right. now apply J8.
Qed.

(** The loop of [populate] over the users. *)
Lemma loop_run (c : ctx) (es : list string) (V0 : list Participant)
    (D2 : list (string * string * string)) :
  (forall e, In e es -> e <> "" /\ exists m, mid_of c e = Some m) ->
  (forall e1 e2 m, In e1 es -> In e2 es -> mid_of c e1 = Some m -> mid_of c e2 = Some m -> e1 = e2) ->
  forall D1 w vs,
  (forall e' g' r', In (e', g', r') (D1 ++ D2) -> In e' es) ->
  loop_inv c es V0 D1 (remote w) vs ->
  exists vs' w',
    foldM (fun verified '(user, _, role) =>
             let* part := add_participant c role (Some user) None in
             ret (part.(part_participantId) :: verified)) D2 vs w = (Ok vs', w') /\
    loop_inv c es V0 (D1 ++ D2) (remote w') vs'.
Proof.
  intros Hes Hinj. induction D2 as [|[[e g] r] D2 IH]; intros D1 w vs HD Hinv.
  - exists vs, w. rewrite app_nil_r. split; [reflexivity|exact Hinv].
  - destruct (loop_step c es V0 D1 e g r w vs Hes Hinj) as (p' & w' & Hrun & Hinv').
    + intros e' g' r' H. apply (HD e' g' r'). apply in_or_app. now left.
    + apply (HD e g r). apply in_or_app. right. now left.
    + exact Hinv.
    + destruct (IH (D1 ++ [(e, g, r)]) w' (part_participantId p' :: vs)) as (vs' & w'' & Hf & Hi).
      * rewrite <- app_assoc. exact HD.
      * exact Hinv'.
      * exists vs', w''. rewrite <- app_assoc in Hi. split; [|exact Hi].
        simpl foldM. unfold bind at 1 2. rewrite Hrun. exact Hf.
Qed.

Lemma list_participants_run (c : ctx) (w : world) :
  exists w', list_participants c w = (Ok (ws_participants c (remote w)), w') /\
             remote w' = remote w.
Proof. eexists. split; reflexivity. Qed.

Lemma list_owner_participant_ids_run (c : ctx) (w : world) :
  exists w', list_owner_participant_ids c w
             = (Ok (map part_participantId
                     (filter (fun p => String.eqb p.(part_wspRole) "owner")
                             (ws_participants c (remote w)))), w') /\
             remote w' = remote w.
Proof. eexists. split; reflexivity. Qed.

Lemma filter_all_true {A} (f : A -> bool) (l : list A) :
  (forall x, In x l -> f x = true) -> filter f l = l.
Proof.
  induction l as [|x l IH]; simpl; intro H; [reflexivity|].
  rewrite (H x (or_introl eq_refl)). f_equal. apply IH. intros y Hy. apply H. now right.
Qed.

Lemma bind_ok {A B} (m : M A) (k : A -> M B) (w : world) (a : A) (w1 : world)
    (res : result B * world) :
  m w = (Ok a, w1) -> k a w1 = res -> bind m k w = res.
Proof. intros H1 H2. unfold bind. rewrite H1. exact H2. Qed.

(** The deletion loop of [populate]: the participants listed in [L] whose
    identifier is not verified are deleted. *)
Lemma delete_loop (c : ctx) (vs : list Z) (L : list Participant) :
  forall w,
  fst (forM_ L (fun part =>
          if existsb (Z.eqb part.(part_participantId)) vs then ret tt
          else let* _ := remove_participant c part.(part_participantId) in ret tt) w) = Ok tt /\
  ws_participants c (remote (snd (forM_ L (fun part =>
          if existsb (Z.eqb part.(part_participantId)) vs then ret tt
          else let* _ := remove_participant c part.(part_participantId) in ret tt) w)))
  = filter (fun p => existsb (Z.eqb p.(part_participantId)) vs
                     || negb (existsb (fun q => Z.eqb q.(part_participantId) p.(part_participantId)) L))
           (ws_participants c (remote w)).
Proof.
  induction L as [|x L IH]; intro w.
  - split; [reflexivity|]. simpl. symmetry. apply filter_all_true. intros p _.
    apply Bool.orb_true_r.
  - simpl forM_. destruct (existsb (Z.eqb (part_participantId x)) vs) eqn:Hx.
    + rewrite OrderProofs.bind_ret_l. destruct (IH w) as [Hok Hv]. split; [exact Hok|].
      rewrite Hv. apply filter_ext. intro p. simpl.
      destruct (Z.eqb_spec (part_participantId x) (part_participantId p)) as [Heq|]; simpl;
        [|reflexivity].
      rewrite <- Heq, Hx. reflexivity.
    + set (i := part_participantId x).
      set (w1 := mkWorld (snd (serve (DeleteParticipant (org_id c) (id c) i) (remote w)))
                         (secrets w)
                         (log w ++ [EvRequest (DeleteParticipant (org_id c) (id c) i)
                                              (fst (serve (DeleteParticipant (org_id c) (id c) i) (remote w)))])).
      assert (Hstep : (let* _ := remove_participant c i in ret tt) w = (Ok tt, w1)) by reflexivity.
      rewrite (bind_ok _ _ w tt w1 _ Hstep eq_refl). cbv beta.
      destruct (IH w1) as [Hok Hv]. split; [exact Hok|].
      rewrite Hv. unfold w1. cbn [remote]. rewrite ws_delete, filter_filter.
      apply filter_ext. intro p. simpl.
      rewrite (Z.eqb_sym (part_participantId x)). fold i.
      destruct (Z.eqb_spec (part_participantId p) i) as [Heq|]; simpl; [|reflexivity].
      rewrite Heq. fold i in Hx. rewrite Hx. reflexivity.
Qed.

Lemma last_role_map (e g r : string) (l : list string) (acc : option string) :
  fold_left (fun acc '(e', _, r) => if String.eqb e' e then Some r else acc)
            (map (fun x => (x, g, r)) l) acc
  = if existsb (String.eqb e) l then Some r else acc.
Proof.
  revert acc. induction l as [|x l IH]; intro acc; simpl; [reflexivity|].
  rewrite IH, (String.eqb_sym x e). destruct (String.eqb e x), (existsb _ l); reflexivity.
Qed.

(** The last role the loop gives to a user is the role of the last group
    that lists it. *)
Lemma last_role_list_users (u : Users.t) (e : string) :
  last_role e (Users.list_users u) = last_bucket_role u e.
Proof.
  unfold last_role, Users.list_users, last_bucket_role.
  rewrite !fold_left_app, !last_role_map.
  destruct (existsb (String.eqb e) (Users.viewers u)); [reflexivity|].
  destruct (existsb (String.eqb e) (Users.launchers u)); [reflexivity|].
  destruct (existsb (String.eqb e) (Users.maintainers u)); [reflexivity|].
  destruct (existsb (String.eqb e) (Users.admins u)); [reflexivity|].
  destruct (existsb (String.eqb e) (Users.owners u)); reflexivity.
Qed.

Lemma processed_desired (c : ctx) (u : Users.t) (p : Participant) :
  processed c (Users.list_users u) (part_memberId p) <-> desired c u p.
Proof.
  unfold processed, desired, user_emails. split.
  - intros (e & g & r & Hin & Hm). exists e. split; [|exact Hm].
    apply in_map_iff. exists (e, g, r). auto.
  - intros (e & Hin & Hm). apply in_map_iff in Hin as [[[e' g] r] [He Hin]].
    simpl in He. subst e'. exists e, g, r. auto.
Qed.

(** The run of [populate] under [populate_ok]: it succeeds, the loop ends
    with the invariant over all the users, and the participants left are
    those of the loop's end whose identifier is verified. *)
Lemma populate_run (c : ctx) (u : Users.t) (w : world) :
  users c = Some u -> populate_ok c (remote w) = true ->
  exists vs w1,
    fst (populate c w) = Ok tt /\
    loop_inv c (user_emails u) (ws_participants c (remote w)) (Users.list_users u) (remote w1) vs /\
    ws_participants c (remote (snd (populate c w)))
    = filter (fun p => existsb (Z.eqb p.(part_participantId)) vs) (ws_participants c (remote w1)).
Proof.
  intros Hu Hok.
  destruct (populate_ok_spec c (remote w) u Hu Hok)
    as (Hteams & Hes & Hinj & Hnd & Hlt & Hteam & Hone).
  set (V0 := ws_participants c (remote w)) in *.
  destruct (list_owner_participant_ids_run c w) as (w0 & Hlo & Hr0).
  fold V0 in Hlo.
  destruct (loop_run c (user_emails u) V0 (Users.list_users u) Hes Hinj [] w0
              (map part_participantId (filter (fun p => String.eqb p.(part_wspRole) "owner") V0)))
    as (vs & w1 & Hfold & Hinv).
  { intros e' g' r' Hin. apply in_map_iff. exists (e', g', r'). auto. }
  { rewrite Hr0. fold V0. constructor.
    - exact Hnd.
    - exact Hlt.
    - intros p e m Hp He Hm. exact (Hteam p e m Hp He Hm).
    - exact Hone.
    - intros e r Hr. discriminate Hr.
    - intros p Hp _. exact Hp.
    - intros i Hi. left. apply in_map_iff in Hi as [o [Ho Hin]].
      apply filter_In in Hin as [Hin Hown]. exists o. repeat split; auto.
      now apply String.eqb_eq.
    - intros o Ho. exists o. repeat split; auto.
    - intros o Ho Hown. apply in_map. apply filter_In. split; [exact Ho|].
      now apply String.eqb_eq. }
  destruct (list_participants_run c w1) as (w2 & Hlp & Hr2).
  destruct (delete_loop c vs (ws_participants c (remote w1)) w2) as [Hdok Hview].
  destruct (forM_ _ _ w2) as [res w3] eqn:Hdel. simpl in Hdok. subst res.
  assert (Hpop : populate c w = (Ok tt, w3)).
  { unfold populate. rewrite Hu, Hteams. cbv beta iota.
    apply (bind_ok _ _ _ tt w3); [|reflexivity].
    apply (bind_ok _ _ _ _ w0 _ Hlo). cbv beta.
    apply (bind_ok _ _ _ _ w1 _ Hfold). cbv beta.
    apply (bind_ok _ _ _ _ w2 _ Hlp). cbv beta.
    exact Hdel. }
  exists vs, w1. rewrite Hpop. split; [reflexivity|]. split; [exact Hinv|].
  simpl snd in Hview |- *. rewrite Hview, Hr2. apply filter_ext_in. intros p Hp.
  replace (existsb (fun q => Z.eqb q.(part_participantId) p.(part_participantId))
                   (ws_participants c (remote w1))) with true.
  - rewrite Bool.orb_false_r. reflexivity.
  - symmetry. apply existsb_exists. exists p. split; [exact Hp|]. apply Z.eqb_refl.
Qed.

Lemma last_role_some_aux (e g r : string) (D : list (string * string * string)) :
  forall acc, (In (e, g, r) D \/ acc <> None) ->
  fold_left (fun acc '(e', _, r) => if String.eqb e' e then Some r else acc) D acc <> None.
Proof.
  induction D as [|[[e0 g0] r0] D IH]; simpl; intros acc H.
  - destruct H as [[]|H]; exact H.
  - apply IH. destruct H as [[Heq|Hin]|Hacc].
    + injection Heq as -> -> ->. right. rewrite String.eqb_refl. discriminate.
    + now left.
    + right. destruct (String.eqb e0 e); [discriminate|exact Hacc].
Qed.

Lemma last_role_some (e g r : string) (D : list (string * string * string)) :
  In (e, g, r) D -> exists r', last_role e D = Some r'.
Proof.
  intro Hin. unfold last_role.
  destruct (fold_left _ D None) as [r'|] eqn:H; [now exists r'|].
  exfalso. exact (last_role_some_aux e g r D None (or_introl Hin) H).
Qed.

Lemma classic_processed (c : ctx) (D : list (string * string * string)) (om : option Z) :
  processed c D om \/ ~ processed c D om.
Proof.
  induction D as [|[[e g] r] D IH].
  - right. intros (e & g & r & [] & _).
  - destruct (opt_eqb2 om (mid_of c e)) eqn:Hb.
    + left. exists e, g, r. split; [now left|]. now apply opt_eqb2_eq.
    + destruct IH as [(e' & g' & r' & Hin & Hm)|Hn].
      * left. exists e', g', r'. split; [now right|exact Hm].
      * right. intros (e' & g' & r' & [Heq|Hin] & Hm).
        -- injection Heq as -> -> ->. apply opt_eqb2_eq in Hm. congruence.
        -- apply Hn. exists e', g', r'. auto.
Qed.

Lemma verified_in (vs : list Z) (V : list Participant) (p : Participant) :
  In p (filter (fun p => existsb (Z.eqb p.(part_participantId)) vs) V) ->
  In p V /\ In (part_participantId p) vs.
Proof.
  intro H. apply filter_In in H as [Hp Hb]. split; [exact Hp|].
  apply existsb_exists in Hb as [i [Hi Heq]]. apply Z.eqb_eq in Heq. congruence.
Qed.

Lemma verified_mem (vs : list Z) (V : list Participant) (p : Participant) :
  In p V -> In (part_participantId p) vs ->
  In p (filter (fun p => existsb (Z.eqb p.(part_participantId)) vs) V).
Proof.
  intros Hp Hi. apply filter_In. split; [exact Hp|].
  apply existsb_exists. exists (part_participantId p). split; [exact Hi|apply Z.eqb_refl].
Qed.

Lemma opt_eqb_some (o : option Z) (m : Z) : o = Some m -> opt_eqb o m = true.
Proof. intros ->. simpl. apply Z.eqb_refl. Qed.

Example populate_reconciles_example :
  ws_participants ctx_pop (remote (snd (populate ctx_pop world_pop)))
  = [mkParticipant 7 11 (Some 1%Z) None "maintain";
     mkParticipant 7 13 (Some 3%Z) None "owner";
     mkParticipant 7 20 (Some 4%Z) None "view"].
Proof. vm_compute. reflexivity. Qed.

Example populate_last_bucket_example :
  ws_participants ctx_dup (remote (snd (populate ctx_dup world_dup)))
  = [mkParticipant 7 11 (Some 1%Z) None "view"].
Proof. vm_compute. reflexivity. Qed.

(** C2: participant reconciliation.  When [populate] runs on a workspace
    configured with users and no teams, where every user is a member of
    the organization ([populate_ok]), it succeeds and afterwards: (1) every
    participant either stands for a configured user and holds the role the
    loop gives that user, or is a pre-existing owner that stands for no
    configured user; (2) every configured user has a participant with its
    role; (3) every pre-existing owner that stands for no configured user is
    kept unchanged; (4) every other pre-existing participant that stands for
    no configured user is removed: no participant has its identifier. *)
Theorem C2_populate_reconciles (c : ctx) (u : Users.t) (w : world) :
  users c = Some u -> populate_ok c (remote w) = true ->
  let V0 := ws_participants c (remote w) in
  let Vf := ws_participants c (remote (snd (populate c w))) in
  fst (populate c w) = Ok tt /\
  (forall p, In p Vf ->
     (exists e, In e (user_emails u) /\ part_memberId p = mid_of c e /\
                last_bucket_role u e = Some (part_wspRole p)) \/
     (In p V0 /\ part_wspRole p = "owner" /\ ~ desired c u p)) /\
  (forall e r, last_bucket_role u e = Some r ->
     exists p, In p Vf /\ part_memberId p = mid_of c e /\ part_wspRole p = r) /\
  (forall o, In o V0 -> part_wspRole o = "owner" -> ~ desired c u o -> In o Vf) /\
  (forall o p, In o V0 -> part_wspRole o <> "owner" -> ~ desired c u o -> In p Vf ->
     part_participantId p <> part_participantId o).
Proof.
  intros Hu Hok V0 Vf.
  destruct (populate_ok_spec c (remote w) u Hu Hok)
    as (_ & Hes & Hinj & Hnd0 & _ & _ & _).
  destruct (populate_run c u w Hu Hok) as (vs & w1 & Hrun & Hinv & Hview).
  fold V0 in Hinv, Hnd0. fold Vf in Hview.
  destruct Hinv as [J1 _ _ J3 J4 J5 J6 J7 J8].
  set (V1 := ws_participants c (remote w1)) in *.
  split; [exact Hrun|]. split; [|split; [|split]].
  - intros p Hp. rewrite Hview in Hp. apply verified_in in Hp as [Hp Hpv].
    destruct (classic_processed c (Users.list_users u) (part_memberId p)) as [Hpr|Hnpr].
    + left. destruct Hpr as (e & g & r & Hin & Hm).
      assert (He : In e (user_emails u)) by (apply in_map_iff; exists (e, g, r); auto).
      destruct (proj2 (Hes e He)) as [m Hme].
      destruct (last_role_some e g r _ Hin) as [r' Hr'].
      destruct (J4 e r' Hr') as (p2 & Hp2 & Hm2 & Hr2 & _).
      exists e. split; [exact He|]. split; [exact Hm|].
      rewrite <- last_role_list_users.
      assert (p = p2) as <-.
      { apply (filter_le1_eq _ _ _ _ (J3 e m He Hme) Hp Hp2);
          apply opt_eqb_some; congruence. }
      congruence.
    + right. pose proof (J5 p Hp Hnpr) as Hp0.
      destruct (J6 _ Hpv) as [(o & Ho & Hown & Hpid)|(p2 & Hp2 & Hpr2 & Hpid)].
      * assert (o = p) as <- by (now apply nodup_pid_eq with V0).
        repeat split; auto. rewrite <- processed_desired. exact Hnpr.
      * exfalso. assert (p2 = p) as <- by (now apply nodup_pid_eq with V1).
        exact (Hnpr Hpr2).
  - intros e r Hr. rewrite <- last_role_list_users in Hr.
    destruct (J4 e r Hr) as (p & Hp & Hm & Hrole & Hpv).
    exists p. rewrite Hview. split; [now apply verified_mem|auto].
  - intros o Ho Hown Hnd. rewrite <- processed_desired in Hnd.
    destruct (J7 o Ho) as (p & Hp & _ & _ & Hsame). rewrite (Hsame Hnd) in Hp.
    rewrite Hview. apply verified_mem; [exact Hp|]. now apply J8.
  - intros o p Ho Hown Hnd Hp Hpid. rewrite <- processed_desired in Hnd.
    rewrite Hview in Hp. apply verified_in in Hp as [Hp Hpv].
    destruct (J6 _ Hpv) as [(o2 & Ho2 & Hown2 & Hpid2)|(p2 & Hp2 & Hpr2 & Hpid2)].
    + assert (o2 = o) as <- by (apply nodup_pid_eq with V0; auto; congruence).
      exact (Hown Hown2).
    + destruct (J7 o Ho) as (p3 & Hp3 & Hpid3 & Hm3 & _).
      assert (p2 = p3) as <- by (apply nodup_pid_eq with V1; auto; congruence).
      apply Hnd. rewrite <- Hm3. exact Hpr2.
Qed.

Lemma C2_populate_reconciles_witness :
  users ctx_pop = Some users_pop /\ populate_ok ctx_pop (remote world_pop) = true /\
  fst (populate ctx_pop world_pop) = Ok tt.
Proof.
  assert (H : populate_ok ctx_pop (remote world_pop) = true) by (vm_compute; reflexivity).
  split; [reflexivity|]. split; [exact H|].
  exact (proj1 (C2_populate_reconciles ctx_pop users_pop world_pop eq_refl H)).
Defined.

(** C10: a user listed in several groups.  When [populate] runs under
    [populate_ok], every configured user [e] ends up with exactly one
    participant in the workspace, and its role is the role of the last
    group listing [e] in the order owners, admins, maintainers, launchers,
    viewers. *)
Theorem C10_last_bucket_role_wins (c : ctx) (u : Users.t) (w : world) :
  users c = Some u -> populate_ok c (remote w) = true ->
  forall e r, last_bucket_role u e = Some r ->
  exists p, In p (ws_participants c (remote (snd (populate c w)))) /\
            part_memberId p = mid_of c e /\ part_wspRole p = r /\
            forall p', In p' (ws_participants c (remote (snd (populate c w)))) ->
                       part_memberId p' = mid_of c e -> p' = p.
Proof.
  intros Hu Hok e r Hr.
  destruct (populate_ok_spec c (remote w) u Hu Hok) as (_ & Hes & _ & _ & _ & _ & _).
  destruct (populate_run c u w Hu Hok) as (vs & w1 & _ & Hinv & Hview).
  destruct Hinv as [_ _ _ J3 J4 _ _ _ _].
  rewrite <- last_role_list_users in Hr.
  destruct (last_role_in e r _ Hr) as [g Hin].
  assert (He : In e (user_emails u)) by (apply in_map_iff; exists (e, g, r); auto).
  destruct (proj2 (Hes e He)) as [m Hm].
  destruct (J4 e r Hr) as (p & Hp & Hpm & Hrole & Hpv).
  exists p. rewrite Hview. split; [now apply verified_mem|]. split; [exact Hpm|].
  split; [exact Hrole|].
  intros p' Hp' Hp'm. apply verified_in in Hp' as [Hp' _].
  apply (filter_le1_eq _ _ _ _ (J3 e m He Hm) Hp' Hp); apply opt_eqb_some; congruence.
Qed.

Lemma C10_last_bucket_role_wins_witness :
  users ctx_dup = Some users_dup /\ populate_ok ctx_dup (remote world_dup) = true /\
  last_bucket_role users_dup "a@x.org" = Some "view" /\
  exists p, In p (ws_participants ctx_dup (remote (snd (populate ctx_dup world_dup)))) /\
            part_memberId p = mid_of ctx_dup "a@x.org" /\ part_wspRole p = "view" /\
            forall p', In p' (ws_participants ctx_dup (remote (snd (populate ctx_dup world_dup)))) ->
                       part_memberId p' = mid_of ctx_dup "a@x.org" -> p' = p.
Proof.
  assert (H : populate_ok ctx_dup (remote world_dup) = true) by (vm_compute; reflexivity).
  split; [reflexivity|]. split; [exact H|]. split; [reflexivity|].
  exact (C10_last_bucket_role_wins ctx_dup users_dup world_dup eq_refl H "a@x.org" "view" eq_refl).
Defined.

End PartProofs.

(* ------------------------------------------------------------------ *)
(** ** The remaining pure code: [list_teams], stack outputs, emails *)

Module ExtraProofs.
Import Users UsersTeams ExtraSpec.

Lemma key_eqb_refl (k : string * string) : key_eqb k k = true.
Proof. destruct k; unfold key_eqb; simpl; rewrite !String.eqb_refl; reflexivity. Qed.

Lemma dd_append_absent (k : string * string) (x : string) (d : list ((string * string) * list string)) :
  forallb (fun kv => negb (key_eqb k (fst kv))) d = true ->
  dd_append k x d = d ++ [(k, [x])].
Proof.
  induction d as [|[k' l] d IH]; simpl; [reflexivity|].
  intros H; apply andb_prop in H as [H1 H2].
  unfold key_eqb in H1; simpl in H1.
  destruct (String.eqb (fst k) (fst k') && String.eqb (snd k) (snd k')); [discriminate|].
  rewrite IH by exact H2; reflexivity.
Qed.

Lemma dd_append_last (k : string * string) (x : string) (d : list ((string * string) * list string))
    (acc : list string) :
  forallb (fun kv => negb (key_eqb k (fst kv))) d = true ->
  dd_append k x (d ++ [(k, acc)]) = d ++ [(k, acc ++ [x])].
Proof.
  induction d as [|[k' l] d IH]; simpl.
  - intros _. pose proof (key_eqb_refl k) as Hk; unfold key_eqb in Hk; rewrite Hk; reflexivity.
  - intros H; apply andb_prop in H as [H1 H2].
    unfold key_eqb in H1; simpl in H1.
    destruct (String.eqb (fst k) (fst k') && String.eqb (snd k) (snd k')); [discriminate|].
    rewrite IH by exact H2; reflexivity.
Qed.

Lemma fold_group (f : list ((string * string) * list string) -> string * string * string ->
                      list ((string * string) * list string))
    (g r : string) (l : list string) (d : list ((string * string) * list string)) :
  (forall d x, f d (x, g, r) = dd_append (g, r) x d) ->
  forallb (fun kv => negb (key_eqb (g, r) (fst kv))) d = true ->
  fold_left f (map (fun x => (x, g, r)) l) d = grp d (g, r) l.
Proof.
  intros Hf Hd. destruct l as [|x l]; [reflexivity|].
  simpl. rewrite Hf, dd_append_absent by exact Hd.
  assert (forall acc, fold_left f (map (fun x => (x, g, r)) l) (d ++ [(g, r, acc)])
                      = d ++ [(g, r, acc ++ l)]) as Hacc.
  { induction l as [|y l IH]; intros acc; simpl; [rewrite app_nil_r; reflexivity|].
    rewrite Hf, dd_append_last by exact Hd.
    rewrite IH, <- app_assoc; reflexivity. }
  rewrite Hacc. reflexivity.
Qed.

Lemma dict_get_set (k k' v : string) (d : Tags.dict) :
  Tags.dict_get k (Tags.dict_set k' v d) =
  if String.eqb k k' then Some v else Tags.dict_get k d.
Proof.
  induction d as [|[k1 v1] d IH]; simpl.
  - reflexivity.
  - destruct (String.eqb k' k1) eqn:E1.
    + apply String.eqb_eq in E1; subst k1; simpl.
      destruct (String.eqb k k'); reflexivity.
    + simpl. rewrite IH.
      destruct (String.eqb k k1) eqn:E2; [|reflexivity].
      apply String.eqb_eq in E2; subst k1.
      destruct (String.eqb k k') eqn:E3; [|reflexivity].
      apply String.eqb_eq in E3; subst k'. rewrite String.eqb_refl in E1; discriminate.
Qed.

Lemma dict_keys_set (k v : string) (d : Tags.dict) :
  Tags.dict_keys (Tags.dict_set k v d) =
  if existsb (String.eqb k) (Tags.dict_keys d) then Tags.dict_keys d
  else Tags.dict_keys d ++ [k].
Proof.
  unfold Tags.dict_keys.
  induction d as [|[k1 v1] d IH]; simpl; [reflexivity|].
  destruct (String.eqb k k1) eqn:E; simpl; [reflexivity|].
  rewrite IH. destruct (existsb (String.eqb k) (map fst d)); reflexivity.
Qed.

Lemma NoDup_keys_set (k v : string) (d : Tags.dict) :
  NoDup (Tags.dict_keys d) -> NoDup (Tags.dict_keys (Tags.dict_set k v d)).
Proof.
  intros H. rewrite dict_keys_set.
  destruct (existsb (String.eqb k) (Tags.dict_keys d)) eqn:E; [exact H|].
  apply PartProofs.NoDup_snoc; [exact H|].
  intros Hin. assert (existsb (String.eqb k) (Tags.dict_keys d) = true) as E'.
  { apply existsb_exists. exists k. split; [exact Hin | apply String.eqb_refl]. }
  congruence.
Qed.





(** ** The older script's ARN regular expression *)











Lemma list_teams_eq (u : Users.t) :
  list_teams u =
  filter (fun t => match fst (fst t) with [] => false | _ => true end)
    [(owners u, "owners", "owner"); (admins u, "admins", "admin");
     (maintainers u, "maintainers", "maintain"); (launchers u, "launchers", "launch");
     (viewers u, "viewers", "view")].
Proof.
  unfold list_teams, list_users. rewrite !fold_left_app.
  rewrite (fold_group _ "owners" "owner") by reflexivity.
  rewrite (fold_group _ "admins" "admin") by (reflexivity || destruct (owners u); reflexivity).
  rewrite (fold_group _ "maintainers" "maintain")
    by (reflexivity || destruct (owners u), (admins u); reflexivity).
  rewrite (fold_group _ "launchers" "launch")
    by (reflexivity || destruct (owners u), (admins u), (maintainers u); reflexivity).
  rewrite (fold_group _ "viewers" "view")
    by (reflexivity || destruct (owners u), (admins u), (maintainers u), (launchers u); reflexivity).
  destruct (owners u), (admins u), (maintainers u), (launchers u), (viewers u); reflexivity.
Qed.


End ExtraProofs.

(* ------------------------------------------------------------------ *)
(** ** Properties of the remaining pure code *)

Module ExtraPure.
Import Users UsersTeams ExtraSpec ExtraProofs.

(** [Users.list_teams] yields one group per non-empty user group, in the
    order owners, admins, maintainers, launchers, viewers, each with all
    its users in their order, its group name and its Tower role. *)
Theorem list_teams_groups (u : Users.t) :
  list_teams u =
  filter (fun t => match fst (fst t) with [] => false | _ => true end)
    [(owners u, "owners", "owner"); (admins u, "admins", "admin");
     (maintainers u, "maintainers", "maintain"); (launchers u, "launchers", "launch");
     (viewers u, "viewers", "view")].
Proof. exact (list_teams_eq u). Qed.

(** [get_cfn_stack_outputs] maps ["stack_name"] to the stack's name (an
    output of that name is overridden) and every other key to the last
    value the stack gives it, and its keys are distinct. *)
Theorem get_cfn_stack_outputs_lookup (stack_name k : string) (outputs_raw : list (string * string)) :
  Tags.dict_get k (AwsClient.get_cfn_stack_outputs stack_name outputs_raw) =
    (if String.eqb k "stack_name" then Some stack_name else last_output k outputs_raw) /\
  NoDup (Tags.dict_keys (AwsClient.get_cfn_stack_outputs stack_name outputs_raw)).
Proof.
  unfold AwsClient.get_cfn_stack_outputs, last_output. split.
  - rewrite dict_get_set. destruct (String.eqb k "stack_name"); [reflexivity|].
    change (@None string) with (Tags.dict_get k []).
    generalize (@nil (string * string)) as d.
    induction outputs_raw as [|[k1 v1] raw IH]; intros d; simpl; [reflexivity|].
    rewrite IH, dict_get_set. rewrite (String.eqb_sym k1 k). reflexivity.
  - apply NoDup_keys_set.
    assert (NoDup (Tags.dict_keys (@nil (string * string)))) as H0 by constructor.
    revert H0. generalize (@nil (string * string)) as d.
    induction outputs_raw as [|[k1 v1] raw IH]; intros d Hd; simpl; [exact Hd|].
    apply IH, NoDup_keys_set, Hd.
Qed.





End ExtraPure.

(* ================================================================== *)
(** ** Lemmas on [Projects.validate_config] *)

Module ValidateProofs.
Import Remote Projects.

Lemma existsb_key_jget (key : string) (f : list (string * json)) :
  existsb (fun kv => String.eqb (fst kv) key) f =
  match jget key (JObj f) with Some _ => true | None => false end.
Proof.
  simpl. induction f as [|[k v] f IH]; simpl; [reflexivity|].
  destruct (String.eqb k key); [reflexivity | exact IH].
Qed.

Lemma py_in_obj (key : string) (f : list (string * json)) :
  py_in key (JObj f) = inr (match jget key (JObj f) with Some _ => true | None => false end).
Proof. simpl py_in. rewrite existsb_key_jget. reflexivity. Qed.

Lemma py_getitem_obj (key : string) (f : list (string * json)) :
  py_getitem key (JObj f) = match jget key (JObj f) with Some v => inr v | None => inl (KeyError key) end.
Proof. reflexivity. Qed.

Lemma validate_obj (py_str : json -> string) (f : list (string * json)) :
  validate_config py_str (JObj f) =
  match jget "stack_name" (JObj f) with
  | None => inl (InvalidTowerProject ("This config is invalid:" ++ TowerWorkspace.nl ++ py_str (JObj f)))
  | Some sn =>
      let invalid := inl (InvalidTowerProject (fmt py_str sn ++ ".yaml is invalid")) in
      match jget "template" (JObj f) with
      | None => invalid
      | Some t =>
          match py_getitem "path" t with
          | inl e => inl e
          | inr p =>
              if py_eq_str p "tower-project.j2" then
                match jget "parameters" (JObj f) with
                | None => invalid
                | Some params =>
                    match py_in "S3ReadWriteAccessArns" params with
                    | inl e => inl e
                    | inr true => inr tt
                    | inr false =>
                        match py_in "S3ReadOnlyAccessArns" params with
                        | inl e => inl e
                        | inr true => inr tt
                        | inr false => invalid
                        end
                    end
                end
              else invalid
          end
      end
  end.
Proof.
  unfold validate_config. rewrite !py_in_obj, !py_getitem_obj.
  destruct (jget "stack_name" (JObj f)) as [sn|]; cbn [bindv]; cbv zeta; [|reflexivity].
  destruct (jget "template" (JObj f)) as [t|]; cbn [bindv]; [|reflexivity].
  destruct (py_getitem "path" t) as [e|p]; cbn [bindv]; [reflexivity|].
  destruct (py_eq_str p "tower-project.j2"); [|reflexivity].
  destruct (jget "parameters" (JObj f)) as [params|]; cbn [bindv]; [|reflexivity].
  destruct (py_in "S3ReadWriteAccessArns" params) as [e|[|]]; cbn [bindv]; [reflexivity|reflexivity|].
  destruct (py_in "S3ReadOnlyAccessArns" params) as [e|[|]]; reflexivity.
Qed.

Lemma py_getitem_path (t : json) :
  py_getitem "path" t = match t with
                        | JObj _ => match jget "path" t with Some v => inr v | None => inl (KeyError "path") end
                        | _ => inl TypeError end.
Proof. destruct t; reflexivity. Qed.

Lemma py_eq_str_spec (j : json) (s : string) : py_eq_str j s = true <-> j = JStr s.
Proof.
  destruct j; simpl; split; intros H; try discriminate; try (injection H as H).
  - apply String.eqb_eq in H; subst; reflexivity.
  - subst; apply String.eqb_refl.
Qed.

Lemma py_in_err (k : string) (j : json) (e : error) : py_in k j = inl e -> e = TypeError.
Proof. destruct j; simpl; intros H; congruence. Qed.

Ltac non_obj_cases :=
  unfold validate_config; cbn [py_in bindv];
  repeat match goal with
         | |- context [if ?b then _ else _] => destruct b
         | |- context [bindv (py_in ?k ?j) _] => destruct (py_in k j) as [?|[|]]; cbn [bindv]
         end.

End ValidateProofs.

(* ================================================================== *)
(** ** Lemmas on runs of the client operations *)

Module RunProofs.
Import Remote Eff TowerWorkspace CredSpec RunSpec.

Lemma bind_inv {A B} (m : M A) (k : A -> M B) (w w' : world) (b : B) :
  bind m k w = (Ok b, w') -> exists a w1, m w = (Ok a, w1) /\ k a w1 = (Ok b, w').
Proof.
  unfold bind. destruct (m w) as [[a|e] w1]; intros H; [exists a, w1; auto | discriminate].
Qed.

Lemma add_member_post (org : Z) (user : string) (w w' : world) (m : Member) :
  bind (request (AddMember org user)) (fun response => need "member" (Resp.member response)) w
    = (Ok m, w') ->
  mem_email m = user /\ mem_orgId m = org /\ In m (members (remote w')) /\
  incl (members (remote w)) (members (remote w')).
Proof.
  cbv beta iota delta [bind request need ret raise serve Resp.member].
  destruct (existsb _ (members (remote w))); intros H; [discriminate H|].
  injection H as <- <-. cbn.
  split; [reflexivity|]. split; [reflexivity|]. split.
  - apply in_or_app; right; left; reflexivity.
  - intros x Hx; apply in_or_app; left; exact Hx.
Qed.

Lemma add_member_run (org : Z) (user : string) (w w' : world) (m : Member) :
  TowerOrganization.add_member org user w = (Ok m, w') ->
  mem_email m = user /\ mem_orgId m = org /\ In m (members (remote w')) /\
  incl (members (remote w)) (members (remote w')).
Proof.
  unfold TowerOrganization.add_member. intros H.
  apply bind_inv in H as (resp & w1 & H1 & H2).
  cbv beta iota delta [request serve] in H1. injection H1 as <- <-.
  apply bind_inv in H2 as (ms & w2 & H3 & H4).
  cbv beta iota delta [need Resp.members ret] in H3. injection H3 as <- <-.
  set (L := filter _ (members (remote w))) in H4.
  assert (HL : forall x, In x L -> mem_orgId x = org /\ In x (members (remote w))).
  { intros x Hx. unfold L in Hx. apply filter_In in Hx as [Hx Hb].
    apply andb_prop in Hb as [Hb _]. apply Z.eqb_eq in Hb. auto. }
  destruct L as [|m0 [|m1 l]].
  - apply add_member_post in H4. exact H4.
  - destruct (String.eqb (mem_email m0) user) eqn:E.
    + injection H4 as <- <-. cbn [remote].
      apply String.eqb_eq in E. destruct (HL m0 (or_introl eq_refl)) as [Ho Hin].
      split; [exact E|]. split; [exact Ho|]. split; [exact Hin|]. intros x Hx; exact Hx.
    + apply add_member_post in H4. exact H4.
  - apply add_member_post in H4. exact H4.
Qed.

Lemma lookup_assoc_set (u k : string) (v : Member) (d : list (string * Member)) :
  lookup_member u (OrgPopulate.assoc_set k v d) =
  if String.eqb k u then Some v else lookup_member u d.
Proof.
  unfold lookup_member. induction d as [|[k1 v1] d IH]; simpl.
  - destruct (String.eqb k u); reflexivity.
  - destruct (String.eqb k k1) eqn:E1; simpl.
    + apply String.eqb_eq in E1; subst k1.
      destruct (String.eqb k u); reflexivity.
    + destruct (String.eqb k1 u) eqn:E2.
      * apply String.eqb_eq in E2; subst k1. rewrite E1. reflexivity.
      * exact IH.
Qed.

Lemma foldM_post {A B} (f : B -> A -> M B) (l : list A)
    (R : B * world -> B * world -> Prop) (P : A -> B * world -> Prop) :
  (forall s, R s s) ->
  (forall s1 s2 s3, R s1 s2 -> R s2 s3 -> R s1 s3) ->
  (forall x s s', P x s -> R s s' -> P x s') ->
  (forall acc x w acc' w', In x l -> f acc x w = (Ok acc', w') ->
                           R (acc, w) (acc', w') /\ P x (acc', w')) ->
  forall acc w r w', foldM f l acc w = (Ok r, w') ->
  R (acc, w) (r, w') /\ forall x, In x l -> P x (r, w').
Proof.
  intros Hrefl Htrans Hstable Hstep.
  induction l as [|x l IH]; intros acc w r w' H; simpl in H.
  - injection H as <- <-. split; [apply Hrefl | intros x []].
  - apply bind_inv in H as (acc1 & w1 & H1 & H2).
    destruct (Hstep acc x w acc1 w1 (or_introl eq_refl) H1) as [HR1 HP1].
    destruct (IH (fun acc x w acc' w' Hin => Hstep acc x w acc' w' (or_intror Hin)) acc1 w1 r w' H2)
      as [HR2 HP2].
    split; [exact (Htrans _ _ _ HR1 HR2)|].
    intros y [<-|Hy]; [exact (Hstable _ _ _ HP1 HR2) | exact (HP2 y Hy)].
Qed.

Lemma grows_refl (org : Z) (s : list (string * Member) * world) : grows org s s.
Proof. split; [intros x Hx; exact Hx | auto]. Qed.

Lemma grows_trans (org : Z) (s1 s2 s3 : list (string * Member) * world) :
  grows org s1 s2 -> grows org s2 s3 -> grows org s1 s3.
Proof.
  intros [H1 H2] [H3 H4]. split; [intros x Hx; exact (H3 _ (H1 _ Hx)) | auto].
Qed.

Lemma add_member_step (org : Z) (ms ms' : list (string * Member)) (user : string) (w w' : world) :
  OrgPopulate.add_member org ms user w = (Ok ms', w') ->
  grows org (ms, w) (ms', w') /\ known org user (ms', w').
Proof.
  unfold OrgPopulate.add_member. intros H.
  apply bind_inv in H as (m & w1 & H1 & H2). injection H2 as <- <-.
  apply add_member_run in H1 as (He & Ho & Hin & Hincl).
  split; [split|].
  - exact Hincl.
  - intros u (m' & Hl & He' & Ho' & Hin'). unfold known. cbn [fst snd] in *.
    rewrite lookup_assoc_set. destruct (String.eqb user u) eqn:E.
    + apply String.eqb_eq in E. exists m. rewrite <- E. repeat split; assumption.
    + exists m'. split; [exact Hl|]. split; [exact He'|]. split; [exact Ho'|]. apply Hincl, Hin'.
  - exists m. cbn [fst snd]. rewrite lookup_assoc_set, String.eqb_refl. repeat split; auto.
Qed.

Lemma in_nonempty_filter (l : list string) (g r user : string) (L : list (list string * string * string)) :
  In (l, g, r) L -> In user l ->
  In (l, g, r) (filter (fun t => match fst (fst t) with [] => false | _ => true end) L).
Proof.
  intros H Hu. apply filter_In. split; [exact H|]. destruct l; [destruct Hu|reflexivity].
Qed.

Lemma user_in_team (u : Users.t) (user : string) :
  In user (PartSpec.user_emails u) ->
  exists t, In t (UsersTeams.list_teams u) /\ In user (fst (fst t)).
Proof.
  intros H. rewrite ExtraProofs.list_teams_eq.
  unfold PartSpec.user_emails in H.
  apply in_map_iff in H as (((e, g), r) & He & Hin). cbn in He. subst e.
  unfold Users.list_users in Hin.
  repeat (apply in_app_iff in Hin as [Hin|Hin]);
    apply in_map_iff in Hin as (x & Hx & Hxin); injection Hx as -> <- <-.
  - exists (Users.owners u, "owners", "owner").
    split; [apply (in_nonempty_filter _ _ _ user); [simpl; tauto|exact Hxin]|exact Hxin].
  - exists (Users.admins u, "admins", "admin").
    split; [apply (in_nonempty_filter _ _ _ user); [simpl; tauto|exact Hxin]|exact Hxin].
  - exists (Users.maintainers u, "maintainers", "maintain").
    split; [apply (in_nonempty_filter _ _ _ user); [simpl; tauto|exact Hxin]|exact Hxin].
  - exists (Users.launchers u, "launchers", "launch").
    split; [apply (in_nonempty_filter _ _ _ user); [simpl; tauto|exact Hxin]|exact Hxin].
  - exists (Users.viewers u, "viewers", "view").
    split; [apply (in_nonempty_filter _ _ _ user); [simpl; tauto|exact Hxin]|exact Hxin].
Qed.

Lemma find_app_none {A} (f : A -> bool) (l1 l2 : list A) :
  find f l1 = None -> find f (l1 ++ l2) = find f l2.
Proof. induction l1 as [|x l1 IH]; simpl; [auto|]. destruct (f x); [discriminate|exact IH]. Qed.

Lemma create_resource_label_run (c : ctx) (lname value : string) (w : world) :
  create_resource_label c lname value w =
  match label_matches c (remote w) lname value with
  | [l] => (Ok (lab_id l), after_get w (GetLabels (id c)))
  | _ =>
      let nid := next_id (remote w) in
      (Ok nid,
       mkWorld (bump (with_labels (remote w) (labels (remote w) ++ [mkLabel (id c) nid lname value])))
               (secrets w)
               (log (after_get w (GetLabels (id c))) ++ [EvRequest (PostLabel (id c) lname value) (RLabelId nid)]))
  end.
Proof.
  unfold create_resource_label, get_resource_label, label_matches, after_get.
  cbv beta iota delta [bind request need ret serve Resp.labels Resp.label_id].
  cbn [remote secrets log fst].
  destruct (filter _ (filter _ (filter _ (labels (remote w))))) as [|l [|l2 r]]; reflexivity.
Qed.

Lemma label_matches_snoc (c : ctx) (s : Remote.state) (lname value : string) (nid : Z) :
  label_matches c (bump (with_labels s (labels s ++ [mkLabel (id c) nid lname value]))) lname value
  = label_matches c s lname value ++ [mkLabel (id c) nid lname value].
Proof.
  unfold label_matches. cbn [labels bump with_labels].
  rewrite !filter_app. f_equal.
  cbn [filter lab_wsId]. rewrite Z.eqb_refl.
  cbn [filter lab_name]. rewrite String.eqb_refl.
  cbn [filter lab_value]. rewrite String.eqb_refl. reflexivity.
Qed.

Lemma keeps_ret {A} (a : A) : keeps_ces (ret a).
Proof. intros w; reflexivity. Qed.

Lemma keeps_raise {A} (e : exn) : keeps_ces (A := A) (raise e).
Proof. intros w; reflexivity. Qed.

Lemma keeps_bind {A B} (m : M A) (k : A -> M B) :
  keeps_ces m -> (forall a, keeps_ces (k a)) -> keeps_ces (bind m k).
Proof.
  intros Hm Hk w. unfold bind. pose proof (Hm w) as H1.
  destruct (m w) as [[a|e] w1]; simpl in *; [rewrite Hk; exact H1 | exact H1].
Qed.

Lemma keeps_request (r : Remote.request) : touches_ces r = false -> keeps_ces (request r).
Proof.
  intros Hr w. unfold request.
  destruct r; try discriminate Hr; cbn;
    repeat match goal with |- context [if ?b then _ else _] => destruct b end; reflexivity.
Qed.

Lemma keeps_get_secret (arn : string) : keeps_ces (get_secret_value arn).
Proof. intros w. unfold get_secret_value. destruct (find _ (secrets w)) as [[? ?]|]; reflexivity. Qed.

Lemma keeps_mapM {A B} (f : A -> M B) (l : list A) :
  (forall x, keeps_ces (f x)) -> keeps_ces (mapM f l).
Proof.
  intro Hf. induction l as [|x l IH]; simpl; [apply keeps_ret|].
  apply keeps_bind; [apply Hf|intro y]. apply keeps_bind; [exact IH|intro; apply keeps_ret].
Qed.

Ltac keeps_tac :=
  repeat (cbv beta zeta;
          first
            [ apply keeps_bind; [|intro]
            | apply keeps_mapM; intro
            | apply keeps_request; reflexivity
            | apply keeps_ret
            | apply keeps_raise
            | apply keeps_get_secret
            | progress unfold need, dget, assert
            | match goal with
              | |- keeps_ces (match ?x with _ => _ end) => destruct x
              end ]).

Lemma keeps_generate (c : ctx) (nm model : string) : keeps_ces (generate_compute_environment c nm model).
Proof.
  unfold generate_compute_environment, create_credentials, create_resource_label, get_resource_label.
  keeps_tac.
Qed.

Lemma keeps_set_primary (c : ctx) (ce : Z) : keeps_ces (set_primary_compute_environment c ce).
Proof. unfold set_primary_compute_environment. keeps_tac. Qed.

Lemma generate_body (c : ctx) (nm model : string) :
  OrderSpec.returns_only
    (fun data => jget_str "name" (ce_body data) = nm /\ jget_str "platform" (ce_body data) = "aws-batch")
    (generate_compute_environment c nm model).
Proof.
  unfold generate_compute_environment. cbv zeta.
  repeat (apply OrderProofs.returns_bind; intro).
  apply OrderProofs.returns_ret. split; reflexivity.
Qed.

Lemma post_block (c : ctx) (nm model : string) (tail : Z -> M (option Z)) (w w' : world) (o : option Z) :
  (forall ce, keeps_ces (tail ce)) ->
  (forall ce w0 o0 w0', tail ce w0 = (Ok o0, w0') -> o0 = Some ce) ->
  (let* data := generate_compute_environment c nm model in
   let* response := request (PostComputeEnv c.(id) data) in
   let* ce := need "computeEnvId" (Resp.computeEnvId response) in
   tail ce) w = (Ok o, w') ->
  exists nid, o = Some nid /\
    compute_envs (remote w') =
      compute_envs (remote w) ++ [mkComputeEnv (id c) nid nm "aws-batch" "CREATING" false].
Proof.
  intros Hkeep Hret H.
  apply bind_inv in H as (data & w1 & H1 & H2).
  pose proof (keeps_generate c nm model w) as K1. rewrite H1 in K1. cbn [snd] in K1.
  pose proof (generate_body c nm model w data) as [Hn Hp]; [rewrite H1; reflexivity|].
  apply bind_inv in H2 as (resp & w2 & H3 & H4).
  unfold request in H3. cbn in H3. injection H3 as <- <-.
  apply bind_inv in H4 as (ce & w3 & H5 & H6).
  cbn in H5. injection H5 as <- <-.
  match type of H6 with tail _ ?w2 = _ => pose proof (Hkeep (next_id (remote w1)) w2) as K2 end.
  rewrite H6 in K2. cbn [snd] in K2.
  exists (next_id (remote w1)). split; [exact (Hret _ _ _ _ H6)|].
  rewrite K2. cbn. rewrite K1. unfold ce_body in Hn, Hp. rewrite Hn, Hp. reflexivity.
Qed.

Lemma eqb_app_l (p a b : string) : String.eqb (p ++ a) (p ++ b) = String.eqb a b.
Proof. induction p as [|ch p IH]; simpl; [reflexivity|]. rewrite Ascii.eqb_refl. exact IH. Qed.

Lemma ce_step_spot (c : ctx) (ids : option Z * option Z) (n : Z) :
  ce_step c ids (mkComputeEnv (id c) n (stack_name c ++ "-spot-" ++ CE_VERSION) "aws-batch" "CREATING" false)
  = (Some n, snd ids).
Proof. unfold ce_step. cbn [ce_platform ce_status ce_name ce_id]. rewrite !String.eqb_refl. reflexivity. Qed.

Lemma ce_step_ec2 (c : ctx) (ids : option Z * option Z) (n : Z) :
  ce_step c ids (mkComputeEnv (id c) n (stack_name c ++ "-ondemand-" ++ CE_VERSION) "aws-batch" "CREATING" false)
  = (fst ids, Some n).
Proof.
  unfold ce_step. cbn [ce_platform ce_status ce_name ce_id]. rewrite eqb_app_l, !String.eqb_refl.
  reflexivity.
Qed.

Lemma ws_ces_snoc (c : ctx) (s : Remote.state) (L : list ComputeEnv) (ce : ComputeEnv) :
  compute_envs s = L ++ [ce] -> ce_wsId ce = id c ->
  ws_ces c s = filter (fun ce => Z.eqb ce.(ce_wsId) c.(id)) L ++ [ce].
Proof.
  intros Hs Hw. unfold ws_ces. rewrite Hs, filter_app. cbn. rewrite Hw, Z.eqb_refl. reflexivity.
Qed.

Lemma cce_found (c : ctx) (w : world) (a b : Z) :
  ce_ids c (ws_ces c (remote w)) = (Some a, Some b) ->
  create_compute_environment c w = (Ok (Some a, Some b), after_get w (GetComputeEnvs (id c))).
Proof.
  intros H. unfold create_compute_environment.
  cbv beta iota zeta delta [bind request need ret serve Resp.computeEnvs].
  cbn [remote secrets log].
  unfold ce_ids, ce_step, ws_ces in H. rewrite H. reflexivity.
Qed.

Lemma ce_ids_snoc (c : ctx) (X : list ComputeEnv) (ce : ComputeEnv) :
  ce_ids c (X ++ [ce]) = ce_step c (ce_ids c X) ce.
Proof. unfold ce_ids. rewrite fold_left_app. reflexivity. Qed.

End RunProofs.

(* ================================================================== *)
(** ** Further properties of [Projects.validate_config] *)

Module ExtraValidate.
Import Remote Projects ValidateProofs.

(** [Projects.validate_config] accepts a configuration exactly when it has
    a [stack_name], a [template] whose [path] is ["tower-project.j2"] and
    [parameters] that contain [S3ReadWriteAccessArns] or, failing that,
    [S3ReadOnlyAccessArns]. *)
Theorem validate_config_accepts (py_str : json -> string) (config : json) :
  validate_config py_str config = inr tt <->
  exists stack_name template parameters,
    jget "stack_name" config = Some stack_name /\
    jget "template" config = Some template /\
    jget "path" template = Some (JStr "tower-project.j2") /\
    jget "parameters" config = Some parameters /\
    (py_in "S3ReadWriteAccessArns" parameters = inr true \/
     (py_in "S3ReadWriteAccessArns" parameters = inr false /\
      py_in "S3ReadOnlyAccessArns" parameters = inr true)).
Proof.
  destruct config as [| b | z | s | l | f];
    try (split; [intros H | intros (sn & t & p & H & _); discriminate H];
         revert H; non_obj_cases; discriminate).
  rewrite validate_obj. split.
  - destruct (jget "stack_name" (JObj f)) as [sn|]; [|discriminate]. cbv zeta.
    destruct (jget "template" (JObj f)) as [t|]; [|discriminate].
    rewrite py_getitem_path.
    destruct t as [| | | | |tf]; try discriminate.
    destruct (jget "path" (JObj tf)) as [p|] eqn:Hp; [|discriminate].
    destruct (py_eq_str p "tower-project.j2") eqn:Hpe; [|discriminate].
    apply py_eq_str_spec in Hpe; subst p.
    destruct (jget "parameters" (JObj f)) as [params|]; [|discriminate].
    intros H. exists sn, (JObj tf), params.
    split; [reflexivity|]. split; [reflexivity|]. split; [exact Hp|]. split; [reflexivity|].
    revert H.
    destruct (py_in "S3ReadWriteAccessArns" params) as [e|[|]]; intros H; [discriminate|left; reflexivity|].
    right. split; [reflexivity|]. revert H.
    destruct (py_in "S3ReadOnlyAccessArns" params) as [e|[|]]; intros H; [discriminate|reflexivity|discriminate].
  - intros (sn & t & params & Hsn & Ht & Hp & Hpar & Hin).
    rewrite Hsn, Ht. cbv zeta. rewrite py_getitem_path.
    destruct t as [| | | | |tf]; try discriminate Hp.
    rewrite Hp. cbn [py_eq_str]. rewrite String.eqb_refl, Hpar.
    destruct Hin as [H|[H1 H2]]; [rewrite H; reflexivity|rewrite H1, H2; reflexivity].
Qed.


(** [Projects.validate_config] raises [InvalidTowerProject] with the
    message ["<stack_name>.yaml is invalid"] when the configuration has a
    stack name, and with ["This config is invalid:"], a newline and the
    configuration otherwise. *)
Theorem validate_config_message (py_str : json -> string) (config : json) (msg : string) :
  validate_config py_str config = inl (InvalidTowerProject msg) ->
  (exists stack_name, jget "stack_name" config = Some stack_name /\
                      msg = (fmt py_str stack_name ++ ".yaml is invalid")%string) \/
  (jget "stack_name" config = None /\
   msg = ("This config is invalid:" ++ TowerWorkspace.nl ++ fmt py_str config)%string).
Proof.
  destruct config as [| b | z | s | l | f];
    try (non_obj_cases; intros H; try discriminate H;
         injection H as H; subst msg; right; split; reflexivity).
  rewrite validate_obj.
  destruct (jget "stack_name" (JObj f)) as [sn|]; cbv zeta;
    [|intros H; injection H as H; subst msg; right; split; reflexivity].
  assert (Hinv : forall m, (inl (InvalidTowerProject (fmt py_str sn ++ ".yaml is invalid")) : outcome unit) = inl (InvalidTowerProject m) ->
                 (exists stack_name, Some sn = Some stack_name /\ m = (fmt py_str stack_name ++ ".yaml is invalid")%string) \/
                 (Some sn = None /\ m = ("This config is invalid:" ++ TowerWorkspace.nl ++ fmt py_str (JObj f))%string)).
  { intros m H; injection H as H; subst m; left; exists sn; split; reflexivity. }
  destruct (jget "template" (JObj f)) as [t|]; [|apply Hinv].
  rewrite py_getitem_path.
  destruct t as [| | | | |tf]; try (intros H; discriminate H).
  destruct (jget "path" (JObj tf)) as [p|]; [|intros H; discriminate H].
  destruct (py_eq_str p "tower-project.j2"); [|apply Hinv].
  destruct (jget "parameters" (JObj f)) as [params|]; [|apply Hinv].
  destruct (py_in "S3ReadWriteAccessArns" params) as [e|[|]] eqn:E1;
    [apply py_in_err in E1; subst e; intros H; discriminate H|intros H; discriminate H|].
  destruct (py_in "S3ReadOnlyAccessArns" params) as [e|[|]] eqn:E2;
    [apply py_in_err in E2; subst e; intros H; discriminate H|intros H; discriminate H|apply Hinv].
Qed.


Lemma validate_config_message_witness :
  validate_config (fun _ => "")
    (JObj [("stack_name", JStr "foo-project"); ("template", JObj [("path", JStr "other.j2")])])
    = inl (InvalidTowerProject "foo-project.yaml is invalid") /\
  ((exists stack_name,
      jget "stack_name" (JObj [("stack_name", JStr "foo-project"); ("template", JObj [("path", JStr "other.j2")])])
        = Some stack_name /\
      "foo-project.yaml is invalid" = (fmt (fun _ => "") stack_name ++ ".yaml is invalid")%string) \/
   (jget "stack_name" (JObj [("stack_name", JStr "foo-project"); ("template", JObj [("path", JStr "other.j2")])])
      = None /\
    "foo-project.yaml is invalid" =
      ("This config is invalid:" ++ TowerWorkspace.nl
       ++ fmt (fun _ => "") (JObj [("stack_name", JStr "foo-project"); ("template", JObj [("path", JStr "other.j2")])]))%string)).
Proof.
  assert (H : validate_config (fun _ => "")
                (JObj [("stack_name", JStr "foo-project"); ("template", JObj [("path", JStr "other.j2")])])
              = inl (InvalidTowerProject "foo-project.yaml is invalid")) by (vm_compute; reflexivity).
  split; [exact H | exact (validate_config_message _ _ _ H)].
Defined.

(** A configuration with a stack name and a template that has no [path]
    is not reported as invalid: [Projects.validate_config] raises the
    [KeyError] of [template["path"]] (a [TypeError] when the template is
    not an object) instead of [InvalidTowerProject]. *)
Theorem validate_config_template_without_path (py_str : json -> string) (config stack_name template : json) :
  jget "stack_name" config = Some stack_name ->
  jget "template" config = Some template ->
  jget "path" template = None ->
  validate_config py_str config =
    inl (match template with JObj _ => KeyError "path" | _ => TypeError end).
Proof.
  intros Hsn Ht Hp.
  destruct config as [| | | | |f]; try discriminate Hsn.
  rewrite validate_obj, Hsn, Ht. cbv zeta. rewrite py_getitem_path.
  destruct template; try reflexivity. rewrite Hp. reflexivity.
Qed.


Lemma validate_config_template_without_path_witness :
  jget "stack_name" (JObj [("stack_name", JStr "foo-project"); ("template", JObj [("name", JStr "x")])])
    = Some (JStr "foo-project") /\
  jget "template" (JObj [("stack_name", JStr "foo-project"); ("template", JObj [("name", JStr "x")])])
    = Some (JObj [("name", JStr "x")]) /\
  jget "path" (JObj [("name", JStr "x")]) = None /\
  validate_config (fun _ => "")
    (JObj [("stack_name", JStr "foo-project"); ("template", JObj [("name", JStr "x")])])
    = inl (KeyError "path").
Proof.
  split; [reflexivity|]. split; [reflexivity|]. split; [reflexivity|].
  exact (validate_config_template_without_path (fun _ => "")
           (JObj [("stack_name", JStr "foo-project"); ("template", JObj [("name", JStr "x")])])
           (JStr "foo-project") (JObj [("name", JStr "x")]) eq_refl eq_refl eq_refl).
Defined.

End ExtraValidate.

(* ================================================================== *)
(** ** Further properties of the organization operations *)

Module ExtraOrg.
Import Remote Eff RunSpec RunProofs.

(** A successful [TowerOrganization.populate] loses no member of the
    service, and the member dict it returns maps every user listed in a
    project to a member of the organization with that email, present on
    the service afterwards. *)
Theorem populate_members (org : Z) (users_per_project : list (string * Users.t))
    (w w' : world) (ms : list (string * Member)) :
  OrgPopulate.populate org users_per_project [] w = (Ok ms, w') ->
  incl (members (remote w)) (members (remote w')) /\
  forall project_name u user,
    In (project_name, u) users_per_project -> In user (PartSpec.user_emails u) ->
    exists m, lookup_member user ms = Some m /\ mem_email m = user /\
              mem_orgId m = org /\ In m (members (remote w')).
Proof.
  unfold OrgPopulate.populate. intros H.
  pose (P2 := fun (t : list string * string * string) s => forall user, In user (fst (fst t)) -> known org user s).
  pose (P3 := fun (pu : string * Users.t) s => forall t, In t (UsersTeams.list_teams (snd pu)) -> P2 t s).
  assert (Hstable2 : forall t s s', P2 t s -> grows org s s' -> P2 t s').
  { intros t s s' H2 [_ Hg] user Hu. apply Hg, H2, Hu. }
  assert (Hstable3 : forall pu s s', P3 pu s -> grows org s s' -> P3 pu s').
  { intros pu s s' H3 Hg t Ht. exact (Hstable2 t s s' (H3 t Ht) Hg). }
  assert (Hteam : forall acc t w0 acc' w1,
            (let '(users, _, _) := t in foldM (OrgPopulate.add_member org) users acc) w0 = (Ok acc', w1) ->
            grows org (acc, w0) (acc', w1) /\ P2 t (acc', w1)).
  { intros acc [[users g] r] w0 acc' w1 Hf.
    destruct (foldM_post (OrgPopulate.add_member org) users (grows org) (known org)
                (grows_refl org) (grows_trans org)
                (fun x s s' Hk Hg => proj2 Hg x Hk)
                (fun acc x w acc' w' _ Hs => add_member_step org acc acc' x w w' Hs)
                acc w0 acc' w1 Hf) as [Hg Hk].
    split; [exact Hg|]. intros user Hu. exact (Hk user Hu). }
  assert (Hproj : forall acc pu w0 acc' w1,
            (let '(_, project_users) := pu in
             foldM (fun members '(users, _, _) => foldM (OrgPopulate.add_member org) users members)
                   (UsersTeams.list_teams project_users) acc) w0 = (Ok acc', w1) ->
            grows org (acc, w0) (acc', w1) /\ P3 pu (acc', w1)).
  { intros acc [pn pu] w0 acc' w1 Hf.
    destruct (foldM_post _ (UsersTeams.list_teams pu) (grows org) P2
                (grows_refl org) (grows_trans org) Hstable2
                (fun acc x w acc' w' _ Hs => Hteam acc x w acc' w' Hs)
                acc w0 acc' w1 Hf) as [Hg Hk].
    split; [exact Hg|]. exact Hk. }
  destruct (foldM_post _ users_per_project (grows org) P3
              (grows_refl org) (grows_trans org) Hstable3
              (fun acc x w acc' w' _ Hs => Hproj acc x w acc' w' Hs)
              [] w ms w' H) as [[Hincl _] Hall].
  split; [exact Hincl|].
  intros pn u user Hpu Hu.
  destruct (user_in_team u user Hu) as (t & Ht & Hut).
  exact (Hall (pn, u) Hpu t Ht user Hut).
Qed.


Lemma populate_members_witness :
  match OrgPopulate.populate 1 [("foo-project", Fixtures.users_pop)] [] Fixtures.w_member0 with
  | (Ok ms, w') =>
      incl (members (remote Fixtures.w_member0)) (members (remote w')) /\
      forall project_name u user,
        In (project_name, u) [("foo-project", Fixtures.users_pop)] -> In user (PartSpec.user_emails u) ->
        exists m, lookup_member user ms = Some m /\ mem_email m = user /\
                  mem_orgId m = 1%Z /\ In m (members (remote w'))
  | _ => False
  end.
Proof.
  destruct (OrgPopulate.populate 1 [("foo-project", Fixtures.users_pop)] [] Fixtures.w_member0)
    as [[ms|e] w'] eqn:E.
  - exact (populate_members _ _ _ _ _ E).
  - vm_compute in E. discriminate E.
Defined.

(** [TowerOrganization.create] always succeeds with an organization of the
    given full name, and running it again on the resulting world returns
    the same organization after a single read of the organizations,
    without changing the service. *)
Theorem org_create_idempotent (full_name name : string) (w : world) :
  exists o w1,
    TowerOrganization.create full_name name w = (Ok o, w1) /\
    org_fullName o = full_name /\
    TowerOrganization.create full_name name w1 = (Ok o, after_get w1 GetOrgs).
Proof.
  unfold TowerOrganization.create.
  cbv beta iota delta [bind request need ret serve Resp.organizations Resp.organization].
  cbn [remote secrets log].
  destruct (find (fun o => String.eqb (org_fullName o) full_name) (orgs (remote w))) as [o|] eqn:E.
  - eexists o, _. split; [reflexivity|]. split.
    + apply find_some in E as [_ E]. apply String.eqb_eq, E.
    + unfold after_get. cbn. rewrite E. reflexivity.
  - eexists _, _. split; [reflexivity|]. split; [reflexivity|].
    unfold after_get. cbn. rewrite find_app_none by exact E. cbn. rewrite String.eqb_refl. reflexivity.
Qed.


End ExtraOrg.

(* ================================================================== *)
(** ** Further properties of the workspace operations *)

Module ExtraWorkspace.
Import Remote Eff TowerWorkspace CredSpec RunSpec RunProofs.

(** [TowerWorkspace.create] always succeeds with a workspace of the
    organization with the given name, and running it again on the
    resulting world returns the same workspace after a single read of the
    workspaces, without changing the service. *)
Theorem workspace_create_idempotent (org_id : Z) (name full_name : string) (w : world) :
  exists ws w1,
    TowerWorkspace.create org_id name full_name w = (Ok ws, w1) /\
    ws_orgId ws = org_id /\ ws_name ws = name /\
    TowerWorkspace.create org_id name full_name w1 = (Ok ws, after_get w1 (GetWorkspaces org_id)).
Proof.
  unfold TowerWorkspace.create.
  cbv beta iota delta [bind request need ret serve Resp.workspaces Resp.workspace].
  cbn [remote secrets log].
  destruct (find (fun ws => String.eqb (ws_name ws) name)
                 (filter (fun ws => Z.eqb (ws_orgId ws) org_id) (workspaces (remote w)))) as [ws|] eqn:E.
  - eexists ws, _. split; [reflexivity|].
    pose proof E as E'. apply find_some in E' as [Hin Hn]. apply filter_In in Hin as [_ Ho].
    split; [apply Z.eqb_eq, Ho|]. split; [apply String.eqb_eq, Hn|].
    unfold after_get. cbn. rewrite E. reflexivity.
  - eexists _, _. split; [reflexivity|]. split; [reflexivity|]. split; [reflexivity|].
    unfold after_get. cbn. rewrite filter_app, find_app_none by exact E.
    cbn. rewrite Z.eqb_refl. cbn. rewrite String.eqb_refl. reflexivity.
Qed.


(** After a successful [create_credentials], a second call returns the
    same credentials id after a single read of the credentials: it creates
    nothing and reads no secret. *)
Theorem create_credentials_idempotent (c : ctx) (w w1 : world) (i : Z) :
  create_credentials c w = (Ok i, w1) ->
  create_credentials c w1 = (Ok i, after_get w1 (GetCredentials (id c))).
Proof.
  intros H.
  destruct (found_credential c (remote w)) as [cred|] eqn:Hf.
  - rewrite (CredProofs.create_credentials_found c w cred Hf) in H.
    assert (Hi : (if String.eqb (cred_provider cred) "aws" then
                    match cred_deleted cred with None => Ok (cred_id cred) | Some _ => Err AssertionError end
                  else Err AssertionError) = Ok i) by congruence.
    injection H as _ <-.
    rewrite (CredProofs.create_credentials_found c _ cred); [rewrite Hi; reflexivity | exact Hf].
  - pose proof Hf as Hf0.
    unfold found_credential, ws_credentials in Hf.
    unfold create_credentials, bind, request, need, ret, dget, get_secret_value, raise in H.
    simpl in H. rewrite Hf in H.
    repeat (simpl in H; match type of H with
                        | context [find ?f ?l] => destruct (find f l) as [[? ?]|]
                        end);
      simpl in H; try discriminate H.
    injection H as <- <-.
    set (cred := mkCredential (id c) (next_id (remote w)) (stack_name c) "aws" None).
    assert (Hf1 : found_credential c
                    (bump (with_credentials (remote w) (credentials (remote w) ++ [cred]))) = Some cred).
    { unfold found_credential, ws_credentials. cbn. rewrite filter_app, find_app_none by exact Hf.
      cbn. rewrite Z.eqb_refl. cbn. rewrite String.eqb_refl. reflexivity. }
    rewrite (CredProofs.create_credentials_found c _ cred); [reflexivity | exact Hf1].
Qed.


Lemma create_credentials_idempotent_witness :
  match create_credentials Fixtures.ctx_gen Fixtures.world_gen with
  | (Ok i, w1) => create_credentials Fixtures.ctx_gen w1 = (Ok i, after_get w1 (GetCredentials 7))
  | _ => False
  end.
Proof.
  destruct (create_credentials Fixtures.ctx_gen Fixtures.world_gen) as [[i|e] w1] eqn:E.
  - exact (create_credentials_idempotent _ _ _ _ E).
  - vm_compute in E. discriminate E.
Defined.

(** When the workspace has at most one label with the given name and
    value, [create_resource_label] succeeds and a second call returns the
    same label id after a single read of the labels. *)
Theorem create_resource_label_idempotent (c : ctx) (lname value : string) (w : world) :
  length (label_matches c (remote w) lname value) <= 1 ->
  exists i w1,
    create_resource_label c lname value w = (Ok i, w1) /\
    create_resource_label c lname value w1 = (Ok i, after_get w1 (GetLabels (id c))).
Proof.
  intros Hlen. rewrite create_resource_label_run.
  destruct (label_matches c (remote w) lname value) as [|l [|l2 r]] eqn:E.
  - eexists _, _. split; [reflexivity|].
    rewrite create_resource_label_run. cbn [remote]. rewrite label_matches_snoc, E. reflexivity.
  - eexists _, _. split; [reflexivity|].
    rewrite create_resource_label_run. cbn [remote after_get]. rewrite E. reflexivity.
  - simpl in Hlen. lia.
Qed.


Lemma create_resource_label_idempotent_witness :
  length (label_matches Fixtures.ctx_gen (remote Fixtures.world_gen) "CostCenter" "program-42") <= 1 /\
  exists i w1,
    create_resource_label Fixtures.ctx_gen "CostCenter" "program-42" Fixtures.world_gen = (Ok i, w1) /\
    create_resource_label Fixtures.ctx_gen "CostCenter" "program-42" w1
      = (Ok i, after_get w1 (GetLabels (id Fixtures.ctx_gen))).
Proof.
  assert (H : length (label_matches Fixtures.ctx_gen (remote Fixtures.world_gen) "CostCenter" "program-42") <= 1)
    by (vm_compute; lia).
  split; [exact H | exact (create_resource_label_idempotent _ _ _ _ H)].
Defined.

(** When the workspace already has two or more labels with the given name
    and value, [create_resource_label] does not reuse any of them: it
    creates one more such label and returns its id. *)
Theorem create_resource_label_duplicates (c : ctx) (lname value : string) (w : world) :
  2 <= length (label_matches c (remote w) lname value) ->
  exists w1,
    create_resource_label c lname value w = (Ok (next_id (remote w)), w1) /\
    label_matches c (remote w1) lname value
      = label_matches c (remote w) lname value ++ [mkLabel (id c) (next_id (remote w)) lname value].
Proof.
  intros Hlen. rewrite create_resource_label_run.
  destruct (label_matches c (remote w) lname value) as [|l [|l2 r]] eqn:E; simpl in Hlen; try lia.
  eexists. split; [reflexivity|]. cbn [remote]. rewrite label_matches_snoc, E. reflexivity.
Qed.


Lemma create_resource_label_duplicates_witness :
  2 <= length (label_matches Fixtures.ctx_gen
                 (remote (mkWorld (mkState [] [] [] [] []
                                     [mkLabel 7 1 "CostCenter" "program-42"; mkLabel 7 2 "CostCenter" "program-42"]
                                     [] 10) [] []))
                 "CostCenter" "program-42") /\
  exists w1,
    create_resource_label Fixtures.ctx_gen "CostCenter" "program-42"
      (mkWorld (mkState [] [] [] [] [] [mkLabel 7 1 "CostCenter" "program-42"; mkLabel 7 2 "CostCenter" "program-42"]
                        [] 10) [] [])
      = (Ok 10%Z, w1) /\
    label_matches Fixtures.ctx_gen (remote w1) "CostCenter" "program-42"
      = [mkLabel 7 1 "CostCenter" "program-42"; mkLabel 7 2 "CostCenter" "program-42";
         mkLabel 7 10 "CostCenter" "program-42"].
Proof.
  assert (H : 2 <= length (label_matches Fixtures.ctx_gen
                 (remote (mkWorld (mkState [] [] [] [] []
                                     [mkLabel 7 1 "CostCenter" "program-42"; mkLabel 7 2 "CostCenter" "program-42"]
                                     [] 10) [] []))
                 "CostCenter" "program-42")) by (vm_compute; lia).
  split; [exact H|].
  exact (create_resource_label_duplicates _ _ _ _ H).
Defined.

(** [add_participant] with neither a (non-empty) user nor a (non-zero)
    team id raises the [ValueError] of the code and sends no request. *)
Theorem add_participant_no_identity (c : ctx) (role : string) (user : option string)
    (team_id : option Z) (w : world) :
  (user = None \/ user = Some "") -> (team_id = None \/ team_id = Some 0%Z) ->
  add_participant c role user team_id w =
    (Err (ValueError "Must provide value for exactly one of `user` or `team_id`."), w).
Proof. intros [-> | ->] [-> | ->]; reflexivity. Qed.


Lemma add_participant_no_identity_witness :
  (Some "" = None \/ Some "" = Some "") /\ ((None : option Z) = None \/ (None : option Z) = Some 0%Z) /\
  add_participant Fixtures.ctx_pop "view" (Some "") None Fixtures.world_pop =
    (Err (ValueError "Must provide value for exactly one of `user` or `team_id`."), Fixtures.world_pop).
Proof.
  split; [right; reflexivity|]. split; [left; reflexivity|].
  apply add_participant_no_identity; [right | left]; reflexivity.
Defined.

(** [add_participant] for a user that is not a member of the organization
    raises [KeyError] on the user and sends no request. *)
Theorem add_participant_unknown_user (c : ctx) (role u : string) (team_id : option Z) (w : world) :
  u <> "" -> PartSpec.mid_of c u = None ->
  add_participant c role (Some u) team_id w = (Err (KeyError u), w).
Proof.
  intros Hu Hm. unfold PartSpec.mid_of in Hm.
  unfold add_participant.
  destruct (String.eqb u "") eqn:E; [apply String.eqb_eq in E; contradiction|].
  cbn [negb].
  destruct (find (fun kv => String.eqb (fst kv) u) (org_members c)) as [[k m]|]; [discriminate|].
  reflexivity.
Qed.


Lemma add_participant_unknown_user_witness :
  "z@x.org" <> "" /\ PartSpec.mid_of Fixtures.ctx_pop "z@x.org" = None /\
  add_participant Fixtures.ctx_pop "view" (Some "z@x.org") None Fixtures.world_pop
    = (Err (KeyError "z@x.org"), Fixtures.world_pop).
Proof.
  assert (H1 : "z@x.org" <> "") by discriminate.
  assert (H2 : PartSpec.mid_of Fixtures.ctx_pop "z@x.org" = None) by reflexivity.
  split; [exact H1|]. split; [exact H2|].
  exact (add_participant_unknown_user _ _ _ _ _ H1 H2).
Defined.

(** When a non-empty user is given, [add_participant] ignores the team id
    entirely. *)
Theorem add_participant_user_ignores_team (c : ctx) (role u : string) (team_id : option Z) :
  u <> "" -> add_participant c role (Some u) team_id = add_participant c role (Some u) None.
Proof.
  intros Hu. unfold add_participant.
  destruct (String.eqb u "") eqn:E; [apply String.eqb_eq in E; contradiction|].
  reflexivity.
Qed.


Lemma add_participant_user_ignores_team_witness :
  "a@x.org" <> "" /\
  add_participant Fixtures.ctx_pop "view" (Some "a@x.org") (Some 5%Z)
    = add_participant Fixtures.ctx_pop "view" (Some "a@x.org") None.
Proof.
  assert (H : "a@x.org" <> "") by discriminate.
  split; [exact H | exact (add_participant_user_ignores_team _ _ _ _ H)].
Defined.

(** After a successful [create_compute_environment], a second call returns
    the same pair of compute environment ids after a single read of the
    compute environments: the environments it created are found again, so
    nothing is created twice. *)
Theorem create_compute_environment_idempotent (c : ctx) (w w1 : world) (r : option Z * option Z) :
  create_compute_environment c w = (Ok r, w1) ->
  create_compute_environment c w1 = (Ok r, after_get w1 (GetComputeEnvs (id c))).
Proof.
  intros H. unfold create_compute_environment in H. cbv zeta in H.
  apply bind_inv in H as (resp & wa & H1 & H2).
  unfold request in H1; cbn in H1; injection H1 as <- <-.
  apply bind_inv in H2 as (L & wb & H3 & H4).
  cbn in H3; injection H3 as <- <-.
  set (ids := fold_left _ _ _) in H4.
  assert (Hids : ids = ce_ids c (ws_ces c (remote w))) by reflexivity.
  clearbody ids.
  apply bind_inv in H4 as (spot & wc & H5 & H6).
  apply bind_inv in H6 as (ec2 & wd & H7 & H8). injection H8 as <- <-.
  destruct ids as [spot0 ec20]. cbn [fst snd] in H5, H7.
  assert (Hc : exists a, spot = Some a /\ ce_ids c (ws_ces c (remote wc)) = (spot, ec20)).
  { destruct spot0 as [i|].
    - cbn in H5. injection H5 as <- <-. exists i. split; [reflexivity|]. exact (eq_sym Hids).
    - apply (post_block c _ "SPOT" (fun ce => bind (set_primary_compute_environment c ce) (fun _ => ret (Some ce)))) in H5
        as (nid & -> & Hces).
      + exists nid. split; [reflexivity|].
        rewrite (ws_ces_snoc c _ _ _ Hces eq_refl). cbn [remote] in Hids |- *.
        change (filter _ (compute_envs (remote w))) with (ws_ces c (remote w)).
        rewrite ce_ids_snoc, <- Hids, ce_step_spot. reflexivity.
      + intros ce. apply keeps_bind; [apply keeps_set_primary | intros; apply keeps_ret].
      + intros ce w0 o0 w0' E. apply bind_inv in E as (u & w2 & _ & E). unfold ret in E. congruence. }
  destruct Hc as (a & -> & Hc).
  assert (Hd : exists b, ec2 = Some b /\ ce_ids c (ws_ces c (remote wd)) = (Some a, ec2)).
  { destruct ec20 as [i|].
    - cbn in H7. injection H7 as <- <-. exists i. split; [reflexivity|]. exact Hc.
    - apply (post_block c _ "EC2" (fun ce => ret (Some ce))) in H7 as (nid & -> & Hces).
      + exists nid. split; [reflexivity|].
        rewrite (ws_ces_snoc c _ _ _ Hces eq_refl).
        change (filter _ (compute_envs (remote wc))) with (ws_ces c (remote wc)).
        rewrite ce_ids_snoc, Hc, ce_step_ec2. reflexivity.
      + intros ce. apply keeps_ret.
      + intros ce w0 o0 w0' E. unfold ret in E. congruence. }
  destruct Hd as (b & -> & Hd).
  exact (cce_found c wd a b Hd).
Qed.


Lemma create_compute_environment_idempotent_witness :
  match create_compute_environment Fixtures.ctx_gen Fixtures.world_gen with
  | (Ok r, w1) => create_compute_environment Fixtures.ctx_gen w1 = (Ok r, after_get w1 (GetComputeEnvs 7))
  | _ => False
  end.
Proof.
  destruct (create_compute_environment Fixtures.ctx_gen Fixtures.world_gen) as [[r|e] w1] eqn:E.
  - exact (create_compute_environment_idempotent _ _ _ _ E).
  - vm_compute in E. discriminate E.
Defined.

End ExtraWorkspace.
